(** * Armature deformation kernel (blenkernel/intern/armature_deform.cc)

    A shallow embedding of Blender's per-vertex armature deformer and of
    the batch driver around it, together with the properties the design
    document states about them, and with further properties of the code:
    the vertices of a batch are independent, well-formed inputs are never
    read out of bounds, and linear blending computes the skinning formulas.

    Arithmetic.  The C++ code computes on [float].  Every function below is
    written once, over an interface [FloatArith] of the operations the code
    uses, and that interface has two instances:
    - [binary32]: IEEE-754 single precision, round to nearest even, from the
      standard library's [SpecFloat] (24 bits of precision, [emax = 128]);
      it is bit-exact and it computes;
    - [exact]: the real numbers, where the same program text is read as
      exact arithmetic.
    Control-flow properties are proved for every instance at once; identities
    that need algebra are proved for [exact].

    Code that is not part of armature_deform.cc enters in one of two ways.
    The vector and matrix helpers of the BLI math library are definitions
    marked "Modelled from the spec".  The dual-quaternion helpers, the DNA
    flag values and the BKE queries are fields of the interfaces
    [BlenlibExtern], [DNAConst] and [BKEExtern]; every property is proved for
    all their implementations.

    Undefined behaviour of the C++ code (null dereference, reading past a
    buffer) is the [None] of the option monad.  A [BLI_assert] of the batch
    code is an event of the log; inside the per-vertex code it is compiled
    out, as in release builds. *)

From Stdlib Require Import ZArith Reals Lra Lia Bool String.
From Stdlib Require Import SpecFloat.
From stdpp Require Import base option list.

Local Open Scope Z_scope.

(* ===================================================================== *)
(** ** Floating-point interface                                           *)
(* ===================================================================== *)

(** The operations on [float] that armature_deform.cc uses.  Comparisons are
    boolean, as in C++: with IEEE NaN, [a >= b] is not the negation of
    [a < b], so each comparison is a field of its own. *)
Class FloatArith (F : Type) := {
  f_zero : F;                    (* 0.0f *)
  f_one : F;                     (* 1.0f *)
  f_eps : F;                     (* 0.0001f *)
  f_add : F → F → F;
  f_sub : F → F → F;
  f_mul : F → F → F;
  f_div : F → F → F;
  f_sqrt : F → F;                (* sqrtf *)
  f_ltb : F → F → bool;          (* a < b *)
  f_leb : F → F → bool;          (* a <= b *)
  f_eqb : F → F → bool;          (* a == b *)
}.

Declare Scope float_scope.
Delimit Scope float_scope with flt.
Notation "a + b" := (f_add a b) : float_scope.
Notation "a - b" := (f_sub a b) : float_scope.
Notation "a * b" := (f_mul a b) : float_scope.
Notation "a / b" := (f_div a b) : float_scope.
Notation "a <? b" := (f_ltb a b) : float_scope.
Notation "a >? b" := (f_ltb b a) (only parsing) : float_scope.
Notation "a >=? b" := (f_leb b a) (only parsing) : float_scope.
Notation "a =? b" := (f_eqb a b) : float_scope.

(** *** IEEE-754 binary32 *)

Module B32.
Definition prec : Z := 24.
Definition emax : Z := 128.
Definition zero : spec_float := S754_zero false.
Definition one : spec_float := S754_finite false 8388608 (-23).
(** The float nearest to 1/10000: 13743895 * 2^-37 (bit pattern 0x38D1B717). *)
Definition eps : spec_float := S754_finite false 13743895 (-37).
(** A dyadic literal [m * 2^e], rounded to binary32. *)
Definition lit (m e : Z) : spec_float := binary_normalize prec emax m e false.
(** Finite binary32 values: a zero, or a mantissa and exponent in canonical
    form. *)
Definition finite (x : spec_float) : bool :=
  match x with
  | S754_zero _ => true
  | S754_finite _ m e => bounded B32.prec B32.emax m e
  | _ => false
  end.
End B32.

#[export] Instance binary32 : FloatArith spec_float := {|
  f_zero := B32.zero;
  f_one := B32.one;
  f_eps := B32.eps;
  f_add := SFadd B32.prec B32.emax;
  f_sub := SFsub B32.prec B32.emax;
  f_mul := SFmul B32.prec B32.emax;
  f_div := SFdiv B32.prec B32.emax;
  f_sqrt := SFsqrt B32.prec B32.emax;
  f_ltb := SFltb;
  f_leb := SFleb;
  f_eqb := SFeqb;
|}.

(** *** Exact arithmetic *)

Definition Rltb (a b : R) : bool := if Rlt_dec a b then true else false.
Definition Rleb (a b : R) : bool := if Rle_dec a b then true else false.
Definition Reqb (a b : R) : bool := if Req_dec_T a b then true else false.

#[export] Instance exact : FloatArith R := {|
  f_zero := 0%R;
  f_one := 1%R;
  f_eps := (1 / 10000)%R;
  f_add := Rplus;
  f_sub := Rminus;
  f_mul := Rmult;
  f_div := Rdiv;
  f_sqrt := sqrt;
  f_ltb := Rltb;
  f_leb := Rleb;
  f_eqb := Reqb;
|}.

(* ===================================================================== *)
(** ** Vectors and matrices                                               *)
(* ===================================================================== *)

(** [float[3]], [float[3][3]] and [float[4][4]].  A matrix is the record of
    its rows [m[0]], [m[1]], ...; Blender stores matrices column-major, so
    [m[3]] of a 4x4 matrix is the translation. *)
Record float3 (F : Type) : Type := Float3 { x3 : F; y3 : F; z3 : F }.
Record float4 (F : Type) : Type := Float4 { x4 : F; y4 : F; z4 : F; w4 : F }.
Record mat3 (F : Type) : Type :=
  Mat3 { m3_0 : float3 F; m3_1 : float3 F; m3_2 : float3 F }.
Record mat4 (F : Type) : Type :=
  Mat4 { m4_0 : float4 F; m4_1 : float4 F; m4_2 : float4 F; m4_3 : float4 F }.

Arguments Float3 {F} _ _ _.
Arguments x3 {F} _.
Arguments y3 {F} _.
Arguments z3 {F} _.
Arguments Float4 {F} _ _ _ _.
Arguments x4 {F} _.
Arguments y4 {F} _.
Arguments z4 {F} _.
Arguments w4 {F} _.
Arguments Mat3 {F} _ _ _.
Arguments m3_0 {F} _.
Arguments m3_1 {F} _.
Arguments m3_2 {F} _.
Arguments Mat4 {F} _ _ _ _.
Arguments m4_0 {F} _.
Arguments m4_1 {F} _.
Arguments m4_2 {F} _.
Arguments m4_3 {F} _.

(** C arrays indexed by an [int]: a negative or too large index reads
    outside the array. *)
Definition lookupZ {A : Type} (l : list A) (i : Z) : option A :=
  if i <? 0 then None else l !! Z.to_nat i.

Definition insertZ {A : Type} (i : Z) (a : A) (l : list A) : list A :=
  if i <? 0 then l else <[Z.to_nat i := a]> l.

(** Conversion of an [int] to [unsigned int]. *)
Definition to_uint (z : Z) : Z := z mod 2 ^ 32.

(** The BLI math helpers below are called by armature_deform.cc and live in
    blenlib (BLI_math_vector, BLI_math_matrix, BLI_math_base), which is not
    under src/. *)
Module BLI.
Section BLI.
Context {F : Type} `{FloatArith F}.
Local Open Scope float_scope.

(** Modelled from the spec: [math::square], the product of a value with
    itself. *)
Definition square (a : F) : F := a * a.

(** Modelled from the spec: [math::interpolate], linear interpolation
    [a * (1 - t) + b * t]. *)
Definition interpolate (a b t : F) : F := a * (f_one - t) + b * t.

(** Modelled from the spec: [zero_v3], the null vector. *)
Definition zero_v3 : float3 F := Float3 f_zero f_zero f_zero.

(** Modelled from the spec: [zero_m3], the null 3x3 matrix. *)
Definition zero_m3 : mat3 F := Mat3 zero_v3 zero_v3 zero_v3.

(** Modelled from the spec: [add_v3_v3v3] (and [add_v3_v3]), the sum of two
    vectors. *)
Definition add_v3_v3v3 (a b : float3 F) : float3 F :=
  Float3 (x3 a + x3 b) (y3 a + y3 b) (z3 a + z3 b).

(** Modelled from the spec: [sub_v3_v3] (and [operator-] of [float3]),
    the difference [r - a]. *)
Definition sub_v3_v3 (r a : float3 F) : float3 F :=
  Float3 (x3 r - x3 a) (y3 r - y3 a) (z3 r - z3 a).

(** Modelled from the spec: [mul_v3_fl], a vector scaled by [f]. *)
Definition mul_v3_fl (r : float3 F) (f : F) : float3 F :=
  Float3 (x3 r * f) (y3 r * f) (z3 r * f).

(** Modelled from the spec: [madd_v3_v3fl], [r + a * f]. *)
Definition madd_v3_v3fl (r a : float3 F) (f : F) : float3 F :=
  Float3 (x3 r + x3 a * f) (y3 r + y3 a * f) (z3 r + z3 a * f).

(** Modelled from the spec: [math::dot], the scalar product. *)
Definition dot (a b : float3 F) : F :=
  x3 a * x3 b + y3 a * y3 b + z3 a * z3 b.

(** Modelled from the spec: [math::distance_squared], the squared length
    of [a - b]. *)
Definition distance_squared (a b : float3 F) : F :=
  let d := sub_v3_v3 a b in dot d d.

(** Modelled from the spec: [mul_v3_m4v3] (and its in-place form
    [mul_m4_v3]), a 4x4 matrix applied to a point: the linear part on the
    vector plus the translation row [m[3]]. *)
Definition mul_v3_m4v3 (m : mat4 F) (v : float3 F) : float3 F :=
  Float3
    (x3 v * x4 (m4_0 m) + y3 v * x4 (m4_1 m) + x4 (m4_2 m) * z3 v + x4 (m4_3 m))
    (x3 v * y4 (m4_0 m) + y3 v * y4 (m4_1 m) + y4 (m4_2 m) * z3 v + y4 (m4_3 m))
    (x3 v * z4 (m4_0 m) + y3 v * z4 (m4_1 m) + z4 (m4_2 m) * z3 v + z4 (m4_3 m)).

Definition mul_m4_v3 (m : mat4 F) (r : float3 F) : float3 F := mul_v3_m4v3 m r.

(** Modelled from the spec: [copy_m3_m4], the upper-left 3x3 block. *)
Definition copy_m3_m4 (m : mat4 F) : mat3 F :=
  let row r := Float3 (x4 r) (y4 r) (z4 r) in
  Mat3 (row (m4_0 m)) (row (m4_1 m)) (row (m4_2 m)).

(** Modelled from the spec: [mul_m3_fl], a 3x3 matrix scaled by [f]. *)
Definition mul_m3_fl (m : mat3 F) (f : F) : mat3 F :=
  Mat3 (mul_v3_fl (m3_0 m) f) (mul_v3_fl (m3_1 m) f) (mul_v3_fl (m3_2 m) f).

(** Modelled from the spec: [madd_m3_m3m3fl], [a + b * f] entry by entry. *)
Definition madd_m3_m3m3fl (a b : mat3 F) (f : F) : mat3 F :=
  Mat3 (madd_v3_v3fl (m3_0 a) (m3_0 b) f)
       (madd_v3_v3fl (m3_1 a) (m3_1 b) f)
       (madd_v3_v3fl (m3_2 a) (m3_2 b) f).

(** Modelled from the spec: [mul_m3_m3m3], the matrix product [a * b] in
    Blender's column-major convention: row [i] of the result is [a]
    applied to row [i] of [b]. *)
Definition mul_m3_m3m3 (a b : mat3 F) : mat3 F :=
  let app v :=
    Float3 (x3 v * x3 (m3_0 a) + y3 v * x3 (m3_1 a) + z3 v * x3 (m3_2 a))
           (x3 v * y3 (m3_0 a) + y3 v * y3 (m3_1 a) + z3 v * y3 (m3_2 a))
           (x3 v * z3 (m3_0 a) + y3 v * z3 (m3_1 a) + z3 v * z3 (m3_2 a)) in
  Mat3 (app (m3_0 b)) (app (m3_1 b)) (app (m3_2 b)).

(** Modelled from the spec: [mul_m3_series] with four factors, the product
    [m1 * m2 * m3 * m4] taken from the left. *)
Definition mul_m3_series (m1 m2 m3 m4 : mat3 F) : mat3 F :=
  mul_m3_m3m3 (mul_m3_m3m3 (mul_m3_m3m3 m1 m2) m3) m4.

(** Modelled from the spec: [mul_m4_m4m4], the matrix product [a * b]:
    row [i] of the result is [a] applied to row [i] of [b]. *)
Definition mul_m4_m4m4 (a b : mat4 F) : mat4 F :=
  let app v :=
    Float4
      (x4 v * x4 (m4_0 a) + y4 v * x4 (m4_1 a) + z4 v * x4 (m4_2 a) + w4 v * x4 (m4_3 a))
      (x4 v * y4 (m4_0 a) + y4 v * y4 (m4_1 a) + z4 v * y4 (m4_2 a) + w4 v * y4 (m4_3 a))
      (x4 v * z4 (m4_0 a) + y4 v * z4 (m4_1 a) + z4 v * z4 (m4_2 a) + w4 v * z4 (m4_3 a))
      (x4 v * w4 (m4_0 a) + y4 v * w4 (m4_1 a) + z4 v * w4 (m4_2 a) + w4 v * w4 (m4_3 a)) in
  Mat4 (app (m4_0 b)) (app (m4_1 b)) (app (m4_2 b)) (app (m4_3 b)).

(** The 4x4 unit matrix. *)
Definition unit_m4 : mat4 F :=
  Mat4 (Float4 f_one f_zero f_zero f_zero) (Float4 f_zero f_one f_zero f_zero)
       (Float4 f_zero f_zero f_one f_zero) (Float4 f_zero f_zero f_zero f_one).
End BLI.
End BLI.

(* ===================================================================== *)
(** ** What the kernel takes from the rest of Blender                     *)
(* ===================================================================== *)

(** Flag values of the DNA headers (DNA_armature_types.h,
    DNA_action_types.h, DNA_modifier_types.h), which are not under src/.  No
    property below depends on their values. *)
Class DNAConst := {
  BONE_MULT_VG_ENV : Z;
  BONE_NO_DEFORM : Z;
  POSE_RECALC : Z;
  ARM_DEF_VGROUP : Z;
  ARM_DEF_ENVELOPE : Z;
  ARM_DEF_QUATERNION : Z;
  ARM_DEF_INVERT_VGROUP : Z;
}.

(** The dual-quaternion type and helpers of BLI_math_rotation, and two
    numeric routines whose thresholds and pivoting are blenlib's own. *)
Class BlenlibExtern (F : Type) := {
  DualQuat : Type;
  (** [DualQuat sumdq = {}] *)
  dq_zero : DualQuat;
  (** [add_weighted_dq_dq_pivot(dq_sum, dq, pivot, weight, compute_scale_matrix)],
      returning the new [*dq_sum] *)
  add_weighted_dq_dq_pivot : DualQuat → DualQuat → float3 F → F → bool → DualQuat;
  (** [normalize_dq(dq, totweight)], returning the new [*dq] *)
  normalize_dq : DualQuat → F → DualQuat;
  (** [mul_v3m3_dq(r, R, dq)]: the new [r], and the matrix written to [R]
      when [R] is not null (the boolean) *)
  mul_v3m3_dq : float3 F → bool → DualQuat → float3 F * mat3 F;
  (** [math::normalize_and_get_length(v, out_length)] *)
  normalize_and_get_length : float3 F → float3 F * F;
  (** [invert_m4_m4(inverse, mat)], returning [inverse] *)
  invert_m4_m4 : mat4 F → mat4 F;
}.

(** Bitwise test [(flag & bit) != 0]. *)
Definition flag_test (flag bit : Z) : bool := negb (Z.land flag bit =? 0).

(* ===================================================================== *)
(** ** Data model                                                         *)
(* ===================================================================== *)

Section Kernel.
Context {F : Type} `{FloatArith F} `{DNAConst} `{BlenlibExtern F}.
Local Open Scope float_scope.
Import BLI.

(** [Bone], the fields the deformer reads. *)
Record Bone := {
  arm_head : float3 F;
  arm_tail : float3 F;
  rad_head : F;
  rad_tail : F;
  dist : F;               (* envelope falloff distance *)
  weight : F;             (* envelope contribution weight *)
  segments : Z;
  flag : Z;
}.

(** [bPoseChannel] with the fields of its [runtime] inlined.  The two
    B-Bone arrays are lists; an access past their end is undefined. *)
Record bPoseChannel := {
  name : string;
  bone : option Bone;                      (* [nullptr] is [None] *)
  chan_mat : mat4 F;
  deform_dual_quat : DualQuat;
  bbone_segments : Z;
  bbone_dual_quats : list DualQuat;
  bbone_deform_mats : list (mat4 F);
}.

(** [MDeformWeight]; [def_nr] is an [unsigned int]. *)
Record MDeformWeight := { def_nr : Z; dw_weight : F }.

(** [MDeformVert]: the array [dw] and the [int] count [totweight]. *)
Record MDeformVert := { dw : list MDeformWeight; totweight : Z }.

(** The weights the loop [for (j = dvert->totweight; j != 0; j--, dw++)]
    visits: the first [totweight] entries.  With fewer entries in the
    array (or a negative count, which wraps to a huge [uint]) the loop
    reads past the array. *)
Definition dvert_entries (dv : MDeformVert) : option (list MDeformWeight) :=
  if ((0 <=? totweight dv) && (totweight dv <=? Z.of_nat (length (dw dv))))%Z
  then Some (take (Z.to_nat (totweight dv)) (dw dv))
  else None.

(** The three accumulator pointers [vec] / [co_accum], [dq] / [dq_accum]
    and [smat] / [mat_accum]; a null pointer is [None]. *)
Record Accum := {
  co_accum : option (float3 F);
  dq_accum : option DualQuat;
  mat_accum : option (mat3 F);
}.


Record bPose := { pose_flag : Z; chanbase : list bPoseChannel }.

Record bDeformGroup := { dg_name : string }.

(** [blender::Span<MDeformVert>]: the data pointer ([None] when null) and
    the size. *)
Record Span := { span_data : option (list MDeformVert); span_size : Z }.

(** The empty span [{}]. *)
Definition empty_span : Span := {| span_data := None; span_size := 0 |}.

(** [Mesh]: [deform_verts()] is the span of its deform vertices (empty
    when the mesh has none). *)
Record Mesh := {
  verts_num : Z;
  deform_verts : Span;
  me_vertex_group_names : list bDeformGroup;
}.

Record Lattice := {
  lt_dvert : option (list MDeformVert);
  pntsu : Z; pntsv : Z; pntsw : Z;
  lt_vertex_group_names : list bDeformGroup;
}.

(** [BMVert] with the [MDeformVert] of its custom-data block, when the
    mesh has that layer; [BMEditMesh] with the vertex pool of its [bm] and
    the result of [CustomData_get_offset(&bm->vdata, CD_MDEFORMVERT)]. *)
Record BMVert := { bv_dvert : option MDeformVert }.
Record BMEditMesh := { vpool : list BMVert; vdata_dvert_offset : Z }.

(** [bArmature]: [edbo] is the edit-bone list, non-null in edit mode. *)
Record bArmature := { edbo : bool }.

(** [Object::type] with [Object::data]: the type tag says what the data
    pointer points to ([OB_ARMATURE], [OB_MESH], [OB_LATTICE], any other
    type), so the pair is a tagged union. *)
Inductive ObData :=
| DataArmature (arm : bArmature)
| DataMesh (me : Mesh)
| DataLattice (lt : Lattice)
| DataOther.

Record Object := {
  id_name : string;
  ob_data : ObData;
  pose : option bPose;
  object_to_world : mat4 F;
}.

(** The three vertex buffers a batch works on.  [vert_coords] is written,
    [vert_deform_mats] and [vert_coords_prev] are optional ([None] is a
    null pointer).  In C++ they are pointers held by [ArmatureUserdata];
    here they are the state that the per-vertex task transforms. *)
Record Buffers := {
  vert_coords : list (float3 F);
  vert_deform_mats : option (list (mat3 F));
  vert_coords_prev : option (list (float3 F));
}.

(** [ArmatureUserdata], lines 237-264, without the three buffer pointers. *)
Record ArmatureUserdata := {
  ob_arm : Object;
  me_target : option Mesh;
  use_envelope : bool;
  use_quaternion : bool;
  invert_vgroup : bool;
  use_dverts : bool;
  armature_def_nr : Z;
  dverts : option (list MDeformVert);          (* [dverts.data()] *)
  dverts_len : Z;
  pchan_from_defbase : option (list (option bPoseChannel));
  defbase_len : Z;
  premat : mat4 F;
  postmat : mat4 F;
  cd_dvert_offset : Z;
}.

(** Functions of BKE_armature, BKE_deform, BKE_object and BKE_action that
    the kernel calls and that are not under src/. *)
Class BKEExtern := {
  (** [BKE_pchan_bbone_deform_segment_index(pchan, co, &index, &blend)]:
      the lower segment index and the blend factor towards the next
      segment *)
  BKE_pchan_bbone_deform_segment_index : bPoseChannel → float3 F → Z * F;
  (** [BKE_defvert_find_weight(dvert, defgroup)] *)
  BKE_defvert_find_weight : MDeformVert → Z → F;
  BKE_object_supports_vertex_groups : Object → bool;
  BKE_id_supports_vertex_groups : ObData → bool;
  (** [BKE_id_defgroup_list_get(id)]; [None] is a null list *)
  BKE_id_defgroup_list_get : ObData → option (list bDeformGroup);
  (** [BKE_defgroup_name_index(defbase, name)], [-1] when there is none *)
  BKE_defgroup_name_index : list bDeformGroup → string → Z;
  BKE_pose_channel_find_name : bPose → string → option bPoseChannel;
}.
Context `{BKEExtern}.

(* =================================================================== *)
(** ** Envelope falloff                                                 *)
(* =================================================================== *)

(** [bone_envelope_falloff], lines 49-69. *)
Definition bone_envelope_falloff
    (distance_squared closest_radius falloff_distance : F) : F :=
  if distance_squared <? closest_radius * closest_radius then f_one
  else if (falloff_distance =? f_zero)
          || (distance_squared >=? square (closest_radius + falloff_distance))
  then f_zero
  else
    let dist_envelope := f_sqrt distance_squared - closest_radius in
    f_one - (dist_envelope * dist_envelope) / (falloff_distance * falloff_distance).

(** [distfactor_to_bone], lines 71-104. *)
Definition distfactor_to_bone
    (position head tail : float3 F) (radius_head radius_tail falloff_distance : F) : F :=
  let '(bone_axis, bone_length) := normalize_and_get_length (sub_v3_v3 tail head) in
  let height := dot (sub_v3_v3 position head) bone_axis in
  if height <? f_zero then
    let distance_squared := distance_squared position head in
    bone_envelope_falloff distance_squared radius_head falloff_distance
  else if height >? bone_length then
    let distance_squared := distance_squared tail position in
    bone_envelope_falloff distance_squared radius_tail falloff_distance
  else
    let distance_squared := distance_squared position head - height * height in
    let closest_radius :=
      if negb (bone_length =? f_zero)
      then interpolate radius_head radius_tail (height / bone_length)
      else radius_head in
    bone_envelope_falloff distance_squared closest_radius falloff_distance.

(* =================================================================== *)
(** ** Accumulation of one bone or B-Bone segment                       *)
(* =================================================================== *)

(** [pchan_deform_accumulate], lines 107-139.  [deform_dq] and
    [deform_mat] are pointers into the pose channel; [None] stands for a
    pointer past the end of a B-Bone array, which is only an error when it
    is read. *)
Definition pchan_deform_accumulate
    (deform_dq : option DualQuat) (deform_mat : option (mat4 F))
    (co_in : float3 F) (weight : F) (acc : Accum) (full_deform : bool)
    : option Accum :=
  if weight =? f_zero then Some acc
  else
    match dq_accum acc with
    | Some dq_sum =>
        dq ← deform_dq;
        Some {| co_accum := co_accum acc;
                dq_accum := Some (add_weighted_dq_dq_pivot dq_sum dq co_in weight full_deform);
                mat_accum := mat_accum acc |}
    | None =>
        m ← deform_mat;
        co_sum ← co_accum acc;
        let tmp := mul_v3_m4v3 m co_in in
        let tmp := sub_v3_v3 tmp co_in in
        let co_sum := madd_v3_v3fl co_sum tmp weight in
        if full_deform then
          mat_sum ← mat_accum acc;
          let tmpmat := copy_m3_m4 m in
          Some {| co_accum := Some co_sum;
                  dq_accum := None;
                  mat_accum := Some (madd_m3_m3m3fl mat_sum tmpmat weight) |}
        else
          Some {| co_accum := Some co_sum; dq_accum := None; mat_accum := mat_accum acc |}
    end.

(** [b_bone_deform], lines 141-167. *)
Definition b_bone_deform
    (pchan : bPoseChannel) (co : float3 F) (weight : F) (acc : Accum)
    (full_deform : bool) : option Accum :=
  let quats := bbone_dual_quats pchan in
  let mats := bbone_deform_mats pchan in
  let '(index, blend) := BKE_pchan_bbone_deform_segment_index pchan co in
  acc ← pchan_deform_accumulate
           (lookupZ quats index) (lookupZ mats (index + 1)%Z)
           co (weight * (f_one - blend)) acc full_deform;
  pchan_deform_accumulate
    (lookupZ quats (index + 1)%Z) (lookupZ mats (index + 2)%Z)
    co (weight * blend) acc full_deform.

(** The test [bone->segments > 1 && pchan->runtime.bbone_segments ==
    bone->segments] shared by the two callers below. *)
Definition is_bbone (pchan : bPoseChannel) (b : Bone) : bool :=
  ((1 <? segments b) && (bbone_segments pchan =? segments b))%Z.

(** [dist_bone_deform], lines 169-201: the new accumulators and the
    returned [contrib]. *)
Definition dist_bone_deform
    (pchan : bPoseChannel) (acc : Accum) (co : float3 F) (full_deform : bool)
    : option (Accum * F) :=
  match bone pchan with
  | None => Some (acc, f_zero)
  | Some b =>
      let fac := distfactor_to_bone co (arm_head b) (arm_tail b)
                   (rad_head b) (rad_tail b) (dist b) in
      if fac >? f_zero then
        let fac := fac * weight b in
        let contrib := fac in
        if contrib >? f_zero then
          acc ← (if is_bbone pchan b
                 then b_bone_deform pchan co fac acc full_deform
                 else pchan_deform_accumulate
                        (Some (deform_dual_quat pchan)) (Some (chan_mat pchan))
                        co fac acc full_deform);
          Some (acc, contrib)
        else Some (acc, contrib)
      else Some (acc, f_zero)
  end.

(** [pchan_bone_deform], lines 203-227: the new accumulators and the new
    [*contrib].  [bone->segments] is read without a null check. *)
Definition pchan_bone_deform
    (pchan : bPoseChannel) (weight : F) (acc : Accum) (co : float3 F)
    (full_deform : bool) (contrib : F) : option (Accum * F) :=
  if weight =? f_zero then Some (acc, contrib)
  else
    b ← bone pchan;
    acc ← (if is_bbone pchan b
           then b_bone_deform pchan co weight acc full_deform
           else pchan_deform_accumulate
                  (Some (deform_dual_quat pchan)) (Some (chan_mat pchan))
                  co weight acc full_deform);
    Some (acc, contrib + weight).

(* =================================================================== *)
(** ** Per-vertex driver                                                *)
(* =================================================================== *)

(** Lines 284-316: [armature_weight] and [prevco_weight]. *)
Definition resolve_weights
    (data : ArmatureUserdata) (dvert : option MDeformVert) (has_prev : bool) : F * F :=
  let armature_weight := f_one in
  let prevco_weight := f_zero in
  match dvert with
  | Some dv =>
      if negb (armature_def_nr data =? -1)%Z then
        let armature_weight := BKE_defvert_find_weight dv (armature_def_nr data) in
        let armature_weight :=
          if invert_vgroup data then f_one - armature_weight else armature_weight in
        if has_prev then (f_one, f_one - armature_weight)
        else (armature_weight, prevco_weight)
      else (armature_weight, prevco_weight)
  | None => (armature_weight, prevco_weight)
  end.

(** The accumulators at the start of a vertex, lines 278-300. *)
Definition initial_accum (data : ArmatureUserdata) (full_deform : bool) : Accum :=
  if use_quaternion data then
    {| co_accum := None; dq_accum := Some dq_zero; mat_accum := None |}
  else
    {| co_accum := Some zero_v3; dq_accum := None;
       mat_accum := if full_deform then Some zero_m3 else None |}.

(** The running values of the weight-group loop: accumulators, [contrib]
    and [deformed]. *)
Definition GroupState : Type := Accum * F * bool.

(** One iteration of the weight-group loop, lines 344-363. *)
Definition dvert_step
    (data : ArmatureUserdata) (co : float3 F) (full_deform : bool)
    (w : MDeformWeight) (st : GroupState) : option GroupState :=
  let '(acc, contrib, deformed) := st in
  let index := def_nr w in
  if (index >=? to_uint (defbase_len data))%Z then Some st
  else
    table ← pchan_from_defbase data;
    entry ← lookupZ table index;
    match entry with
    | None => Some st
    | Some pchan =>
        let weight := dw_weight w in
        let weight :=
          match bone pchan with
          | Some b =>
              if flag_test (flag b) BONE_MULT_VG_ENV
              then weight * distfactor_to_bone co (arm_head b) (arm_tail b)
                              (rad_head b) (rad_tail b) (dist b)
              else weight
          | None => weight
          end in
        '(acc, contrib) ← pchan_bone_deform pchan weight acc co full_deform contrib;
        Some (acc, contrib, true)
    end.

(** The weight-group loop, lines 343-364. *)
Fixpoint dvert_loop
    (data : ArmatureUserdata) (co : float3 F) (full_deform : bool)
    (ws : list MDeformWeight) (st : GroupState) : option GroupState :=
  match ws with
  | [] => Some st
  | w :: ws =>
      st ← dvert_step data co full_deform w st;
      dvert_loop data co full_deform ws st
  end.

(** The loop over every pose channel, lines 367-373 and 377-383.
    [pchan->bone->flag] is read without a null check. *)
Fixpoint envelope_loop
    (chans : list bPoseChannel) (co : float3 F) (full_deform : bool)
    (st : Accum * F) : option (Accum * F) :=
  match chans with
  | [] => Some st
  | pchan :: chans =>
      let '(acc, contrib) := st in
      b ← bone pchan;
      st ← (if negb (flag_test (flag b) BONE_NO_DEFORM) then
              '(acc, c) ← dist_bone_deform pchan acc co full_deform;
              Some (acc, contrib + c)
            else Some (acc, contrib));
      envelope_loop chans co full_deform st
  end.

(** [data->ob_arm->pose->chanbase], read without a null check. *)
Definition pose_channels (data : ArmatureUserdata) : option (list bPoseChannel) :=
  p ← pose (ob_arm data); Some (chanbase p).

(** Which branch of lines 339-384 a vertex went through.  This value is
    not in the C++ code; it records the path next to the result. *)
Inductive AccumPath :=
| PathGroups              (* weight groups only, lines 339-364 *)
| PathGroupsEnvelope      (* weight groups, then the loop of lines 366-374 *)
| PathEnvelope            (* the loop of lines 376-384 *)
| PathNone.               (* neither *)

(** Lines 339-384: the accumulation for one vertex at the pre-transformed
    coordinate [co]. *)
Definition vert_accumulate
    (data : ArmatureUserdata) (dvert : option MDeformVert) (co : float3 F)
    (full_deform : bool) : option (Accum * F * AccumPath) :=
  let acc := initial_accum data full_deform in
  let contrib := f_zero in
  let use_groups :=
    match dvert with
    | Some dv => use_dverts data && negb (totweight dv =? 0)%Z
    | None => false
    end in
  match dvert, use_groups with
  | Some dv, true =>
      ws ← dvert_entries dv;
      '(acc, contrib, deformed) ← dvert_loop data co full_deform ws (acc, contrib, false);
      if negb deformed && use_envelope data then
        chans ← pose_channels data;
        '(acc, contrib) ← envelope_loop chans co full_deform (acc, contrib);
        Some (acc, contrib, PathGroupsEnvelope)
      else Some (acc, contrib, PathGroups)
  | _, _ =>
      if use_envelope data then
        chans ← pose_channels data;
        '(acc, contrib) ← envelope_loop chans co full_deform (acc, contrib);
        Some (acc, contrib, PathEnvelope)
      else Some (acc, contrib, PathNone)
  end.

(** Lines 387-422: the accumulated deformation applied to [co], and the
    new value of [vert_deform_mats[i]] when it is written. *)
Definition vert_deform
    (data : ArmatureUserdata) (i : Z) (bufs : Buffers) (full_deform : bool)
    (armature_weight : F) (acc : Accum) (contrib : F) (co : float3 F)
    : option (float3 F * option (mat3 F)) :=
  if contrib >? f_eps then
    '(co', smat) ←
      (if use_quaternion data then
         dq ← dq_accum acc;
         let dq := normalize_dq dq contrib in
         if negb (armature_weight =? f_one) then
           let dco := co in
           let '(dco, summat) := mul_v3m3_dq dco full_deform dq in
           let dco := sub_v3_v3 dco co in
           let dco := mul_v3_fl dco armature_weight in
           Some (add_v3_v3v3 co dco, Some summat)
         else
           let '(co, summat) := mul_v3m3_dq co full_deform dq in
           Some (co, Some summat)
       else
         vec ← co_accum acc;
         let vec := mul_v3_fl vec (armature_weight / contrib) in
         Some (add_v3_v3v3 vec co, mat_accum acc));
    if full_deform then
      let pre := copy_m3_m4 (premat data) in
      let post := copy_m3_m4 (postmat data) in
      mats ← vert_deform_mats bufs;
      tmpmat ← lookupZ mats i;
      smat ← smat;
      let smat :=
        if negb (use_quaternion data)
        then mul_m3_fl smat (armature_weight / contrib) else smat in
      Some (co', Some (mul_m3_series post smat pre tmpmat))
    else Some (co', None)
  else Some (co, None).

(** Lines 424-433 and the effect of the in-place updates through [co]:
    [co] points into [vert_coords_prev] when that buffer is given and into
    [vert_coords] otherwise, so the final [co] lands there; with
    [vert_coords_prev], [vert_coords[i]] becomes the interpolation. *)
Definition vert_write_back
    (i : Z) (bufs : Buffers) (prevco_weight : F) (co : float3 F)
    (new_mat : option (mat3 F)) : option Buffers :=
  let mats :=
    match new_mat, vert_deform_mats bufs with
    | Some m, Some ms => Some (insertZ i m ms)
    | _, ms => ms
    end in
  match vert_coords_prev bufs with
  | Some prev =>
      let mw := f_one - prevco_weight in
      old ← lookupZ (vert_coords bufs) i;
      let new :=
        Float3 (prevco_weight * x3 old + mw * x3 co)
               (prevco_weight * y3 old + mw * y3 co)
               (prevco_weight * z3 old + mw * z3 co) in
      Some {| vert_coords := insertZ i new (vert_coords bufs);
              vert_deform_mats := mats;
              vert_coords_prev := Some (insertZ i co prev) |}
  | None =>
      Some {| vert_coords := insertZ i co (vert_coords bufs);
              vert_deform_mats := mats;
              vert_coords_prev := None |}
  end.

(** Lines 336-433: everything after the early-out, for the working
    coordinate [co] read from the buffer. *)
Definition vert_process
    (data : ArmatureUserdata) (i : Z) (dvert : option MDeformVert) (bufs : Buffers)
    (full_deform : bool) (armature_weight prevco_weight : F) (co : float3 F)
    : option Buffers :=
  let co := mul_m4_v3 (premat data) co in
  '(acc, contrib, _) ← vert_accumulate data dvert co full_deform;
  '(co, new_mat) ← vert_deform data i bufs full_deform armature_weight acc contrib co;
  let co := mul_m4_v3 (postmat data) co in
  vert_write_back i bufs prevco_weight co new_mat.

(** [armature_vert_task_with_dvert], lines 266-434. *)
Definition armature_vert_task_with_dvert
    (data : ArmatureUserdata) (i : Z) (dvert : option MDeformVert) (bufs : Buffers)
    : option Buffers :=
  let full_deform := bool_decide (is_Some (vert_deform_mats bufs)) in
  let has_prev := bool_decide (is_Some (vert_coords_prev bufs)) in
  let '(armature_weight, prevco_weight) := resolve_weights data dvert has_prev in
  match vert_coords_prev bufs with
  | Some prev =>
      if prevco_weight =? f_one then Some bufs
      else
        co ← lookupZ prev i;
        vert_process data i dvert bufs full_deform armature_weight prevco_weight co
  | None =>
      if armature_weight =? f_zero then Some bufs
      else
        co ← lookupZ (vert_coords bufs) i;
        vert_process data i dvert bufs full_deform armature_weight prevco_weight co
  end.

(* =================================================================== *)
(** ** Tasks and the batch driver                                       *)
(* =================================================================== *)

(** [armature_vert_task], lines 436-464.  [dverts + i] past the end of the
    array is a pointer that the callee reads. *)
Definition armature_vert_task
    (data : ArmatureUserdata) (i : Z) (bufs : Buffers) : option Buffers :=
  dvert ←
    (if use_dverts data || negb (armature_def_nr data =? -1)%Z then
       match me_target data, dverts data with
       | Some _, Some l => dv ← lookupZ l i; Some (Some dv)
       | Some _, None => Some None
       | None, Some l =>
           if (i <? dverts_len data)%Z then dv ← lookupZ l i; Some (Some dv)
           else Some None
       | None, None => Some None
       end
     else Some None);
  armature_vert_task_with_dvert data i dvert bufs.

(** [armature_vert_task_editmesh], lines 466-475, for the vertex with
    index [i]. *)
Definition armature_vert_task_editmesh
    (data : ArmatureUserdata) (i : Z) (v : BMVert) (bufs : Buffers) : option Buffers :=
  dv ← bv_dvert v;
  armature_vert_task_with_dvert data i (Some dv) bufs.

(** [armature_vert_task_editmesh_no_dvert], lines 477-484. *)
Definition armature_vert_task_editmesh_no_dvert
    (data : ArmatureUserdata) (i : Z) (v : BMVert) (bufs : Buffers) : option Buffers :=
  armature_vert_task_with_dvert data i None bufs.

(** [BLI_task_parallel_range(start, start + n, ...)]: the task on every
    index of the range.  Each task touches the slots of its own index
    only; the indices are taken in increasing order. *)
Fixpoint task_parallel_range
    (task : Z → Buffers → option Buffers) (start : Z) (n : nat) (bufs : Buffers)
    : option Buffers :=
  match n with
  | O => Some bufs
  | S n =>
      bufs ← task start bufs;
      task_parallel_range task (start + 1)%Z n bufs
  end.

(** [BLI_task_parallel_mempool] over the vertex pool, after
    [BM_mesh_elem_index_ensure]: the index of a vertex is its position. *)
Fixpoint task_parallel_mempool
    (task : Z → BMVert → Buffers → option Buffers) (start : Z) (vs : list BMVert)
    (bufs : Buffers) : option Buffers :=
  match vs with
  | [] => Some bufs
  | v :: vs =>
      bufs ← task start v bufs;
      task_parallel_mempool task (start + 1)%Z vs bufs
  end.

(** What a run prints: the [CLOG_ERROR] of line 515 with the armature's
    name, and a failed [BLI_assert] of the batch code (debug builds). *)
Inductive Event :=
| LogError (armature_name : string)
| AssertFail.

(** Lines 547-555: the entry of [pchan_from_defbase] for one group.
    [bone->flag] of a found channel is read without a null check. *)
Definition defbase_entry (p : bPose) (dg : bDeformGroup) : option (option bPoseChannel) :=
  match BKE_pose_channel_find_name p (dg_name dg) with
  | Some pchan =>
      b ← bone pchan;
      if flag_test (flag b) BONE_NO_DEFORM then Some None else Some (Some pchan)
  | None => Some None
  end.

(** Lines 583-605: the per-vertex task on every vertex of the batch, over
    the vertex pool of an edit mesh or over the index range. *)
Definition run_tasks
    (data : ArmatureUserdata) (em_target : option BMEditMesh) (vert_coords_len : Z)
    (bufs : Buffers) : option Buffers :=
  match em_target with
  | Some em =>
      if use_dverts data
      then task_parallel_mempool (armature_vert_task_editmesh data) 0 (vpool em) bufs
      else task_parallel_mempool (armature_vert_task_editmesh_no_dvert data) 0 (vpool em) bufs
  | None =>
      task_parallel_range (armature_vert_task data) 0 (Z.to_nat vert_coords_len) bufs
  end.

(** Lines 521-610: the batch once the pose is known to exist. *)
Definition deform_batch
    (ob_arm ob_target : Object) (p : bPose) (defbase : option (list bDeformGroup))
    (bufs : Buffers) (vert_coords_len : Z) (deformflag : Z) (defgrp_name : string)
    (dverts : Span) (me_target : option Mesh) (em_target : option BMEditMesh)
    : option Buffers :=
  let use_envelope := flag_test deformflag ARM_DEF_ENVELOPE in
  let use_quaternion := flag_test deformflag ARM_DEF_QUATERNION in
  let invert_vgroup := flag_test deformflag ARM_DEF_INVERT_VGROUP in
  '(armature_def_nr, defbase_len, use_dverts, cd_dvert_offset, pchan_from_defbase) ←
    (if BKE_object_supports_vertex_groups ob_target then
       db ← defbase;
       let armature_def_nr := BKE_defgroup_name_index db defgrp_name in
       let defbase_len := Z.of_nat (length db) in
       if flag_test deformflag ARM_DEF_VGROUP then
         let cd_dvert_offset :=
           match em_target with Some em => vdata_dvert_offset em | None => (-1)%Z end in
         let use_dverts :=
           match em_target, me_target with
           | Some em, _ => negb (cd_dvert_offset =? -1)%Z
           | None, Some me => negb (span_size (deform_verts me) =? 0)%Z
           | None, None => (span_size dverts =? vert_coords_len)%Z
           end in
         if use_dverts then
           table ← mapM (defbase_entry p) db;
           Some (armature_def_nr, defbase_len, true, cd_dvert_offset, Some table)
         else Some (armature_def_nr, defbase_len, false, cd_dvert_offset, None)
       else Some (armature_def_nr, defbase_len, false, (-1)%Z, None)
     else Some ((-1)%Z, 0%Z, false, (-1)%Z, None));
  let obinv := invert_m4_m4 (object_to_world ob_target) in
  let postmat := mul_m4_m4m4 obinv (object_to_world ob_arm) in
  let premat := invert_m4_m4 postmat in
  let data :=
    {| ob_arm := ob_arm; me_target := me_target;
       use_envelope := use_envelope; use_quaternion := use_quaternion;
       invert_vgroup := invert_vgroup; use_dverts := use_dverts;
       armature_def_nr := armature_def_nr;
       dverts := span_data dverts; dverts_len := span_size dverts;
       pchan_from_defbase := pchan_from_defbase; defbase_len := defbase_len;
       premat := premat; postmat := postmat;
       cd_dvert_offset := cd_dvert_offset |} in
  run_tasks data em_target vert_coords_len bufs.

(** [armature_deform_coords_impl], lines 486-610: what is printed, and the
    buffers afterwards.  [ob_arm->data] is cast to [bArmature]; with an
    object of another type the cast pointer is read all the same. *)
Definition armature_deform_coords_impl
    (ob_arm ob_target : Object) (defbase : option (list bDeformGroup))
    (bufs : Buffers) (vert_coords_len : Z) (deformflag : Z) (defgrp_name : string)
    (dverts : Span) (me_target : option Mesh) (em_target : option BMEditMesh)
    : list Event * option Buffers :=
  match ob_data ob_arm with
  | DataArmature arm =>
      match edbo arm, pose ob_arm with
      | true, _ | _, None => ([], Some bufs)
      | false, Some p =>
          let log :=
            if flag_test (pose_flag p) POSE_RECALC
            then [LogError (id_name ob_arm); AssertFail] else [] in
          (log, deform_batch ob_arm ob_target p defbase bufs vert_coords_len
                  deformflag defgrp_name dverts me_target em_target)
      end
  | _ => ([], None)
  end.

(** [BKE_armature_deform_coords_with_curves], lines 612-646.  The length
    is [vert_coords.size()]. *)
Definition BKE_armature_deform_coords_with_curves
    (ob_arm ob_target : Object) (defbase : option (list bDeformGroup))
    (bufs : Buffers) (dverts : Span) (deformflag : Z) (defgrp_name : string)
    : list Event * option Buffers :=
  let size := Z.of_nat (length (vert_coords bufs)) in
  let pre := if (span_size dverts =? size)%Z then [] else [AssertFail] in
  let '(log, r) :=
    armature_deform_coords_impl ob_arm ob_target defbase bufs size deformflag
      defgrp_name dverts None None in
  (pre ++ log, r).

(** [BKE_armature_deform_coords_with_mesh], lines 648-695. *)
Definition BKE_armature_deform_coords_with_mesh
    (ob_arm ob_target : Object) (bufs : Buffers) (vert_coords_len : Z)
    (deformflag : Z) (defgrp_name : string) (me_target : option Mesh)
    : list Event * option Buffers :=
  let id_target := ob_data ob_target in
  let defbase :=
    match me_target with
    | Some me => BKE_id_defgroup_list_get (DataMesh me)
    | None =>
        if BKE_id_supports_vertex_groups id_target
        then BKE_id_defgroup_list_get id_target else None
    end in
  let '(dverts, me_target) :=
    match id_target with
    | DataMesh me0 =>                              (* [type == OB_MESH] *)
        let me := default me0 me_target in
        (deform_verts me, Some me)
    | DataLattice lt =>                            (* [type == OB_LATTICE] *)
        ({| span_data := lt_dvert lt;
            span_size := (pntsu lt * pntsv lt * pntsw lt)%Z |}, me_target)
    | _ => (empty_span, me_target)
    end in
  armature_deform_coords_impl ob_arm ob_target defbase bufs vert_coords_len
    deformflag defgrp_name dverts me_target None.

(** [BKE_armature_deform_coords_with_editmesh], lines 697-720. *)
Definition BKE_armature_deform_coords_with_editmesh
    (ob_arm ob_target : Object) (bufs : Buffers) (vert_coords_len : Z)
    (deformflag : Z) (defgrp_name : string) (em_target : option BMEditMesh)
    : list Event * option Buffers :=
  let defbase := BKE_id_defgroup_list_get (ob_data ob_target) in
  armature_deform_coords_impl ob_arm ob_target defbase bufs vert_coords_len
    deformflag defgrp_name empty_span None em_target.

(* ===================================================================== *)
(** ** Notions used by the properties                                     *)
(* ===================================================================== *)

(** What the [deformed] flag of the weight-group loop records about one
    weight entry: its group index is inside the table and the table holds a
    pose channel for it (the table holds none for a group without a bone or
    with a no-deform bone).  The weight itself plays no part. *)
Definition resolves_to_bone
    (data : ArmatureUserdata) (w : MDeformWeight) : bool :=
  negb (def_nr w >=? to_uint (defbase_len data))%Z &&
  match pchan_from_defbase data with
  | Some table =>
      match lookupZ table (def_nr w) with
      | Some (Some _) => true
      | _ => false
      end
  | None => false
  end.

(** The buffers after vertex [i] went through the driver with nothing
    applied but the two fixed transforms.  [co] is the working coordinate
    read at the start: [vert_coords[i]], or [vert_coords_prev[i]] when that
    buffer is given.  Without previous coordinates, [vert_coords[i]] becomes
    [postmat (premat co)]; with them, that value is stored back in
    [vert_coords_prev[i]] and [vert_coords[i]] becomes its interpolation with
    the old [vert_coords[i]].  The deformation matrices are as before. *)
Definition passthrough_buffers
    (data : ArmatureUserdata) (i : Z) (bufs : Buffers) (prevco_weight : F)
    (co : float3 F) : option Buffers :=
  let co' := mul_m4_v3 (postmat data) (mul_m4_v3 (premat data) co) in
  match vert_coords_prev bufs with
  | None =>
      Some {| vert_coords := insertZ i co' (vert_coords bufs);
              vert_deform_mats := vert_deform_mats bufs;
              vert_coords_prev := None |}
  | Some prev =>
      old ← lookupZ (vert_coords bufs) i;
      let mw := f_one - prevco_weight in
      Some {| vert_coords :=
                insertZ i (Float3 (prevco_weight * x3 old + mw * x3 co')
                                  (prevco_weight * y3 old + mw * y3 co')
                                  (prevco_weight * z3 old + mw * z3 co'))
                        (vert_coords bufs);
              vert_deform_mats := vert_deform_mats bufs;
              vert_coords_prev := Some (insertZ i co' prev) |}
  end.

(** [data] with another armature object. *)
Definition with_arm (data : ArmatureUserdata) (a : Object) : ArmatureUserdata :=
  {| ob_arm := a; me_target := me_target data;
     use_envelope := use_envelope data; use_quaternion := use_quaternion data;
     invert_vgroup := invert_vgroup data; use_dverts := use_dverts data;
     armature_def_nr := armature_def_nr data;
     dverts := dverts data; dverts_len := dverts_len data;
     pchan_from_defbase := pchan_from_defbase data;
     defbase_len := defbase_len data;
     premat := premat data; postmat := postmat data;
     cd_dvert_offset := cd_dvert_offset data |}.

(** The armature object with the flags of its pose replaced. *)
Definition set_pose_flag (ob : Object) (flags : Z) : Object :=
  {| id_name := id_name ob; ob_data := ob_data ob;
     pose := (fun p => {| pose_flag := flags; chanbase := chanbase p |}) <$> pose ob;
     object_to_world := object_to_world ob |}.

(** An armature object in edit mode, or without a pose. *)
Definition not_posable (ob_arm : Object) (arm : bArmature) : Prop :=
  ob_data ob_arm = DataArmature arm ∧ (edbo arm = true ∨ pose ob_arm = None).

(** *** One vertex of the buffers *)

(** What the buffers hold for vertex [j]: its coordinate, its deformation
    matrix and its previous coordinate.  For the two optional buffers the
    outer [None] is an absent buffer; an inner [None] everywhere is an index
    outside the buffer. *)
Record Slot := {
  s_co : option (float3 F);
  s_mat : option (option (mat3 F));
  s_prev : option (option (float3 F));
}.

Definition buffer_slot (b : Buffers) (j : Z) : Slot :=
  {| s_co := lookupZ (vert_coords b) j;
     s_mat := (fun l => lookupZ l j) <$> vert_deform_mats b;
     s_prev := (fun l => lookupZ l j) <$> vert_coords_prev b |}.

(** The lengths of the three buffers, [None] for an absent one. *)
Definition buffer_lengths (b : Buffers) : nat * option nat * option nat :=
  (length (vert_coords b), length <$> vert_deform_mats b,
   length <$> vert_coords_prev b).

(** What one run of the per-vertex task does to its vertex: nothing, or new
    values for the coordinate, possibly the matrix, and the previous
    coordinate when that buffer exists. *)
Inductive Outcome :=
| Skipped
| Written (co : float3 F) (new_mat : option (mat3 F)) (prev : option (float3 F)).

Definition apply_outcome (i : Z) (o : Outcome) (b : Buffers) : Buffers :=
  match o with
  | Skipped => b
  | Written co new_mat prev =>
      {| vert_coords := insertZ i co (vert_coords b);
         vert_deform_mats :=
           match new_mat, vert_deform_mats b with
           | Some m, Some ms => Some (insertZ i m ms)
           | _, ms => ms
           end;
         vert_coords_prev :=
           match prev, vert_coords_prev b with
           | Some p, Some ps => Some (insertZ i p ps)
           | _, ps => ps
           end |}
  end.

(** [vert_deform] with the old matrix of the vertex as an argument. *)
Definition slot_deform
    (data : ArmatureUserdata) (old_mat : option (mat3 F)) (full_deform : bool)
    (armature_weight : F) (acc : Accum) (contrib : F) (co : float3 F)
    : option (float3 F * option (mat3 F)) :=
  if contrib >? f_eps then
    '(co', smat) ←
      (if use_quaternion data then
         dq ← dq_accum acc;
         let dq := normalize_dq dq contrib in
         if negb (armature_weight =? f_one) then
           let dco := co in
           let '(dco, summat) := mul_v3m3_dq dco full_deform dq in
           let dco := sub_v3_v3 dco co in
           let dco := mul_v3_fl dco armature_weight in
           Some (add_v3_v3v3 co dco, Some summat)
         else
           let '(co, summat) := mul_v3m3_dq co full_deform dq in
           Some (co, Some summat)
       else
         vec ← co_accum acc;
         let vec := mul_v3_fl vec (armature_weight / contrib) in
         Some (add_v3_v3v3 vec co, mat_accum acc));
    if full_deform then
      let pre := copy_m3_m4 (premat data) in
      let post := copy_m3_m4 (postmat data) in
      tmpmat ← old_mat;
      smat ← smat;
      let smat :=
        if negb (use_quaternion data)
        then mul_m3_fl smat (armature_weight / contrib) else smat in
      Some (co', Some (mul_m3_series post smat pre tmpmat))
    else Some (co', None)
  else Some (co, None).

(** [armature_vert_task_with_dvert] as a function of the vertex alone. *)
Definition slot_task
    (data : ArmatureUserdata) (dvert : option MDeformVert) (s : Slot)
    : option Outcome :=
  let full_deform := bool_decide (is_Some (s_mat s)) in
  let has_prev := bool_decide (is_Some (s_prev s)) in
  let '(armature_weight, prevco_weight) := resolve_weights data dvert has_prev in
  let process (co : float3 F) : option Outcome :=
    let co := mul_m4_v3 (premat data) co in
    '(acc, contrib, _) ← vert_accumulate data dvert co full_deform;
    '(co, new_mat) ←
      slot_deform data (mjoin (s_mat s)) full_deform armature_weight acc contrib co;
    let co := mul_m4_v3 (postmat data) co in
    match s_prev s with
    | Some _ =>
        let mw := f_one - prevco_weight in
        old ← s_co s;
        Some (Written (Float3 (prevco_weight * x3 old + mw * x3 co)
                              (prevco_weight * y3 old + mw * y3 co)
                              (prevco_weight * z3 old + mw * z3 co))
                      new_mat (Some co))
    | None => Some (Written co new_mat None)
    end in
  match s_prev s with
  | Some prev =>
      if prevco_weight =? f_one then Some Skipped
      else co ← prev; process co
  | None =>
      if armature_weight =? f_zero then Some Skipped
      else co ← s_co s; process co
  end.

(** The vertex group data that [armature_vert_task] hands to the driver for
    index [i], lines 441-461. *)
Definition task_dvert (data : ArmatureUserdata) (i : Z)
    : option (option MDeformVert) :=
  if use_dverts data || negb (armature_def_nr data =? -1)%Z then
    match me_target data, dverts data with
    | Some _, Some l => dv ← lookupZ l i; Some (Some dv)
    | Some _, None => Some None
    | None, Some l =>
        if (i <? dverts_len data)%Z then dv ← lookupZ l i; Some (Some dv)
        else Some None
    | None, None => Some None
    end
  else Some None.

(** The number of vertices a batch visits: the size of the vertex pool of
    an edit mesh, [vert_coords_len] otherwise. *)
Definition batch_count (em_target : option BMEditMesh) (vert_coords_len : Z) : Z :=
  match em_target with
  | Some em => Z.of_nat (length (vpool em))
  | None => Z.max 0 vert_coords_len
  end.

(** *** The shape of the accumulators *)

(** Which of the three accumulator pointers are set. *)
Definition accum_shape (acc : Accum) : bool * bool * bool :=
  (bool_decide (is_Some (co_accum acc)),
   bool_decide (is_Some (dq_accum acc)),
   bool_decide (is_Some (mat_accum acc))).

(** Accumulators that [pchan_deform_accumulate] can add to: the dual
    quaternion, or the vector together with the matrix when the full
    deformation is asked for. *)
Definition accum_ready (fd : bool) (acc : Accum) : Prop :=
  is_Some (dq_accum acc) ∨
  (is_Some (co_accum acc) ∧ (fd = true → is_Some (mat_accum acc))).

(** The accumulators of linear blending without deformation matrices,
    holding the vector [v]. *)
Definition lin (v : float3 F) : Accum :=
  {| co_accum := Some v; dq_accum := None; mat_accum := None |}.

(** Linear accumulators whose vector is still zero. *)
Definition rest_accum (acc : Accum) : Prop :=
  co_accum acc = Some zero_v3 ∧ dq_accum acc = None.

(** *** Inputs that the deformer can read *)

(** A pose channel that the deformer can read: it has a bone, and when it is
    treated as a B-Bone the two segments picked for any coordinate are
    inside its arrays. *)
Definition pchan_ready (pchan : bPoseChannel) : Prop :=
  ∃ b, bone pchan = Some b ∧
       (is_bbone pchan b = true →
        ∀ co : float3 F,
          let index := (BKE_pchan_bbone_deform_segment_index pchan co).1 in
          (0 <= index ∧
           index + 1 < Z.of_nat (length (bbone_dual_quats pchan)) ∧
           index + 2 < Z.of_nat (length (bbone_deform_mats pchan)))%Z).

(** The task data as [armature_deform_coords_impl] sets it up: with vertex
    groups in use there is a table with an entry for every group index below
    [defbase_len], with envelopes in use the armature has a pose, and every
    pose channel in either can be read. *)
Definition data_ready (data : ArmatureUserdata) : Prop :=
  (use_dverts data = true →
   ∃ table, pchan_from_defbase data = Some table ∧
            (to_uint (defbase_len data) <= Z.of_nat (length table))%Z ∧
            ∀ pchan, Some pchan ∈ table → pchan_ready pchan) ∧
  (use_envelope data = true →
   ∃ chans, pose_channels data = Some chans ∧ Forall pchan_ready chans).

(** Vertex group data whose count is within its array and whose group
    indices are unsigned. *)
Definition dvert_ready (dv : MDeformVert) : Prop :=
  (0 <= totweight dv <= Z.of_nat (length (dw dv)))%Z ∧
  Forall (λ w, 0 <= def_nr w)%Z (dw dv).

(** Vertex [i] is inside every buffer that is given. *)
Definition slot_in_range (b : Buffers) (i : Z) : Prop :=
  is_Some (s_co (buffer_slot b i)) ∧
  (∀ m, s_mat (buffer_slot b i) = Some m → is_Some m) ∧
  (∀ p, s_prev (buffer_slot b i) = Some p → is_Some p).

(** The first [n] vertices are inside every buffer that is given. *)
Definition buffers_cover (b : Buffers) (n : Z) : Prop :=
  ∀ i, (0 <= i < n)%Z → slot_in_range b i.

(** A pose whose channels can all be read, those of its list and those
    found by name. *)
Definition pose_ready (p : bPose) : Prop :=
  Forall pchan_ready (chanbase p) ∧
  ∀ n pchan, BKE_pose_channel_find_name p n = Some pchan → pchan_ready pchan.

(** The vertex group array of a batch over the index range [0, n): every
    element is well formed, and the array is as long as the range when a mesh
    is given (the index is then not checked) and as long as the span says
    otherwise. *)
Definition span_ready (dverts : Span) (me_target : option Mesh) (n : Z) : Prop :=
  ∀ l, span_data dverts = Some l →
       Forall dvert_ready l ∧
       match me_target with
       | Some _ => (n <= Z.of_nat (length l))%Z
       | None => (span_size dverts <= Z.of_nat (length l))%Z
       end.

(** The vertices of an edit mesh with a vertex group layer all carry well
    formed vertex group data. *)
Definition pool_ready (em : BMEditMesh) : Prop :=
  vdata_dvert_offset em ≠ (-1)%Z →
  Forall (λ v, ∃ dv, bv_dvert v = Some dv ∧ dvert_ready dv) (vpool em).

(** *** The rest pose and the envelopes *)

(** A pose channel in its rest pose: its deform matrix and those of its
    B-Bone segments are the identity. *)
Definition pchan_at_rest (pchan : bPoseChannel) : Prop :=
  chan_mat pchan = unit_m4 ∧ Forall (λ m, m = unit_m4) (bbone_deform_mats pchan).

(** Every pose channel that a task can reach, through the bone table or
    through the pose, is in its rest pose. *)
Definition data_at_rest (data : ArmatureUserdata) : Prop :=
  (∀ table pchan, pchan_from_defbase data = Some table →
                  Some pchan ∈ table → pchan_at_rest pchan) ∧
  (∀ chans, pose_channels data = Some chans → Forall pchan_at_rest chans).

(** The vertex at [co] gets nothing from the envelope of [pchan]: the bone
    is flagged no-deform, or its envelope factor at [co] is not positive. *)
Definition outside_envelope (pchan : bPoseChannel) (co : float3 F) : Prop :=
  ∃ b, bone pchan = Some b ∧
       (flag_test (flag b) BONE_NO_DEFORM = true ∨
        (distfactor_to_bone co (arm_head b) (arm_tail b)
           (rad_head b) (rad_tail b) (dist b) >? f_zero) = false).

(** *** The terms of linear blending *)

(** The pose channel that a weight entry is bound to: the entry of the bone
    table at its group index, when the index is below [defbase_len] and the
    table holds a channel there. *)
Definition entry_pchan (data : ArmatureUserdata) (w : MDeformWeight) : option bPoseChannel :=
  if (def_nr w >=? to_uint (defbase_len data))%Z then None
  else table ← pchan_from_defbase data; mjoin (lookupZ table (def_nr w)).

(** The weight a bound entry deforms with, lines 352-357: the group weight,
    times the envelope factor for a bone flagged [BONE_MULT_VG_ENV]. *)
Definition entry_weight (co : float3 F) (w : MDeformWeight) (pchan : bPoseChannel) : F :=
  match bone pchan with
  | Some b =>
      if flag_test (flag b) BONE_MULT_VG_ENV
      then dw_weight w * distfactor_to_bone co (arm_head b) (arm_tail b)
                           (rad_head b) (rad_tail b) (dist b)
      else dw_weight w
  | None => dw_weight w
  end.

(** Where a pose channel alone would move [co], as a displacement: its
    deform matrix applied to [co], minus [co]; for a B-Bone the displacements
    of the two segments picked for [co], blended. *)
Definition pchan_displacement (pchan : bPoseChannel) (co : float3 F) : option (float3 F) :=
  b ← bone pchan;
  if is_bbone pchan b then
    let '(index, blend) := BKE_pchan_bbone_deform_segment_index pchan co in
    m1 ← lookupZ (bbone_deform_mats pchan) (index + 1)%Z;
    m2 ← lookupZ (bbone_deform_mats pchan) (index + 2)%Z;
    Some (add_v3_v3v3
            (mul_v3_fl (sub_v3_v3 (mul_v3_m4v3 m1 co) co) (f_one - blend))
            (mul_v3_fl (sub_v3_v3 (mul_v3_m4v3 m2 co) co) blend))
  else Some (sub_v3_v3 (mul_v3_m4v3 (chan_mat pchan) co) co).

(** The weight and the displacement of every bound entry of a vertex. *)
Definition skin_terms (data : ArmatureUserdata) (co : float3 F) (ws : list MDeformWeight)
    : list (F * float3 F) :=
  omap (λ w, pchan ← entry_pchan data w;
             d ← pchan_displacement pchan co;
             Some (entry_weight co w pchan, d)) ws.

Definition total_weight (terms : list (F * float3 F)) : F :=
  foldr (λ t s, t.1 + s) f_zero terms.

Definition total_displacement (terms : list (F * float3 F)) : float3 F :=
  foldr (λ t s, add_v3_v3v3 (mul_v3_fl t.2 t.1) s) zero_v3 terms.

(** *** The terms of the deformation matrix *)

(** The accumulators of linear blending with deformation matrices, holding
    the vector [v] and the matrix [m]. *)
Definition lin_mat (v : float3 F) (m : mat3 F) : Accum :=
  {| co_accum := Some v; dq_accum := None; mat_accum := Some m |}.

(** The sum of two 3x3 matrices, entry by entry. *)
Definition add_m3 (a b : mat3 F) : mat3 F := madd_m3_m3m3fl a b f_one.

(** The linear part of the deform matrix of a pose channel at [co]; for a
    B-Bone the linear parts of the two segments picked for [co], blended. *)
Definition pchan_matrix (pchan : bPoseChannel) (co : float3 F) : option (mat3 F) :=
  b ← bone pchan;
  if is_bbone pchan b then
    let '(index, blend) := BKE_pchan_bbone_deform_segment_index pchan co in
    m1 ← lookupZ (bbone_deform_mats pchan) (index + 1)%Z;
    m2 ← lookupZ (bbone_deform_mats pchan) (index + 2)%Z;
    Some (madd_m3_m3m3fl (mul_m3_fl (copy_m3_m4 m1) (f_one - blend))
                         (copy_m3_m4 m2) blend)
  else Some (copy_m3_m4 (chan_mat pchan)).

(** The weight and the matrix of every bound entry of a vertex. *)
Definition skin_matrix_terms
    (data : ArmatureUserdata) (co : float3 F) (ws : list MDeformWeight)
    : list (F * mat3 F) :=
  omap (λ w, pchan ← entry_pchan data w;
             m ← pchan_matrix pchan co;
             Some (entry_weight co w pchan, m)) ws.

Definition total_matrix (terms : list (F * mat3 F)) : mat3 F :=
  foldr (λ t s, madd_m3_m3m3fl s t.2 t.1) zero_m3 terms.

(** *** Vertex group data that cannot be used *)

(** The batch has no vertex group data that the bone table could be used
    with: an edit mesh without a vertex group layer, a mesh without deform
    vertices, or, with neither, an array whose size is not the vertex
    count. *)
Definition no_usable_dverts
    (dverts : Span) (vert_coords_len : Z) (me_target : option Mesh)
    (em_target : option BMEditMesh) : Prop :=
  match em_target, me_target with
  | Some em, _ => vdata_dvert_offset em = (-1)%Z
  | None, Some me => span_size (deform_verts me) = 0%Z
  | None, None => span_size dverts ≠ vert_coords_len
  end.

(** Two values of [deformflag] that agree on every bit that is read but
    [ARM_DEF_VGROUP]. *)
Definition same_but_vgroup (flags1 flags2 : Z) : Prop :=
  flag_test flags1 ARM_DEF_ENVELOPE = flag_test flags2 ARM_DEF_ENVELOPE ∧
  flag_test flags1 ARM_DEF_QUATERNION = flag_test flags2 ARM_DEF_QUATERNION ∧
  flag_test flags1 ARM_DEF_INVERT_VGROUP = flag_test flags2 ARM_DEF_INVERT_VGROUP.

End Kernel.

(** A 4x4 matrix that maps points to points: its last column is
    (0, 0, 0, 1). *)
Definition affine_m4 (m : mat4 R) : Prop :=
  w4 (m4_0 m) = 0%R ∧ w4 (m4_1 m) = 0%R ∧ w4 (m4_2 m) = 0%R ∧ w4 (m4_3 m) = 1%R.


(* ===================================================================== *)
(** ** An environment to run the kernel in                                *)
(* ===================================================================== *)

(** One implementation of the three interfaces, used to evaluate the kernel
    on concrete inputs.  The properties below are proved for every
    implementation; this one only supplies examples. *)
Module Env.
Section Env.
Context {F : Type} `{FloatArith F}.
Local Open Scope float_scope.
Import BLI.

#[export] Instance dna : DNAConst := {|
  BONE_MULT_VG_ENV := 2 ^ 11;
  BONE_NO_DEFORM := 2 ^ 12;
  POSE_RECALC := 1;
  ARM_DEF_VGROUP := 1;
  ARM_DEF_ENVELOPE := 2;
  ARM_DEF_QUATERNION := 4;
  ARM_DEF_INVERT_VGROUP := 16;
|}.

(** Length and direction of a vector; the null vector when the squared
    length is not positive. *)
Definition normalize (v : float3 F) : float3 F * F :=
  let len_sq := dot v v in
  if len_sq >? f_zero then
    let len := f_sqrt len_sq in
    (Float3 (x3 v / len) (y3 v / len) (z3 v / len), len)
  else (zero_v3, f_zero).

(** The inverse of an affine 4x4 matrix (last column 0, 0, 0, 1) by
    cofactors of its linear part. *)
Definition invert_affine (m : mat4 F) : mat4 F :=
  let a := x4 (m4_0 m) in let b := y4 (m4_0 m) in let c := z4 (m4_0 m) in
  let d := x4 (m4_1 m) in let e := y4 (m4_1 m) in let f := z4 (m4_1 m) in
  let g := x4 (m4_2 m) in let h := y4 (m4_2 m) in let i := z4 (m4_2 m) in
  let tx := x4 (m4_3 m) in let ty := y4 (m4_3 m) in let tz := z4 (m4_3 m) in
  let ca := e * i - f * h in
  let cb := c * h - b * i in
  let cc := b * f - c * e in
  let cd := f * g - d * i in
  let ce := a * i - c * g in
  let cf := c * d - a * f in
  let cg := d * h - e * g in
  let ch := b * g - a * h in
  let ci := a * e - b * d in
  let det := a * ca + b * cd + c * cg in
  let ia := ca / det in let ib := cb / det in let ic := cc / det in
  let id := cd / det in let ie := ce / det in let if_ := cf / det in
  let ig := cg / det in let ih := ch / det in let ii := ci / det in
  Mat4 (Float4 ia ib ic f_zero)
       (Float4 id ie if_ f_zero)
       (Float4 ig ih ii f_zero)
       (Float4 (f_zero - (tx * ia + ty * id + tz * ig))
               (f_zero - (tx * ib + ty * ie + tz * ih))
               (f_zero - (tx * ic + ty * if_ + tz * ii))
               f_one).

(** Dual quaternions are not modelled: the examples run in linear mode. *)
#[export] Instance blenlib : BlenlibExtern F := {|
  DualQuat := unit;
  dq_zero := tt;
  add_weighted_dq_dq_pivot := fun dq_sum _ _ _ _ => dq_sum;
  normalize_dq := fun dq _ => dq;
  mul_v3m3_dq := fun r _ _ => (r, zero_m3);
  normalize_and_get_length := normalize;
  invert_m4_m4 := invert_affine;
|}.

Definition find_weight (dv : MDeformVert) (defgroup : Z) : F :=
  match List.find (fun w => (def_nr w =? defgroup)%Z)
                  (take (Z.to_nat (totweight dv)) (dw dv)) with
  | Some w => dw_weight w
  | None => f_zero
  end.

Fixpoint name_index (defbase : list bDeformGroup) (n : string) (i : Z) : Z :=
  match defbase with
  | [] => (-1)%Z
  | dg :: defbase =>
      if String.eqb (dg_name dg) n then i else name_index defbase n (i + 1)%Z
  end.

Definition supports_vertex_groups (d : @ObData F) : bool :=
  match d with
  | DataMesh _ | DataLattice _ => true
  | _ => false
  end.

Definition defgroup_list (d : @ObData F) : option (list bDeformGroup) :=
  match d with
  | DataMesh me => Some (me_vertex_group_names me)
  | DataLattice lt => Some (lt_vertex_group_names lt)
  | _ => None
  end.

(** The BKE functions, with the B-Bone segment and blend factor returned for
    every vertex as a parameter. *)
Definition bke_with_segment (segment : Z * F) : BKEExtern := {|
  BKE_pchan_bbone_deform_segment_index := fun _ _ => segment;
  BKE_defvert_find_weight := find_weight;
  BKE_object_supports_vertex_groups := fun ob => supports_vertex_groups (ob_data ob);
  BKE_id_supports_vertex_groups := supports_vertex_groups;
  BKE_id_defgroup_list_get := defgroup_list;
  BKE_defgroup_name_index :=
    fun db n => if String.eqb n "" then (-1)%Z else name_index db n 0;
  BKE_pose_channel_find_name :=
    fun p n => List.find (fun pchan => String.eqb (name pchan) n) (chanbase p);
|}.

(** By default a B-Bone vertex sits on the first segment. *)
#[export] Instance bke : BKEExtern := bke_with_segment (0%Z, f_zero).
End Env.
End Env.

(* ===================================================================== *)
(** ** Example data (binary32)                                            *)
(* ===================================================================== *)

Module Ex.
Import Env.

Definition f32 (m e : Z) : spec_float := B32.lit m e.

(** The translation by (x, y, z). *)
Definition translation (x y z : spec_float) : mat4 spec_float :=
  Mat4 (Float4 B32.one B32.zero B32.zero B32.zero)
       (Float4 B32.zero B32.one B32.zero B32.zero)
       (Float4 B32.zero B32.zero B32.one B32.zero)
       (Float4 x y z B32.one).

(** A bone from the origin to (0, 0, 2) with radii 1, falloff distance
    [falloff] and envelope weight 1. *)
Definition bone_z (falloff : spec_float) (nsegments flags : Z) : Bone (F:=spec_float) :=
  {| arm_head := Float3 B32.zero B32.zero B32.zero;
     arm_tail := Float3 B32.zero B32.zero (f32 2 0);
     rad_head := B32.one; rad_tail := B32.one;
     dist := falloff; weight := B32.one;
     segments := nsegments; flag := flags |}.

(** A pose channel that moves its bone by 1 along x. *)
Definition pchan_shift : bPoseChannel (F:=spec_float) :=
  {| name := "Bone"; bone := Some (bone_z B32.zero 1 0);
     chan_mat := translation B32.one B32.zero B32.zero;
     deform_dual_quat := tt; bbone_segments := 0;
     bbone_dual_quats := []; bbone_deform_mats := [] |}.

(** A B-Bone with two segments: the lower one moves by 1 along x, the upper
    one by 1 along y. *)
Definition pchan_bbone : bPoseChannel (F:=spec_float) :=
  {| name := "BBone"; bone := Some (bone_z B32.zero 2 0);
     chan_mat := BLI.unit_m4;
     deform_dual_quat := tt; bbone_segments := 2;
     bbone_dual_quats := [tt; tt; tt];
     bbone_deform_mats :=
       [BLI.unit_m4;
        translation B32.one B32.zero B32.zero;
        translation B32.zero B32.one B32.zero;
        translation B32.zero B32.one B32.zero] |}.

Definition linear_accum : Accum (F:=spec_float) :=
  {| co_accum := Some BLI.zero_v3; dq_accum := None; mat_accum := None |}.

(** The vertex (1/2, 0, 1). *)
Definition vertex_inside : float3 spec_float := Float3 (f32 1 (-1)) B32.zero B32.one.

(** The vertex (3, 0, 1). *)
Definition vertex_outside : float3 spec_float := Float3 (f32 3 0) B32.zero B32.one.

End Ex.

Module ExDriver.
Import Env Ex.

Definition armature (flags : Z) : Object (F:=spec_float) :=
  {| id_name := "OBArmature";
     ob_data := DataArmature {| edbo := false |};
     pose := Some {| pose_flag := flags; chanbase := [pchan_shift] |};
     object_to_world := BLI.unit_m4 |}.

(** Shared data of a batch in linear mode with unit pre/post transforms and
    a one-entry bone table; [def_nr] is the index of the overall group. *)
Definition userdata (envelope groups : bool) (def_nr : Z)
    : ArmatureUserdata (F:=spec_float) :=
  {| ob_arm := armature 0; me_target := None;
     use_envelope := envelope; use_quaternion := false;
     invert_vgroup := false; use_dverts := groups;
     armature_def_nr := def_nr;
     dverts := None; dverts_len := 0;
     pchan_from_defbase := Some [Some pchan_shift]; defbase_len := 1;
     premat := BLI.unit_m4; postmat := BLI.unit_m4;
     cd_dvert_offset := (-1)%Z |}.

Definition entry (nr : Z) (w : spec_float) : MDeformWeight (F:=spec_float) :=
  {| def_nr := nr; dw_weight := w |}.

Definition dvert_of (ws : list MDeformWeight) : MDeformVert (F:=spec_float) :=
  {| dw := ws; totweight := Z.of_nat (length ws) |}.

Definition one_vertex (v : float3 spec_float) (prev : option (float3 spec_float))
    : Buffers (F:=spec_float) :=
  {| vert_coords := [v]; vert_deform_mats := None;
     vert_coords_prev := option_map (fun p => [p]) prev |}.

Definition origin : float3 spec_float := Float3 B32.zero B32.zero B32.zero.
Definition unit_x : float3 spec_float := Float3 B32.one B32.zero B32.zero.
Definition half : spec_float := f32 1 (-1).

End ExDriver.

Module ExBatch.
Import Env Ex ExDriver.

Definition mesh : Mesh (F:=spec_float) :=
  {| verts_num := 1;
     deform_verts := {| span_data := Some [dvert_of [entry 0 B32.one]]; span_size := 1 |};
     me_vertex_group_names := [{| dg_name := "Bone" |}] |}.

Definition target : Object (F:=spec_float) :=
  {| id_name := "OBMesh"; ob_data := DataMesh mesh; pose := None;
     object_to_world := BLI.unit_m4 |}.

(** The example armature in edit mode. *)
Definition armature_edit : Object (F:=spec_float) :=
  {| id_name := "OBArmature";
     ob_data := DataArmature {| edbo := true |};
     pose := pose (armature 0);
     object_to_world := BLI.unit_m4 |}.

(** An armature object that has no pose. *)
Definition armature_no_pose : Object (F:=spec_float) :=
  {| id_name := "OBArmature";
     ob_data := DataArmature {| edbo := false |};
     pose := None;
     object_to_world := BLI.unit_m4 |}.

(** The vertex (1/2, 0, 1) after the bone moved it by 1 along x. *)
Definition moved : float3 spec_float := Float3 (f32 3 (-1)) B32.zero B32.one.

End ExBatch.

Module ExMore.
Import Env Ex ExDriver.

(** The two vertices (1/2, 0, 1) and (3, 0, 1), without optional buffers. *)
Definition two_vertices : Buffers (F:=spec_float) :=
  {| vert_coords := [vertex_inside; vertex_outside];
     vert_deform_mats := None; vert_coords_prev := None |}.

(** The same two vertices after the bone moved the first one. *)
Definition two_vertices_moved : Buffers (F:=spec_float) :=
  {| vert_coords := [ExBatch.moved; vertex_outside];
     vert_deform_mats := None; vert_coords_prev := None |}.

(** A pose channel whose bone is flagged [BONE_NO_DEFORM]. *)
Definition pchan_no_deform : bPoseChannel (F:=spec_float) :=
  {| name := "Helper"; bone := Some (bone_z B32.zero 1 (2 ^ 12));
     chan_mat := translation B32.zero B32.one B32.zero;
     deform_dual_quat := tt; bbone_segments := 0;
     bbone_dual_quats := []; bbone_deform_mats := [] |}.

(** Batch data in linear mode with a three-entry bone table: a plain bone,
    a group without a bone, and a B-Bone. *)
Definition userdata_table : ArmatureUserdata (F:=spec_float) :=
  {| ob_arm := armature 0; me_target := None;
     use_envelope := true; use_quaternion := false;
     invert_vgroup := false; use_dverts := true;
     armature_def_nr := (-1)%Z;
     dverts := None; dverts_len := 0;
     pchan_from_defbase := Some [Some pchan_shift; None; Some pchan_bbone];
     defbase_len := 3;
     premat := BLI.unit_m4; postmat := BLI.unit_m4;
     cd_dvert_offset := (-1)%Z |}.

(** An edit mesh of two vertices with a vertex group layer: the first
    vertex is bound to group 0 with weight 1, the second to nothing. *)
Definition edit_mesh : BMEditMesh (F:=spec_float) :=
  {| vpool := [ {| bv_dvert := Some (dvert_of [entry 0 B32.one]) |};
                {| bv_dvert := Some (dvert_of []) |} ];
     vdata_dvert_offset := 0 |}.

(** Exact arithmetic: the bone from the origin to (0, 0, 2), and a pose
    channel with deform matrix [m] for it. *)
Definition bone_exact (flags : Z) : Bone (F:=R) :=
  {| arm_head := Float3 0%R 0%R 0%R; arm_tail := Float3 0%R 0%R 2%R;
     rad_head := 1%R; rad_tail := 1%R; dist := 0%R; weight := 1%R;
     segments := 1; flag := flags |}.

Definition pchan_exact (flags : Z) (m : mat4 R) : bPoseChannel (F:=R) :=
  {| name := "Bone"; bone := Some (bone_exact flags); chan_mat := m;
     deform_dual_quat := tt; bbone_segments := 0;
     bbone_dual_quats := []; bbone_deform_mats := [] |}.

Definition armature_exact (pchan : bPoseChannel (F:=R)) : Object (F:=R) :=
  {| id_name := "OBArmature";
     ob_data := DataArmature {| edbo := false |};
     pose := Some {| pose_flag := 0; chanbase := [pchan] |};
     object_to_world := BLI.unit_m4 |}.

(** Batch data in exact arithmetic, in linear mode with unit pre/post
    transforms and the one-entry bone table of [pchan]. *)
Definition userdata_exact (envelope groups : bool) (pchan : bPoseChannel (F:=R))
    : ArmatureUserdata (F:=R) :=
  {| ob_arm := armature_exact pchan; me_target := None;
     use_envelope := envelope; use_quaternion := false;
     invert_vgroup := false; use_dverts := groups;
     armature_def_nr := (-1)%Z;
     dverts := None; dverts_len := 0;
     pchan_from_defbase := Some [Some pchan]; defbase_len := 1;
     premat := BLI.unit_m4; postmat := BLI.unit_m4;
     cd_dvert_offset := (-1)%Z |}.

(** The translation by 1 along x. *)
Definition shift_x : mat4 R :=
  (Mat4 (Float4 1 0 0 0) (Float4 0 1 0 0) (Float4 0 0 1 0) (Float4 1 0 0 1))%R.

(** One vertex at (1/2, 0, 1), bound to group 0 with weight 1/2. *)
Definition vertex_exact : float3 R := Float3 (1 / 2)%R 0%R 1%R.

Definition dvert_exact : MDeformVert (F:=R) :=
  {| dw := [ {| def_nr := 0; dw_weight := (1 / 2)%R |} ]; totweight := 1 |}.

Definition one_vertex_exact : Buffers (F:=R) :=
  {| vert_coords := [vertex_exact]; vert_deform_mats := None;
     vert_coords_prev := None |}.

(** The exact one-vertex buffers with a deformation matrix for the vertex,
    the unit matrix. *)
Definition one_vertex_exact_mats : Buffers (F:=R) :=
  {| vert_coords := [vertex_exact];
     vert_deform_mats := Some [BLI.copy_m3_m4 BLI.unit_m4];
     vert_coords_prev := None |}.

(** The vertex (3, 0, 1) in exact arithmetic. *)
Definition one_vertex_far : Buffers (F:=R) :=
  {| vert_coords := [Float3 3 0 1]%R; vert_deform_mats := None;
     vert_coords_prev := None |}.

(** A mesh object in exact arithmetic with one vertex group. *)
Definition target_exact : Object (F:=R) :=
  {| id_name := "OBMesh";
     ob_data := DataMesh {| verts_num := 1; deform_verts := empty_span;
                            me_vertex_group_names := [{| dg_name := "Bone" |}] |};
     pose := None; object_to_world := BLI.unit_m4 |}.

End ExMore.

Import Env.

(* ===================================================================== *)
(** * Properties                                                          *)
(* ===================================================================== *)

(** ** The two scenarios of the design document

    One bone from the origin to (0, 0, 2), radii 1, falloff 0, weight 1, no
    B-Bone segments, linear blending; its pose moves it by 1 along x. *)

(** The vertex (1/2, 0, 1), bound to the bone with group weight 1, ends where
    the pose matrix of the bone takes it. *)
Example scenario_vertex_group :
  BKE_armature_deform_coords_with_mesh (ExDriver.armature 0) ExBatch.target
    (ExDriver.one_vertex Ex.vertex_inside None) 1 ARM_DEF_VGROUP "" (Some ExBatch.mesh)
  = ([], Some (ExDriver.one_vertex
                 (BLI.mul_v3_m4v3 (chan_mat Ex.pchan_shift) Ex.vertex_inside) None)).
Proof. reflexivity. Qed.

(** The vertex (3, 0, 1), outside the envelope, in envelope mode without
    vertex groups, stays where it is. *)
Example scenario_outside_envelope :
  BKE_armature_deform_coords_with_mesh (ExDriver.armature 0) ExBatch.target
    (ExDriver.one_vertex Ex.vertex_outside None) 1 ARM_DEF_ENVELOPE "" (Some ExBatch.mesh)
  = ([], Some (ExDriver.one_vertex Ex.vertex_outside None)).
Proof. reflexivity. Qed.

(** ** Comparisons of the exact instance *)

Lemma Rltb_true (a b : R) : Rltb a b = true ↔ (a < b)%R.
Proof. unfold Rltb. destruct (Rlt_dec a b); split; intros; try easy. Qed.

Lemma Rltb_false (a b : R) : Rltb a b = false ↔ (b <= a)%R.
Proof.
  unfold Rltb. destruct (Rlt_dec a b); split; intros; try easy; lra.
Qed.

Lemma Rleb_true (a b : R) : Rleb a b = true ↔ (a <= b)%R.
Proof. unfold Rleb. destruct (Rle_dec a b); split; intros; try easy. Qed.

Lemma Rleb_false (a b : R) : Rleb a b = false ↔ (b < a)%R.
Proof.
  unfold Rleb. destruct (Rle_dec a b); split; intros; try easy; lra.
Qed.

Lemma Reqb_true (a b : R) : Reqb a b = true ↔ a = b.
Proof. unfold Reqb. destruct (Req_dec_T a b); split; intros; try easy. Qed.

Lemma Reqb_false (a b : R) : Reqb a b = false ↔ a ≠ b.
Proof. unfold Reqb. destruct (Req_dec_T a b); split; intros; try easy. Qed.

(** Turns the boolean tests of the exact instance, once unfolded, into
    order facts on the reals. *)
Ltac exact_tests :=
  repeat match goal with
         | H : Rltb _ _ = true |- _ => apply Rltb_true in H
         | H : Rltb _ _ = false |- _ => apply Rltb_false in H
         | H : Rleb _ _ = true |- _ => apply Rleb_true in H
         | H : Rleb _ _ = false |- _ => apply Rleb_false in H
         | H : Reqb _ _ = true |- _ => apply Reqb_true in H
         | H : Reqb _ _ = false |- _ => apply Reqb_false in H
         end.

(** ** Envelope falloff *)

Section FalloffAnyArithmetic.
Context {F : Type} `{FloatArith F}.
Local Open Scope float_scope.
Import BLI.

(** The three outcomes of [bone_envelope_falloff] in the order the code
    tests them, in any arithmetic (IEEE binary32 included). *)
Lemma bone_envelope_falloff_inside (d2 r f : F) :
  (d2 <? r * r) = true → bone_envelope_falloff d2 r f = f_one.
Proof. intros Hin. unfold bone_envelope_falloff. by rewrite Hin. Qed.

Lemma bone_envelope_falloff_beyond (d2 r f : F) :
  (d2 <? r * r) = false →
  (f =? f_zero) = true ∨ (d2 >=? square (r + f)) = true →
  bone_envelope_falloff d2 r f = f_zero.
Proof.
  intros Hin Hout. unfold bone_envelope_falloff. rewrite Hin.
  destruct Hout as [-> | ->]; [done | by rewrite orb_true_r].
Qed.

Lemma bone_envelope_falloff_between (d2 r f : F) :
  (d2 <? r * r) = false → (f =? f_zero) = false →
  (d2 >=? square (r + f)) = false →
  bone_envelope_falloff d2 r f =
    f_one - ((f_sqrt d2 - r) * (f_sqrt d2 - r)) / (f * f).
Proof.
  intros Hin Hf Hout. unfold bone_envelope_falloff. by rewrite Hin, Hf, Hout.
Qed.
End FalloffAnyArithmetic.

(** In exact arithmetic a radius and a falloff that are not negative order
    the two thresholds, and the square root undoes the squares. *)
Lemma sqrt_between (d2 r f : R) :
  (0 <= r)%R → (r * r <= d2)%R → (d2 < (r + f) * (r + f))%R → (0 <= f)%R →
  (r <= sqrt d2 < r + f)%R.
Proof.
  intros Hr Hlo Hhi Hf. split.
  - rewrite <- (sqrt_square r Hr) at 1. apply sqrt_le_1_alt, Hlo.
  - rewrite <- (sqrt_square (r + f)) by lra.
    apply sqrt_lt_1_alt. split; [nra | exact Hhi].
Qed.

Lemma falloff_quotient_bounds (de f : R) :
  (0 <= de < f)%R → (0 <= de * de / (f * f) < 1)%R.
Proof.
  intros [Hde Hf].
  assert (Hff : (0 < f * f)%R) by nra.
  split.
  - apply Rmult_le_pos; [nra | left; apply Rinv_0_lt_compat, Hff].
  - apply (Rmult_lt_reg_r (f * f)); [exact Hff |].
    unfold Rdiv. rewrite Rmult_assoc, Rinv_l by lra. nra.
Qed.

(** C1.  [bone_envelope_falloff] for a squared distance that is not
    negative: it returns 1 when [d2 < radius²]; failing that, 0 when the
    falloff is exactly zero or [d2 >= (radius + falloff)²]; and otherwise
    [1 - ((sqrt d2 - radius) / falloff)²].  The first part holds in every
    arithmetic, with the last value as the code computes it, the quotient of
    the two squares; the second part reads the code in exact arithmetic,
    where that quotient is the square of the quotient. *)
Theorem bone_envelope_falloff_cases :
  (∀ (F : Type) (A : FloatArith F) (d2 r f : F),
      ((d2 <? r * r)%flt = true → bone_envelope_falloff d2 r f = f_one) ∧
      ((d2 <? r * r)%flt = false →
       (f =? f_zero)%flt = true ∨ (d2 >=? BLI.square (r + f))%flt = true →
       bone_envelope_falloff d2 r f = f_zero) ∧
      ((d2 <? r * r)%flt = false → (f =? f_zero)%flt = false →
       (d2 >=? BLI.square (r + f))%flt = false →
       bone_envelope_falloff d2 r f =
         (f_one - ((f_sqrt d2 - r) * (f_sqrt d2 - r)) / (f * f))%flt)) ∧
  (∀ d2 r f : R,
      (0 <= d2)%R →
      ((d2 < r * r)%R → bone_envelope_falloff d2 r f = 1%R) ∧
      (¬ (d2 < r * r)%R → f = 0%R ∨ (d2 >= (r + f) * (r + f))%R →
       bone_envelope_falloff d2 r f = 0%R) ∧
      (¬ (d2 < r * r)%R → f ≠ 0%R → ¬ (d2 >= (r + f) * (r + f))%R →
       bone_envelope_falloff d2 r f = (1 - ((sqrt d2 - r) / f) ^ 2)%R)).
Proof.
  split.
  - intros F A d2 r f. split; [| split].
    + apply bone_envelope_falloff_inside.
    + apply bone_envelope_falloff_beyond.
    + apply bone_envelope_falloff_between.
  - intros d2 r f _. split; [| split].
    + intros Hin.
      pose proof (bone_envelope_falloff_inside (F:=R) d2 r f) as Hcase.
      apply Hcase. apply Rltb_true. exact Hin.
    + intros Hin Hout.
      pose proof (bone_envelope_falloff_beyond (F:=R) d2 r f) as Hcase.
      apply Hcase.
      * apply Rltb_false. simpl. lra.
      * destruct Hout as [Hf | Hge]; [left; by apply Reqb_true |].
        right. apply Rleb_true. unfold BLI.square. simpl. lra.
    + intros Hin Hf Hout.
      rewrite (bone_envelope_falloff_between (F:=R) d2 r f).
      * simpl. field. exact Hf.
      * apply Rltb_false. simpl. lra.
      * by apply Reqb_false.
      * apply Rleb_false. unfold BLI.square. simpl. lra.
Qed.

(** The three cases of C1 on binary32 inputs (d2 = 1/4, 4, 9/4 around a
    radius 1 with falloff 1) and the third on exact ones. *)
Lemma bone_envelope_falloff_cases_witness :
  bone_envelope_falloff (B32.lit 1 (-2)) B32.one B32.one = B32.one ∧
  bone_envelope_falloff (B32.lit 4 0) B32.one B32.one = B32.zero ∧
  bone_envelope_falloff (B32.lit 9 (-2)) B32.one B32.one = B32.lit 3 (-2) ∧
  bone_envelope_falloff 4%R 1%R 3%R = (1 - ((sqrt 4 - 1) / 3) ^ 2)%R.
Proof.
  destruct bone_envelope_falloff_cases as [Hany Hexact].
  split; [| split; [| split]].
  - destruct (Hany spec_float binary32 (B32.lit 1 (-2)) B32.one B32.one)
      as (Hin & _ & _).
    apply Hin. reflexivity.
  - destruct (Hany spec_float binary32 (B32.lit 4 0) B32.one B32.one)
      as (_ & Hout & _).
    apply Hout; [reflexivity | right; reflexivity].
  - destruct (Hany spec_float binary32 (B32.lit 9 (-2)) B32.one B32.one)
      as (_ & _ & Hmid).
    rewrite Hmid; reflexivity.
  - destruct (Hexact 4%R 1%R 3%R) as (_ & _ & Hmid); [lra |].
    apply Hmid; lra.
Defined.

(** Rounding.  The value between the two thresholds is stated above as the
    code computes it, and in exact arithmetic.  In binary32 every product and
    the quotient are rounded, and two squares that both underflow to zero
    give 0/0: with a radius of about 1e-20 and a falloff distance of about
    1e-25, the point at [d2 = radius * radius] gets NaN. *)
Example bone_envelope_falloff_b32_underflow :
  bone_envelope_falloff
    (f_mul (S754_finite false 12379400 (-90)) (S754_finite false 12379400 (-90)))
    (S754_finite false 12379400 (-90)) (S754_finite false 16225928 (-107))
  = S754_nan.
Proof. reflexivity. Qed.

Section FalloffStep.
Context {F : Type} `{FloatArith F}.
Local Open Scope float_scope.

(** C5.  With a falloff distance that is exactly 0, [bone_envelope_falloff]
    is a step function: 1 for a point strictly inside the core radius
    ([d2 < radius²]) and 0 for every other point; no other value is
    returned.  This holds in every arithmetic. *)
Theorem bone_envelope_falloff_zero_falloff (d2 r f : F) :
  (f =? f_zero) = true →
  ((d2 <? r * r) = true → bone_envelope_falloff d2 r f = f_one) ∧
  ((d2 <? r * r) = false → bone_envelope_falloff d2 r f = f_zero) ∧
  (bone_envelope_falloff d2 r f = f_one ∨ bone_envelope_falloff d2 r f = f_zero).
Proof.
  intros Hf. unfold bone_envelope_falloff. rewrite Hf. simpl.
  destruct (d2 <? r * r); repeat split; auto; discriminate.
Qed.
End FalloffStep.

(** C5 on binary32: radius 1, falloff 0, at d2 = 1/4 (inside), d2 = 1 (on
    the core radius) and d2 = 4 (outside). *)
Lemma bone_envelope_falloff_zero_falloff_witness :
  bone_envelope_falloff (B32.lit 1 (-2)) B32.one B32.zero = B32.one ∧
  bone_envelope_falloff B32.one B32.one B32.zero = B32.zero ∧
  bone_envelope_falloff (B32.lit 4 0) B32.one B32.zero = B32.zero.
Proof.
  split; [| split].
  - destruct (bone_envelope_falloff_zero_falloff
                (B32.lit 1 (-2)) B32.one B32.zero) as (Hin & _ & _);
      [reflexivity |].
    apply Hin. reflexivity.
  - destruct (bone_envelope_falloff_zero_falloff
                B32.one B32.one B32.zero) as (_ & Hout & _);
      [reflexivity |].
    apply Hout. reflexivity.
  - destruct (bone_envelope_falloff_zero_falloff
                (B32.lit 4 0) B32.one B32.zero) as (_ & Hout & _);
      [reflexivity |].
    apply Hout. reflexivity.
Defined.

(** The falloff in exact arithmetic, as a case distinction on the reals. *)
Lemma bone_envelope_falloff_exact (d2 r f : R) :
  bone_envelope_falloff d2 r f =
    if Rlt_dec d2 (r * r) then 1%R
    else if Req_dec_T f 0 then 0%R
    else if Rle_dec ((r + f) * (r + f)) d2 then 0%R
    else (1 - (sqrt d2 - r) * (sqrt d2 - r) / (f * f))%R.
Proof.
  unfold bone_envelope_falloff, BLI.square. simpl.
  unfold Rltb, Reqb, Rleb.
  destruct (Rlt_dec d2 (r * r)); [reflexivity |].
  destruct (Req_dec_T f 0); [reflexivity |].
  destruct (Rle_dec ((r + f) * (r + f)) d2); reflexivity.
Qed.

Lemma bone_envelope_falloff_range (d2 r f : R) :
  (0 <= r)%R → (0 <= f)%R → (0 <= bone_envelope_falloff d2 r f <= 1)%R.
Proof.
  intros Hr Hf. rewrite bone_envelope_falloff_exact.
  destruct (Rlt_dec d2 (r * r)); [lra |].
  destruct (Req_dec_T f 0); [lra |].
  destruct (Rle_dec ((r + f) * (r + f)) d2); [lra |].
  assert (Hs : (r <= sqrt d2 < r + f)%R) by (apply sqrt_between; lra).
  pose proof (falloff_quotient_bounds (sqrt d2 - r) f) as Hq.
  lra.
Qed.

Lemma interpolate_nonneg (a b t : R) :
  (0 <= a)%R → (0 <= b)%R → (0 <= t <= 1)%R → (0 <= BLI.interpolate a b t)%R.
Proof. intros Ha Hb Ht. unfold BLI.interpolate. simpl. nra. Qed.

Lemma distfactor_to_bone_range
    (E : BlenlibExtern R) (position head tail : float3 R) (rh rt f : R) :
  (0 <= rh)%R → (0 <= rt)%R → (0 <= f)%R →
  (0 <= distfactor_to_bone position head tail rh rt f <= 1)%R.
Proof.
  intros Hrh Hrt Hf. unfold distfactor_to_bone.
  destruct (normalize_and_get_length (BLI.sub_v3_v3 tail head))
    as [bone_axis bone_length].
  set (height := BLI.dot (BLI.sub_v3_v3 position head) bone_axis).
  destruct (f_ltb height f_zero) eqn:Hlow;
    [by apply bone_envelope_falloff_range |].
  destruct (f_ltb bone_length height) eqn:Hhigh;
    [by apply bone_envelope_falloff_range |].
  apply bone_envelope_falloff_range; [| exact Hf].
  destruct (f_eqb bone_length f_zero) eqn:Hlen; simpl; [exact Hrh |].
  simpl in Hlow, Hhigh, Hlen. exact_tests.
  apply interpolate_nonneg; [exact Hrh | exact Hrt |].
  simpl. assert (Hpos : (0 < bone_length)%R) by lra.
  split.
  - apply Rmult_le_pos; [lra | left; by apply Rinv_0_lt_compat].
  - apply (Rmult_le_reg_r bone_length); [exact Hpos |].
    unfold Rdiv. rewrite Rmult_assoc, Rinv_l by lra. lra.
Qed.




(** ** B-Bone segments *)

Section BBoneAnyArithmetic.
Context {F : Type} {A : FloatArith F} {E : BlenlibExtern F} {K : BKEExtern (F:=F)}.
Local Open Scope float_scope.

(** When the weight of the upper segment is zero, only the lower segment is
    accumulated, and conversely. *)
Lemma b_bone_deform_lower_only
    (pchan : bPoseChannel) (co : float3 F) (w : F) (acc : Accum) (fd : bool)
    (index : Z) (blend : F) :
  BKE_pchan_bbone_deform_segment_index pchan co = (index, blend) →
  (w * blend =? f_zero) = true →
  b_bone_deform pchan co w acc fd =
    pchan_deform_accumulate
      (lookupZ (bbone_dual_quats pchan) index)
      (lookupZ (bbone_deform_mats pchan) (index + 1)%Z)
      co (w * (f_one - blend)) acc fd.
Proof.
  intros Hseg Hzero. unfold b_bone_deform. rewrite Hseg.
  destruct (pchan_deform_accumulate _ _ co (w * (f_one - blend)) acc fd)
    as [acc' |]; [| reflexivity].
  simpl. unfold pchan_deform_accumulate. by rewrite Hzero.
Qed.

Lemma b_bone_deform_upper_only
    (pchan : bPoseChannel) (co : float3 F) (w : F) (acc : Accum) (fd : bool)
    (index : Z) (blend : F) :
  BKE_pchan_bbone_deform_segment_index pchan co = (index, blend) →
  (w * (f_one - blend) =? f_zero) = true →
  b_bone_deform pchan co w acc fd =
    pchan_deform_accumulate
      (lookupZ (bbone_dual_quats pchan) (index + 1)%Z)
      (lookupZ (bbone_deform_mats pchan) (index + 2)%Z)
      co (w * blend) acc fd.
Proof.
  intros Hseg Hzero. unfold b_bone_deform. rewrite Hseg.
  assert (Hfirst :
    pchan_deform_accumulate
      (lookupZ (bbone_dual_quats pchan) index)
      (lookupZ (bbone_deform_mats pchan) (index + 1)%Z)
      co (w * (f_one - blend)) acc fd = Some acc)
    by (unfold pchan_deform_accumulate; by rewrite Hzero).
  by rewrite Hfirst.
Qed.
End BBoneAnyArithmetic.

(** *** binary32: multiplication by 1 and by 0 *)

Module B32Facts.

Lemma mul_one_r_finite (s : bool) (m : positive) (e : Z) :
  bounded B32.prec B32.emax m e = true →
  SFmul B32.prec B32.emax (S754_finite s m e) B32.one = S754_finite s m e.
Proof.
  intros Hb. unfold bounded, canonical_mantissa in Hb.
  apply andb_true_iff in Hb. destruct Hb as [Hc He].
  apply Z.eqb_eq in Hc.
  change (fexp B32.prec B32.emax (Z.pos (digits2_pos m) + e) = e) in Hc.
  change ((e <=? B32.emax - B32.prec) = true) in He.
  unfold SFmul, B32.one. rewrite xorb_false_r, Pos.mul_comm.
  unfold binary_round_aux, shr_fexp.
  change (8388608 * m)%positive
    with (m~0~0~0~0~0~0~0~0~0~0~0~0~0~0~0~0~0~0~0~0~0~0~0)%positive.
  set (M := (m~0~0~0~0~0~0~0~0~0~0~0~0~0~0~0~0~0~0~0~0~0~0~0)%positive).
  assert (HdM : Z.pos (digits2_pos M) = Z.pos (digits2_pos m) + 23)
    by (unfold M; cbn [digits2_pos]; lia).
  match goal with
  | |- context [shr (shr_record_of_loc (Z.pos M) loc_Exact) ?e0 ?n0] =>
      assert (Hn : n0 = 23);
      [ change (fexp B32.prec B32.emax (Z.pos (digits2_pos M) + (e + -23))
                - (e + -23) = 23);
        rewrite HdM;
        replace (Z.pos (digits2_pos m) + 23 + (e + -23))
          with (Z.pos (digits2_pos m) + e) by lia;
        rewrite Hc; lia
      | rewrite Hn ]
  end.
  unfold M.
  cbn [shr shr_record_of_loc iter_pos shr_1 orb shr_m loc_of_shr_record
       round_nearest_even Zdigits2].
  match goal with
  | |- context [shr ?r0 ?e0 ?n0] =>
      assert (He0 : e0 = e) by (change (e + -23 + 23 = e); lia);
      rewrite He0
  end.
  match goal with
  | |- context [shr ?r0 e ?n0] =>
      assert (Hn0 : n0 = 0);
      [ change (fexp B32.prec B32.emax (Z.pos (digits2_pos m) + e) - e = 0);
        rewrite Hc; lia
      | rewrite Hn0 ]
  end.
  cbn [shr shr_m]. 
  match goal with
  | |- context [if ?c then _ else _] => change c with (e <=? B32.emax - B32.prec)
  end.
  rewrite He. reflexivity.
Qed.

Lemma mul_one_r (w : spec_float) :
  B32.finite w = true → f_mul w B32.one = w.
Proof.
  destruct w as [s | s | | s m e]; simpl; try discriminate.
  - intros _. by rewrite xorb_false_r.
  - apply mul_one_r_finite.
Qed.

Lemma mul_zero_r (w : spec_float) (s : bool) :
  B32.finite w = true → f_eqb (f_mul w (S754_zero s)) B32.zero = true.
Proof. destruct w; simpl; try discriminate; reflexivity. Qed.

Lemma eqb_zero (x : spec_float) :
  f_eqb x B32.zero = true → ∃ s, x = S754_zero s.
Proof.
  destruct x as [s | s | | s m e]; simpl; try discriminate.
  - intros _. by exists s.
  - destruct s; discriminate.
  - destruct s; discriminate.
Qed.

Lemma eqb_one (x : spec_float) :
  f_eqb x B32.one = true → x = B32.one.
Proof.
  destruct x as [s | s | | s m e]; simpl; try discriminate.
  - destruct s; discriminate.
  - unfold SFeqb, SFcompare, B32.one. destruct s; [discriminate |].
    change (match (e ?= -23)%Z with
            | Eq => Pos.compare_cont Eq m 8388608 | Lt => Lt | Gt => Gt end)
      with (match (e ?= -23)%Z with
            | Eq => (m ?= 8388608)%positive | Lt => Lt | Gt => Gt end).
    destruct (Z.compare_spec e (-23)) as [-> | Hlt | Hgt]; try discriminate.
    destruct (Pos.compare_spec m 8388608) as [-> | Hlt | Hgt]; try discriminate.
    reflexivity.
Qed.

End B32Facts.

(** C7.  A B-Bone deformation whose segment blend factor is exactly 0 or
    exactly 1 accumulates one segment only, at the full weight of the bone:
    the result of [b_bone_deform] is that of [pchan_deform_accumulate], the
    accumulation a non-segmented bone goes through, on the dual quaternion
    and matrix of the lower segment (blend 0) or of the upper one (blend 1);
    the other segment is not read.  Proved in exact arithmetic for every
    weight, and in binary32 for every finite weight. *)
Theorem b_bone_deform_blend_0_or_1 :
  (∀ (E : BlenlibExtern R) (K : BKEExtern (F:=R))
     (pchan : bPoseChannel) (co : float3 R) (w : R) (acc : Accum) (fd : bool)
     (index : Z) (blend : R),
      BKE_pchan_bbone_deform_segment_index pchan co = (index, blend) →
      (blend = 0%R →
       b_bone_deform pchan co w acc fd =
         pchan_deform_accumulate
           (lookupZ (bbone_dual_quats pchan) index)
           (lookupZ (bbone_deform_mats pchan) (index + 1)) co w acc fd) ∧
      (blend = 1%R →
       b_bone_deform pchan co w acc fd =
         pchan_deform_accumulate
           (lookupZ (bbone_dual_quats pchan) (index + 1))
           (lookupZ (bbone_deform_mats pchan) (index + 2)) co w acc fd)) ∧
  (∀ (E : BlenlibExtern spec_float) (K : BKEExtern (F:=spec_float))
     (pchan : bPoseChannel) (co : float3 spec_float) (w : spec_float)
     (acc : Accum) (fd : bool) (index : Z) (blend : spec_float),
      B32.finite w = true →
      BKE_pchan_bbone_deform_segment_index pchan co = (index, blend) →
      (f_eqb blend f_zero = true →
       b_bone_deform pchan co w acc fd =
         pchan_deform_accumulate
           (lookupZ (bbone_dual_quats pchan) index)
           (lookupZ (bbone_deform_mats pchan) (index + 1)) co w acc fd) ∧
      (f_eqb blend f_one = true →
       b_bone_deform pchan co w acc fd =
         pchan_deform_accumulate
           (lookupZ (bbone_dual_quats pchan) (index + 1))
           (lookupZ (bbone_deform_mats pchan) (index + 2)) co w acc fd)).
Proof.
  split.
  - intros E K pchan co w acc fd index blend Hseg. split; intros ->.
    + rewrite (b_bone_deform_lower_only pchan co w acc fd index 0%R Hseg).
      * simpl. by replace (w * (1 - 0))%R with w by ring.
      * apply Reqb_true. simpl. ring.
    + rewrite (b_bone_deform_upper_only pchan co w acc fd index 1%R Hseg).
      * simpl. by replace (w * 1)%R with w by ring.
      * apply Reqb_true. simpl. ring.
  - intros E K pchan co w acc fd index blend Hw Hseg. split; intros Hblend.
    + apply B32Facts.eqb_zero in Hblend. destruct Hblend as [s ->].
      rewrite (b_bone_deform_lower_only pchan co w acc fd index _ Hseg).
      * change (f_one - S754_zero s)%flt with B32.one.
        by rewrite B32Facts.mul_one_r.
      * by apply B32Facts.mul_zero_r.
    + apply B32Facts.eqb_one in Hblend. subst blend.
      rewrite (b_bone_deform_upper_only pchan co w acc fd index _ Hseg).
      * by rewrite B32Facts.mul_one_r.
      * change (f_one - B32.one)%flt with (S754_zero false).
        by apply B32Facts.mul_zero_r.
Qed.

(** C7 on the two-segment B-Bone of the examples, weight 1/2: with blend 0
    the vertex accumulates half of the lower segment's shift, with blend 1
    half of the upper segment's. *)
Lemma b_bone_deform_blend_0_or_1_witness :
  @b_bone_deform _ _ _ (Env.bke_with_segment (0, B32.zero))
     Ex.pchan_bbone Ex.vertex_inside (Ex.f32 1 (-1)) Ex.linear_accum false
  = Some {| co_accum := Some (Float3 (Ex.f32 1 (-1)) B32.zero B32.zero);
            dq_accum := None; mat_accum := None |} ∧
  @b_bone_deform _ _ _ (Env.bke_with_segment (0, B32.one))
     Ex.pchan_bbone Ex.vertex_inside (Ex.f32 1 (-1)) Ex.linear_accum false
  = Some {| co_accum := Some (Float3 B32.zero (Ex.f32 1 (-1)) B32.zero);
            dq_accum := None; mat_accum := None |}.
Proof.
  destruct b_bone_deform_blend_0_or_1 as [_ Hb32].
  split.
  - destruct (Hb32 Env.blenlib (Env.bke_with_segment (0, B32.zero))
                Ex.pchan_bbone Ex.vertex_inside (Ex.f32 1 (-1))
                Ex.linear_accum false 0 B32.zero) as [Hlow _];
      [reflexivity | reflexivity |].
    rewrite Hlow; reflexivity.
  - destruct (Hb32 Env.blenlib (Env.bke_with_segment (0, B32.one))
                Ex.pchan_bbone Ex.vertex_inside (Ex.f32 1 (-1))
                Ex.linear_accum false 0 B32.one) as [_ Hhigh];
      [reflexivity | reflexivity |].
    rewrite Hhigh; reflexivity.
Defined.

(** ** The per-vertex driver *)

Section DriverAnyArithmetic.
Context {F : Type} {A : FloatArith F} {C : DNAConst} {E : BlenlibExtern F}
        {K : BKEExtern (F:=F)}.
Local Open Scope float_scope.
Import BLI.

(** C4.  A vertex whose effective working weight is zero is skipped
    entirely.  Without a previous-coordinates buffer that is a resolved
    armature weight equal to 0; with such a buffer it is a previous-coordinate
    weight equal to 1.  The task then returns the three buffers as they
    were: the vertex's position, its slot in the deformation-matrix buffer
    and the previous coordinates are unchanged, and nothing of the vertex is
    read (the index need not even be in range), so neither the accumulation
    nor the pre/post transforms took place. *)
Theorem armature_vert_task_with_dvert_skip
    (data : ArmatureUserdata) (i : Z) (dvert : option MDeformVert) (bufs : Buffers)
    (armature_weight prevco_weight : F) :
  resolve_weights data dvert (bool_decide (is_Some (vert_coords_prev bufs)))
    = (armature_weight, prevco_weight) →
  (vert_coords_prev bufs = None ∧ (armature_weight =? f_zero) = true) ∨
  (is_Some (vert_coords_prev bufs) ∧ (prevco_weight =? f_one) = true) →
  armature_vert_task_with_dvert data i dvert bufs = Some bufs.
Proof.
  intros Hw Hzero. unfold armature_vert_task_with_dvert. rewrite Hw.
  destruct Hzero as [[Hprev Haw] | [[prev Hprev] Hpw]]; rewrite Hprev.
  - by rewrite Haw.
  - by rewrite Hpw.
Qed.

(** A weight entry whose group index is not below the table length leaves
    the running state of the weight-group loop as it is. *)
Lemma dvert_step_out_of_range
    (data : ArmatureUserdata) (co : float3 F) (fd : bool)
    (w : MDeformWeight) (st : GroupState) :
  (to_uint (defbase_len data) <= def_nr w)%Z →
  dvert_step data co fd w st = Some st.
Proof.
  intros Hrange. unfold dvert_step. destruct st as [[acc contrib] deformed].
  destruct (def_nr w >=? to_uint (defbase_len data))%Z eqn:Hge; [done | lia].
Qed.

Lemma dvert_loop_app
    (data : ArmatureUserdata) (co : float3 F) (fd : bool)
    (ws1 ws2 : list MDeformWeight) (st : GroupState) :
  dvert_loop data co fd (ws1 ++ ws2) st =
    dvert_loop data co fd ws1 st ≫= dvert_loop data co fd ws2.
Proof.
  revert st. induction ws1 as [| w ws1 IH]; intros st; simpl; [done |].
  destruct (dvert_step data co fd w st) as [st' |]; simpl; [apply IH | done].
Qed.

(** C8.  A weight entry whose bone index is outside the bone table (index
    not below the table length [defbase_len]) is skipped: one iteration on
    it returns the running accumulators, contribution and [deformed] flag
    unchanged, without failing; and the whole loop over a vertex's entries
    gives the same result as the loop over the entries with that one
    removed, wherever it stands among them. *)
Theorem dvert_loop_skips_out_of_range
    (data : ArmatureUserdata) (co : float3 F) (fd : bool)
    (w : MDeformWeight) (before after : list MDeformWeight) (st : GroupState) :
  (to_uint (defbase_len data) <= def_nr w)%Z →
  dvert_step data co fd w st = Some st ∧
  dvert_loop data co fd (before ++ w :: after) st =
    dvert_loop data co fd (before ++ after) st.
Proof.
  intros Hrange. split; [by apply dvert_step_out_of_range |].
  rewrite !dvert_loop_app.
  destruct (dvert_loop data co fd before st) as [st' |]; simpl; [| done].
  by rewrite dvert_step_out_of_range.
Qed.

End DriverAnyArithmetic.

Section DriverPaths.
Context {F : Type} {A : FloatArith F} {C : DNAConst} {E : BlenlibExtern F}
        {K : BKEExtern (F:=F)}.
Local Open Scope float_scope.
Import BLI.

Lemma dvert_step_deformed
    (data : ArmatureUserdata) (co : float3 F) (fd : bool) (w : MDeformWeight)
    (acc acc' : Accum) (c c' : F) (d d' : bool) :
  dvert_step data co fd w (acc, c, d) = Some (acc', c', d') →
  d' = d || resolves_to_bone data w.
Proof.
  unfold dvert_step, resolves_to_bone.
  destruct (def_nr w >=? to_uint (defbase_len data))%Z; simpl.
  { intros Heq; injection Heq as <- <- <-. by rewrite orb_false_r. }
  destruct (pchan_from_defbase data) as [table |]; simpl; [| discriminate].
  destruct (lookupZ table (def_nr w)) as [[pchan |] |]; simpl; try discriminate.
  - destruct (pchan_bone_deform pchan _ acc co fd c) as [[acc2 c2] |];
      simpl; [| discriminate].
    intros Heq; injection Heq as <- <- <-. by rewrite orb_true_r.
  - intros Heq; injection Heq as <- <- <-. by rewrite orb_false_r.
Qed.

Lemma dvert_loop_deformed
    (data : ArmatureUserdata) (co : float3 F) (fd : bool) (ws : list MDeformWeight)
    (acc acc' : Accum) (c c' : F) (d d' : bool) :
  dvert_loop data co fd ws (acc, c, d) = Some (acc', c', d') →
  d' = d || existsb (resolves_to_bone data) ws.
Proof.
  revert acc c d.
  induction ws as [| w ws IH]; intros acc c d; cbn [dvert_loop existsb].
  - intros Heq; injection Heq as <- <- <-. by rewrite orb_false_r.
  - destruct (dvert_step data co fd w (acc, c, d)) as [[[acc1 c1] d1] |] eqn:Hstep;
      simpl; [| discriminate].
    intros Hloop. apply IH in Hloop. apply dvert_step_deformed in Hstep.
    subst. by rewrite orb_assoc.
Qed.

(** C3, amended.  For a vertex whose vertex-group weights are present and
    enabled, the whole-armature envelope fallback runs if and only if
    envelope mode is enabled and no weight entry of the vertex resolves to
    a deforming pose channel; when some entry does, the fallback is not
    entered even with envelope mode enabled, and the accumulators and the
    contribution are exactly those the weight-group loop left. *)
Theorem envelope_fallback_iff
    (data : ArmatureUserdata) (dv : MDeformVert) (ws : list MDeformWeight)
    (co : float3 F) (fd : bool) (acc : Accum) (contrib : F) (path : AccumPath) :
  use_dverts data = true → totweight dv ≠ 0%Z →
  dvert_entries dv = Some ws →
  vert_accumulate data (Some dv) co fd = Some (acc, contrib, path) →
  (path = PathGroupsEnvelope ↔
     use_envelope data = true ∧ existsb (resolves_to_bone data) ws = false) ∧
  (existsb (resolves_to_bone data) ws = true →
     path = PathGroups ∧
     dvert_loop data co fd ws (initial_accum data fd, f_zero, false)
       = Some (acc, contrib, true)).
Proof.
  intros Hdv Htot Hws. unfold vert_accumulate. rewrite Hdv, Hws.
  apply Z.eqb_neq in Htot. rewrite Htot. simpl.
  destruct (dvert_loop data co fd ws (initial_accum data fd, f_zero, false))
    as [[[acc1 c1] d1] |] eqn:Hloop; simpl; [| discriminate].
  apply dvert_loop_deformed in Hloop as Hd. simpl in Hd. subst d1.
  destruct (existsb (resolves_to_bone data) ws); simpl.
  - intros Heq; injection Heq as <- <- <-. split; [| done].
    split; [discriminate | intros [_ ?]; discriminate].
  - destruct (use_envelope data); simpl.
    + destruct (pose_channels data) as [chans |]; simpl; [| discriminate].
      destruct (envelope_loop chans co fd (acc1, c1)) as [[acc2 c2] |];
        simpl; [| discriminate].
      intros Heq; injection Heq as <- <- <-. split; [done | discriminate].
    + intros Heq; injection Heq as <- <- <-. split; [| discriminate].
      split; [discriminate | intros [? _]; discriminate].
Qed.

(** With a contribution that is not above the threshold, nothing is applied
    to the coordinate and no deformation matrix is produced. *)
Lemma vert_deform_below_threshold
    (data : ArmatureUserdata) (i : Z) (bufs : Buffers) (fd : bool)
    (aw : F) (acc : Accum) (contrib : F) (co : float3 F) :
  (contrib >? f_eps) = false →
  vert_deform data i bufs fd aw acc contrib co = Some (co, None).
Proof. intros Hc. unfold vert_deform. by rewrite Hc. Qed.

(** The driver on a vertex that is processed (not skipped) and whose
    contribution is not above the threshold. *)
Lemma armature_vert_task_with_dvert_passthrough
    (data : ArmatureUserdata) (i : Z) (dvert : option MDeformVert) (bufs : Buffers)
    (armature_weight prevco_weight : F) (co : float3 F)
    (acc : Accum) (contrib : F) (path : AccumPath) :
  resolve_weights data dvert (bool_decide (is_Some (vert_coords_prev bufs)))
    = (armature_weight, prevco_weight) →
  match vert_coords_prev bufs with
  | Some prev => (prevco_weight =? f_one) = false ∧ lookupZ prev i = Some co
  | None => (armature_weight =? f_zero) = false ∧ lookupZ (vert_coords bufs) i = Some co
  end →
  vert_accumulate data dvert (mul_m4_v3 (premat data) co)
    (bool_decide (is_Some (vert_deform_mats bufs))) = Some (acc, contrib, path) →
  (contrib >? f_eps) = false →
  armature_vert_task_with_dvert data i dvert bufs =
    passthrough_buffers data i bufs prevco_weight co.
Proof.
  intros Hw Hco Hacc Hc. unfold armature_vert_task_with_dvert, passthrough_buffers.
  rewrite Hw.
  set (fd := bool_decide (is_Some (vert_deform_mats bufs))) in *.
  set (co' := mul_m4_v3 (postmat data) (mul_m4_v3 (premat data) co)).
  assert (Hproc :
    vert_process data i dvert bufs fd armature_weight prevco_weight co =
    vert_write_back i bufs prevco_weight co' None).
  { unfold vert_process. rewrite Hacc. simpl.
    rewrite vert_deform_below_threshold by exact Hc. reflexivity. }
  destruct (vert_coords_prev bufs) as [prev |] eqn:Hprev;
    destruct Hco as [Htest Hlook]; rewrite Htest, Hlook; simpl;
    rewrite Hproc; unfold vert_write_back; rewrite Hprev;
    destruct (vert_deform_mats bufs); reflexivity.
Qed.

End DriverPaths.

(** ** The fixed transform pair *)

(** In exact arithmetic, applying [premat] and then [postmat] gives the
    point back when [premat] is an inverse of [postmat]. *)
Lemma pre_post_round_trip (premat postmat : mat4 R) (co : float3 R) :
  affine_m4 premat →
  BLI.mul_m4_m4m4 postmat premat = BLI.unit_m4 →
  BLI.mul_m4_v3 postmat (BLI.mul_m4_v3 premat co) = co.
Proof.
  destruct premat as [[a0 b0 c0 d0] [a1 b1 c1 d1] [a2 b2 c2 d2] [a3 b3 c3 d3]].
  destruct postmat as [[p0 q0 r0 s0] [p1 q1 r1 s1] [p2 q2 r2 s2] [p3 q3 r3 s3]].
  destruct co as [x y z].
  unfold affine_m4. simpl. intros (-> & -> & -> & ->).
  unfold BLI.mul_m4_m4m4, BLI.unit_m4, BLI.mul_m4_v3, BLI.mul_v3_m4v3. simpl.
  intros Hinv.
  injection Hinv as H00 H01 H02 H03 H10 H11 H12 H13 H20 H21 H22 H23 H30 H31 H32 H33.
  f_equal.
  - transitivity (x * (a0 * p0 + b0 * p1 + c0 * p2 + 0 * p3)
                  + y * (a1 * p0 + b1 * p1 + c1 * p2 + 0 * p3)
                  + z * (a2 * p0 + b2 * p1 + c2 * p2 + 0 * p3)
                  + (a3 * p0 + b3 * p1 + c3 * p2 + 1 * p3))%R; [ring |].
    rewrite H00, H10, H20, H30. ring.
  - transitivity (x * (a0 * q0 + b0 * q1 + c0 * q2 + 0 * q3)
                  + y * (a1 * q0 + b1 * q1 + c1 * q2 + 0 * q3)
                  + z * (a2 * q0 + b2 * q1 + c2 * q2 + 0 * q3)
                  + (a3 * q0 + b3 * q1 + c3 * q2 + 1 * q3))%R; [ring |].
    rewrite H01, H11, H21, H31. ring.
  - transitivity (x * (a0 * r0 + b0 * r1 + c0 * r2 + 0 * r3)
                  + y * (a1 * r0 + b1 * r1 + c1 * r2 + 0 * r3)
                  + z * (a2 * r0 + b2 * r1 + c2 * r2 + 0 * r3)
                  + (a3 * r0 + b3 * r1 + c3 * r2 + 1 * r3))%R; [ring |].
    rewrite H02, H12, H22, H32. ring.
Qed.


(** C4 on two vertices of the overall group 0 with weight 0 in it: without
    previous coordinates (armature weight 0), and with them (previous
    weight 1 - 0 = 1); index 7 is outside the one-vertex buffers. *)
Lemma armature_vert_task_with_dvert_skip_witness :
  armature_vert_task_with_dvert (ExDriver.userdata true true 0) 7
    (Some (ExDriver.dvert_of [ExDriver.entry 0 B32.zero]))
    (ExDriver.one_vertex Ex.vertex_inside None)
  = Some (ExDriver.one_vertex Ex.vertex_inside None) ∧
  armature_vert_task_with_dvert (ExDriver.userdata true true 0) 7
    (Some (ExDriver.dvert_of [ExDriver.entry 0 B32.zero]))
    (ExDriver.one_vertex Ex.vertex_inside (Some ExDriver.origin))
  = Some (ExDriver.one_vertex Ex.vertex_inside (Some ExDriver.origin)).
Proof.
  split.
  - apply (armature_vert_task_with_dvert_skip _ _ _ _ B32.zero B32.zero);
      [reflexivity | left; split; reflexivity].
  - apply (armature_vert_task_with_dvert_skip _ _ _ _ B32.one B32.one);
      [reflexivity | right; split; [by eexists | reflexivity]].
Defined.

(** C8 on a vertex with three weight entries, the middle one for group 5 of
    a one-entry table. *)
Lemma dvert_loop_skips_out_of_range_witness :
  dvert_loop (ExDriver.userdata false true (-1)) Ex.vertex_inside false
    ([ExDriver.entry 0 ExDriver.half] ++
       ExDriver.entry 5 B32.one :: [ExDriver.entry 0 ExDriver.half])
    (Ex.linear_accum, B32.zero, false)
  = dvert_loop (ExDriver.userdata false true (-1)) Ex.vertex_inside false
      ([ExDriver.entry 0 ExDriver.half] ++ [ExDriver.entry 0 ExDriver.half])
      (Ex.linear_accum, B32.zero, false) ∧
  dvert_loop (ExDriver.userdata false true (-1)) Ex.vertex_inside false
    ([ExDriver.entry 0 ExDriver.half] ++
       ExDriver.entry 5 B32.one :: [ExDriver.entry 0 ExDriver.half])
    (Ex.linear_accum, B32.zero, false)
  = Some ({| co_accum := Some ExDriver.unit_x; dq_accum := None; mat_accum := None |},
          B32.one, true).
Proof.
  split; [| reflexivity].
  apply dvert_loop_skips_out_of_range. vm_compute. discriminate.
Defined.

(** C3, as stated, fails when envelope mode is off: the vertex below has one
    weight entry, for group 5 of a one-entry table, so no vertex-group bone
    deformed it, and yet the envelope fallback does not run. *)
Lemma envelope_fallback_needs_envelope_mode :
  use_envelope (ExDriver.userdata false true (-1)) = false ∧
  existsb (resolves_to_bone (ExDriver.userdata false true (-1)))
    [ExDriver.entry 5 B32.one] = false ∧
  vert_accumulate (ExDriver.userdata false true (-1))
    (Some (ExDriver.dvert_of [ExDriver.entry 5 B32.one])) Ex.vertex_inside false
  = Some (Ex.linear_accum, B32.zero, PathGroups).
Proof. split; [| split]; reflexivity. Qed.

(** C3 amended, with envelope mode on: the same vertex goes through the
    fallback and is moved by the bone whose envelope it is in; a vertex with
    an entry for group 0, even of weight zero, does not. *)
Lemma envelope_fallback_iff_witness :
  (PathGroupsEnvelope = PathGroupsEnvelope ↔
     use_envelope (ExDriver.userdata true true (-1)) = true ∧
     existsb (resolves_to_bone (ExDriver.userdata true true (-1)))
       [ExDriver.entry 5 B32.one] = false) ∧
  vert_accumulate (ExDriver.userdata true true (-1))
    (Some (ExDriver.dvert_of [ExDriver.entry 0 B32.zero])) Ex.vertex_inside false
  = Some (Ex.linear_accum, B32.zero, PathGroups).
Proof.
  split.
  - apply (envelope_fallback_iff (ExDriver.userdata true true (-1))
             (ExDriver.dvert_of [ExDriver.entry 5 B32.one])
             [ExDriver.entry 5 B32.one] Ex.vertex_inside false
             {| co_accum := Some ExDriver.unit_x; dq_accum := None; mat_accum := None |}
             B32.one PathGroupsEnvelope);
      [reflexivity | discriminate | reflexivity | reflexivity].
  - destruct (envelope_fallback_iff (ExDriver.userdata true true (-1))
                (ExDriver.dvert_of [ExDriver.entry 0 B32.zero])
                [ExDriver.entry 0 B32.zero] Ex.vertex_inside false
                Ex.linear_accum B32.zero PathGroups) as [_ Hgroups];
      [reflexivity | discriminate | reflexivity | reflexivity |].
    reflexivity.
Defined.



(** ** The batch driver *)

Section Batch.
Context {F : Type} {A : FloatArith F} {C : DNAConst} {E : BlenlibExtern F}
        {K : BKEExtern (F:=F)}.

Lemma armature_deform_coords_impl_noop
    (ob_arm ob_target : Object) (arm : bArmature)
    (defbase : option (list bDeformGroup)) (bufs : Buffers)
    (vert_coords_len deformflag : Z) (defgrp_name : string) (dverts : Span)
    (me_target : option Mesh) (em_target : option BMEditMesh) :
  not_posable ob_arm arm →
  armature_deform_coords_impl ob_arm ob_target defbase bufs vert_coords_len
    deformflag defgrp_name dverts me_target em_target = ([], Some bufs).
Proof.
  intros [Hdata Hmode]. unfold armature_deform_coords_impl. rewrite Hdata.
  destruct Hmode as [-> | ->]; [reflexivity |].
  by destruct (edbo arm).
Qed.

(** C10.  Each of the three public entry points, called with an armature
    object that is in edit mode (edit bones present) or has no pose, returns
    at once: the buffers come back as they were (coordinates, deformation
    matrices and previous coordinates alike) and the [CLOG_ERROR] diagnostic
    is not printed.  For meshes and edit meshes nothing is printed at all;
    the curves entry point checks its own size assertion before the call. *)
Theorem entry_points_noop
    (ob_arm ob_target : Object) (arm : bArmature) (bufs : Buffers)
    (vert_coords_len deformflag : Z) (defgrp_name : string) :
  not_posable ob_arm arm →
  (∀ (defbase : option (list bDeformGroup)) (dverts : Span),
      ∃ log,
        BKE_armature_deform_coords_with_curves ob_arm ob_target defbase bufs
          dverts deformflag defgrp_name = (log, Some bufs) ∧
        ∀ n, LogError n ∉ log) ∧
  (∀ me_target : option Mesh,
      BKE_armature_deform_coords_with_mesh ob_arm ob_target bufs vert_coords_len
        deformflag defgrp_name me_target = ([], Some bufs)) ∧
  (∀ em_target : option BMEditMesh,
      BKE_armature_deform_coords_with_editmesh ob_arm ob_target bufs
        vert_coords_len deformflag defgrp_name em_target = ([], Some bufs)).
Proof.
  intros Hnp. split; [| split].
  - intros defbase dverts. unfold BKE_armature_deform_coords_with_curves.
    rewrite (armature_deform_coords_impl_noop _ _ arm) by exact Hnp.
    eexists. split; [reflexivity |].
    intros n. rewrite app_nil_r.
    destruct (span_size dverts =? Z.of_nat (length (vert_coords bufs)))%Z.
    + apply not_elem_of_nil.
    + intros Hin. apply list_elem_of_singleton in Hin. discriminate.
  - intros me_target. unfold BKE_armature_deform_coords_with_mesh.
    destruct (ob_data ob_target); simpl;
      by rewrite (armature_deform_coords_impl_noop _ _ arm).
  - intros em_target. unfold BKE_armature_deform_coords_with_editmesh.
    by rewrite (armature_deform_coords_impl_noop _ _ arm).
Qed.

(** *** The batch does not look at the pose flags *)

Lemma dvert_loop_with_arm
    (data : ArmatureUserdata) (a : Object) (co : float3 F) (fd : bool)
    (ws : list MDeformWeight) (st : GroupState) :
  dvert_loop (with_arm data a) co fd ws st = dvert_loop data co fd ws st.
Proof.
  revert st. induction ws as [| w ws IH]; intros st; [reflexivity |].
  cbn [dvert_loop].
  change (dvert_step (with_arm data a) co fd w st) with (dvert_step data co fd w st).
  destruct (dvert_step data co fd w st); simpl; [apply IH | reflexivity].
Qed.

Lemma vert_accumulate_with_arm
    (data : ArmatureUserdata) (a : Object) (dvert : option MDeformVert)
    (co : float3 F) (fd : bool) :
  pose_channels (with_arm data a) = pose_channels data →
  vert_accumulate (with_arm data a) dvert co fd = vert_accumulate data dvert co fd.
Proof.
  intros Hchans. unfold vert_accumulate.
  rewrite Hchans.
  change (initial_accum (with_arm data a) fd) with (initial_accum data fd).
  change (use_dverts (with_arm data a)) with (use_dverts data).
  change (use_envelope (with_arm data a)) with (use_envelope data).
  destruct dvert as [dv |]; [| reflexivity].
  destruct (use_dverts data && negb (totweight dv =? 0)%Z); [| reflexivity].
  destruct (dvert_entries dv) as [ws |]; [| reflexivity]. simpl.
  by rewrite dvert_loop_with_arm.
Qed.

Lemma vert_process_with_arm
    (data : ArmatureUserdata) (a : Object) (i : Z) (dvert : option MDeformVert)
    (bufs : Buffers) (fd : bool) (aw pw : F) (co : float3 F) :
  pose_channels (with_arm data a) = pose_channels data →
  vert_process (with_arm data a) i dvert bufs fd aw pw co =
    vert_process data i dvert bufs fd aw pw co.
Proof.
  intros Hchans. unfold vert_process.
  change (premat (with_arm data a)) with (premat data).
  change (postmat (with_arm data a)) with (postmat data).
  rewrite (vert_accumulate_with_arm data a _ _ _ Hchans).
  reflexivity.
Qed.

Lemma armature_vert_task_with_dvert_with_arm
    (data : ArmatureUserdata) (a : Object) (i : Z) (dvert : option MDeformVert)
    (bufs : Buffers) :
  pose_channels (with_arm data a) = pose_channels data →
  armature_vert_task_with_dvert (with_arm data a) i dvert bufs =
    armature_vert_task_with_dvert data i dvert bufs.
Proof.
  intros Hchans. unfold armature_vert_task_with_dvert.
  change (resolve_weights (with_arm data a)) with (resolve_weights data).
  destruct (resolve_weights data dvert _) as [aw pw].
  destruct (vert_coords_prev bufs) as [prev |].
  - destruct (f_eqb pw f_one); [reflexivity |].
    destruct (lookupZ prev i); simpl; [| reflexivity].
    by apply vert_process_with_arm.
  - destruct (f_eqb aw f_zero); [reflexivity |].
    destruct (lookupZ (vert_coords bufs) i); simpl; [| reflexivity].
    by apply vert_process_with_arm.
Qed.

Lemma task_parallel_range_ext
    (t t' : Z → Buffers (F:=F) → option Buffers) (start : Z) (n : nat) (bufs : Buffers) :
  (∀ i b, t i b = t' i b) →
  task_parallel_range t start n bufs = task_parallel_range t' start n bufs.
Proof.
  intros Hext. revert start bufs.
  induction n as [| n IH]; intros start bufs; simpl; [reflexivity |].
  rewrite Hext. destruct (t' start bufs); simpl; [apply IH | reflexivity].
Qed.

Lemma task_parallel_mempool_ext
    (t t' : Z → BMVert (F:=F) → Buffers (F:=F) → option Buffers) (start : Z) (vs : list BMVert)
    (bufs : Buffers) :
  (∀ i v b, t i v b = t' i v b) →
  task_parallel_mempool t start vs bufs = task_parallel_mempool t' start vs bufs.
Proof.
  intros Hext. revert start bufs.
  induction vs as [| v vs IH]; intros start bufs; simpl; [reflexivity |].
  rewrite Hext. destruct (t' start v bufs); simpl; [apply IH | reflexivity].
Qed.

Lemma run_tasks_with_arm
    (data : ArmatureUserdata) (a : Object) (em_target : option BMEditMesh)
    (vert_coords_len : Z) (bufs : Buffers) :
  pose_channels (with_arm data a) = pose_channels data →
  run_tasks (with_arm data a) em_target vert_coords_len bufs =
    run_tasks data em_target vert_coords_len bufs.
Proof.
  intros Hchans. unfold run_tasks.
  change (use_dverts (with_arm data a)) with (use_dverts data).
  destruct em_target as [em |].
  - destruct (use_dverts data); apply task_parallel_mempool_ext; intros i v b.
    + unfold armature_vert_task_editmesh.
      destruct (bv_dvert v); simpl; [| reflexivity].
      by apply armature_vert_task_with_dvert_with_arm.
    + unfold armature_vert_task_editmesh_no_dvert.
      by apply armature_vert_task_with_dvert_with_arm.
  - apply task_parallel_range_ext. intros i b. unfold armature_vert_task.
    match goal with
    | |- ?sel ≫= _ = ?sel' ≫= _ => change sel with sel'; destruct sel'
    end; simpl; [| reflexivity].
    by apply armature_vert_task_with_dvert_with_arm.
Qed.

(** The batch on an armature whose pose flags were replaced is the batch on
    the armature itself, provided the lookup of a channel by name does not
    depend on the flags. *)
Lemma deform_batch_set_pose_flag
    (arm_ob ob_target : Object) (p : bPose) (flags : Z)
    (defbase : option (list bDeformGroup)) (bufs : Buffers)
    (vert_coords_len deformflag : Z) (defgrp_name : string) (dverts : Span)
    (me_target : option Mesh) (em_target : option BMEditMesh) :
  pose arm_ob = Some p →
  (∀ n, BKE_pose_channel_find_name
          {| pose_flag := flags; chanbase := chanbase p |} n
        = BKE_pose_channel_find_name p n) →
  deform_batch (set_pose_flag arm_ob flags) ob_target
    {| pose_flag := flags; chanbase := chanbase p |}
    defbase bufs vert_coords_len deformflag defgrp_name dverts me_target em_target
  = deform_batch arm_ob ob_target p
      defbase bufs vert_coords_len deformflag defgrp_name dverts me_target em_target.
Proof.
  intros Hpose Hfind.
  assert (Hrun : ∀ data : ArmatureUserdata,
    ob_arm data = arm_ob →
    run_tasks (with_arm data (set_pose_flag arm_ob flags)) em_target
      vert_coords_len bufs
    = run_tasks data em_target vert_coords_len bufs).
  { intros data Harm. apply run_tasks_with_arm.
    unfold pose_channels. simpl. by rewrite Harm, Hpose. }
  unfold deform_batch.
  destruct (BKE_object_supports_vertex_groups ob_target);
    [destruct defbase as [db |]; simpl; [| reflexivity] | simpl].
  - destruct (flag_test deformflag ARM_DEF_VGROUP); simpl.
    + match goal with
      | |- (if ?g then _ else _) ≫= _ = _ => destruct g
      end; simpl.
      * rewrite (mapM_ext
                   (defbase_entry {| pose_flag := flags; chanbase := chanbase p |})
                   (defbase_entry p))
          by (intros dg; unfold defbase_entry; by rewrite Hfind).
        destruct (mapM (defbase_entry p) db) as [table |]; simpl; [| reflexivity].
        match goal with |- _ = run_tasks ?d _ _ _ => exact (Hrun d eq_refl) end.
      * match goal with |- _ = run_tasks ?d _ _ _ => exact (Hrun d eq_refl) end.
    + match goal with |- _ = run_tasks ?d _ _ _ => exact (Hrun d eq_refl) end.
  - match goal with |- _ = run_tasks ?d _ _ _ => exact (Hrun d eq_refl) end.
Qed.


End Batch.


(** C10 on the example armature in edit mode, and on an armature without a
    pose, whatever the deform flags. *)
Lemma entry_points_noop_witness :
  BKE_armature_deform_coords_with_mesh ExBatch.armature_edit ExBatch.target
    (ExDriver.one_vertex Ex.vertex_inside None) 1 3 "" (Some ExBatch.mesh)
  = ([], Some (ExDriver.one_vertex Ex.vertex_inside None)) ∧
  BKE_armature_deform_coords_with_editmesh
    ExBatch.armature_no_pose ExBatch.target
    (ExDriver.one_vertex Ex.vertex_inside None) 1 3 ""
    (Some {| vpool := [{| bv_dvert := None |}]; vdata_dvert_offset := (-1) |})
  = ([], Some (ExDriver.one_vertex Ex.vertex_inside None)).
Proof.
  split.
  - apply (entry_points_noop ExBatch.armature_edit ExBatch.target {| edbo := true |}).
    split; [reflexivity | left; reflexivity].
  - apply (entry_points_noop ExBatch.armature_no_pose
             ExBatch.target {| edbo := false |}).
    split; [reflexivity | right; reflexivity].
Defined.

(* ===================================================================== *)
(** * Further properties of the deformer                                  *)
(* ===================================================================== *)

(** ** Vertices are independent *)

(** ** Vertices are independent *)

Lemma lookupZ_insertZ_ne {A : Type} (l : list A) (i j : Z) (a : A) :
  i ≠ j → lookupZ (insertZ i a l) j = lookupZ l j.
Proof.
  intros Hne. unfold lookupZ, insertZ.
  destruct (j <? 0) eqn:Hj; [reflexivity|].
  destruct (i <? 0) eqn:Hi; [reflexivity|].
  apply list_lookup_insert_ne. lia.
Qed.

Lemma length_insertZ {A : Type} (l : list A) (i : Z) (a : A) :
  length (insertZ i a l) = length l.
Proof. unfold insertZ. destruct (i <? 0); [reflexivity | apply length_insert]. Qed.

Lemma insertZ_commute {A : Type} (l : list A) (i j : Z) (a b : A) :
  i ≠ j → insertZ i a (insertZ j b l) = insertZ j b (insertZ i a l).
Proof.
  intros Hne. unfold insertZ.
  destruct (i <? 0) eqn:Hi, (j <? 0) eqn:Hj; try reflexivity.
  apply list_insert_insert_ne. lia.
Qed.

Section Independence.
Context {F : Type} {A : FloatArith F} {C : DNAConst} {E : BlenlibExtern F}
        {K : BKEExtern (F:=F)}.
Local Open Scope float_scope.
Import BLI.

Lemma vert_deform_slot
    (data : ArmatureUserdata) (i : Z) (bufs : Buffers (F:=F)) (fd : bool)
    (aw : F) (acc : Accum) (contrib : F) (co : float3 F) :
  vert_deform data i bufs fd aw acc contrib co =
  slot_deform data (mjoin (s_mat (buffer_slot bufs i))) fd aw acc contrib co.
Proof.
  unfold vert_deform, slot_deform, buffer_slot. simpl.
  destruct (vert_deform_mats bufs); reflexivity.
Qed.

(** The per-vertex task reads its own vertex and writes its own vertex. *)
Lemma armature_vert_task_with_dvert_slot
    (data : ArmatureUserdata) (i : Z) (dvert : option MDeformVert)
    (bufs : Buffers (F:=F)) :
  armature_vert_task_with_dvert data i dvert bufs =
  (o ← slot_task data dvert (buffer_slot bufs i); Some (apply_outcome i o bufs)).
Proof.
  unfold armature_vert_task_with_dvert, slot_task, vert_process.
  assert (Hfd : bool_decide (is_Some (s_mat (buffer_slot bufs i))) =
                bool_decide (is_Some (vert_deform_mats bufs))).
  { unfold buffer_slot; simpl. destruct (vert_deform_mats bufs); reflexivity. }
  assert (Hhp : bool_decide (is_Some (s_prev (buffer_slot bufs i))) =
                bool_decide (is_Some (vert_coords_prev bufs))).
  { unfold buffer_slot; simpl. destruct (vert_coords_prev bufs); reflexivity. }
  rewrite Hfd, Hhp.
  destruct (resolve_weights data dvert _) as [aw pw].
  unfold buffer_slot at 1 5. simpl.
  destruct (vert_coords_prev bufs) as [prev|] eqn:Hprev; simpl.
  - destruct (pw =? f_one); [reflexivity|].
    destruct (lookupZ prev i) as [co|]; [simpl|reflexivity].
    destruct (vert_accumulate _ _ _ _) as [[[acc contrib] path]|]; [simpl|reflexivity].
    rewrite vert_deform_slot.
    destruct (slot_deform _ _ _ _ _ _ _) as [[co' nm]|]; [simpl|reflexivity].
    unfold vert_write_back. rewrite Hprev. 
    destruct (lookupZ (vert_coords bufs) i) as [old|]; [simpl|reflexivity].
    rewrite ?Hprev. reflexivity.
  - destruct (aw =? f_zero); [reflexivity|].
    destruct (lookupZ (vert_coords bufs) i) as [co|]; [simpl|reflexivity].
    destruct (vert_accumulate _ _ _ _) as [[[acc contrib] path]|]; [simpl|reflexivity].
    rewrite vert_deform_slot.
    destruct (slot_deform _ _ _ _ _ _ _) as [[co' nm]|]; [simpl|reflexivity].
    unfold vert_write_back. rewrite Hprev. simpl. rewrite ?Hprev. reflexivity.
Qed.

Lemma buffer_slot_apply_outcome_ne (i j : Z) (o : Outcome) (b : Buffers (F:=F)) :
  i ≠ j → buffer_slot (apply_outcome i o b) j = buffer_slot b j.
Proof.
  intros Hne. destruct o as [|co nm pv]; [reflexivity|].
  unfold buffer_slot, apply_outcome; simpl.
  rewrite lookupZ_insertZ_ne by done.
  f_equal.
  - destruct nm, (vert_deform_mats b); simpl; try reflexivity.
    rewrite lookupZ_insertZ_ne by done. reflexivity.
  - destruct pv, (vert_coords_prev b); simpl; try reflexivity.
    rewrite lookupZ_insertZ_ne by done. reflexivity.
Qed.

Lemma buffer_lengths_apply_outcome (i : Z) (o : Outcome) (b : Buffers (F:=F)) :
  buffer_lengths (apply_outcome i o b) = buffer_lengths b.
Proof.
  destruct o as [|co nm pv]; [reflexivity|].
  unfold buffer_lengths, apply_outcome; simpl.
  rewrite length_insertZ. f_equal; [f_equal|].
  - destruct nm, (vert_deform_mats b); simpl; try reflexivity.
    rewrite length_insertZ. reflexivity.
  - destruct pv, (vert_coords_prev b); simpl; try reflexivity.
    rewrite length_insertZ. reflexivity.
Qed.

Lemma apply_outcome_commute (i j : Z) (o o' : Outcome) (b : Buffers (F:=F)) :
  i ≠ j →
  apply_outcome i o (apply_outcome j o' b) = apply_outcome j o' (apply_outcome i o b).
Proof.
  intros Hne. destruct o as [|co nm pv], o' as [|co' nm' pv']; try reflexivity.
  unfold apply_outcome; simpl. f_equal.
  - apply insertZ_commute; done.
  - destruct nm, nm', (vert_deform_mats b); simpl; try reflexivity.
    rewrite insertZ_commute by done. reflexivity.
  - destruct pv, pv', (vert_coords_prev b); simpl; try reflexivity.
    rewrite insertZ_commute by done. reflexivity.
Qed.

(** X1.  The per-vertex task touches its own vertex only.  When the task
    for vertex [i] returns, each of the three buffers has the length it had
    (an absent buffer stays absent), and for every other index [j] the
    coordinate, the deformation matrix and the previous coordinate are what
    they were. *)
Theorem armature_vert_task_with_dvert_frame
    (data : ArmatureUserdata) (i : Z) (dvert : option MDeformVert)
    (bufs bufs' : Buffers (F:=F)) :
  armature_vert_task_with_dvert data i dvert bufs = Some bufs' →
  buffer_lengths bufs' = buffer_lengths bufs ∧
  ∀ j, j ≠ i → buffer_slot bufs' j = buffer_slot bufs j.
Proof.
  rewrite armature_vert_task_with_dvert_slot.
  destruct (slot_task _ _ _) as [o|]; [simpl|discriminate].
  intros [= <-]. split.
  - apply buffer_lengths_apply_outcome.
  - intros j Hj. apply buffer_slot_apply_outcome_ne. congruence.
Qed.

(** X2.  The tasks of two different vertices commute: running the one for
    [i] and then the one for [j] gives the same buffers, or fails alike, as
    running them the other way round.  The order in which
    [BLI_task_parallel_range] schedules the vertices cannot be seen in the
    result. *)
Theorem armature_vert_task_with_dvert_commute
    (data : ArmatureUserdata) (i j : Z) (dvi dvj : option MDeformVert)
    (bufs : Buffers (F:=F)) :
  i ≠ j →
  (b ← armature_vert_task_with_dvert data i dvi bufs;
   armature_vert_task_with_dvert data j dvj b) =
  (b ← armature_vert_task_with_dvert data j dvj bufs;
   armature_vert_task_with_dvert data i dvi b).
Proof.
  intros Hne.
  rewrite (armature_vert_task_with_dvert_slot data i dvi bufs).
  rewrite (armature_vert_task_with_dvert_slot data j dvj bufs).
  destruct (slot_task data dvi (buffer_slot bufs i)) as [oi|] eqn:Hi;
    destruct (slot_task data dvj (buffer_slot bufs j)) as [oj|] eqn:Hj; simpl;
    rewrite ?armature_vert_task_with_dvert_slot,
            ?buffer_slot_apply_outcome_ne, ?Hi, ?Hj by congruence; simpl;
    try reflexivity.
  f_equal. symmetry. apply apply_outcome_commute. done.
Qed.


Lemma lookupZ_insertZ_eq {T : Type} (l : list T) (i : Z) (a : T) :
  lookupZ (insertZ i a l) i = (λ _, a) <$> lookupZ l i.
Proof.
  unfold lookupZ, insertZ. destruct (i <? 0)%Z; [reflexivity|].
  destruct (l !! Z.to_nat i) as [x|] eqn:Hl; simpl.
  - apply list_lookup_insert_eq. eapply lookup_lt_Some; eauto.
  - apply list_lookup_insert_None. done.
Qed.

Lemma buffer_slot_apply_outcome_eq (i : Z) (o : Outcome) (b b' : Buffers (F:=F)) :
  buffer_slot b i = buffer_slot b' i →
  buffer_slot (apply_outcome i o b) i = buffer_slot (apply_outcome i o b') i.
Proof.
  destruct o as [|co nm pv]; [done|].
  unfold buffer_slot, apply_outcome; simpl. intros [= Hco Hm Hp].
  rewrite !lookupZ_insertZ_eq, Hco. f_equal.
  - destruct nm, (vert_deform_mats b), (vert_deform_mats b'); simpl in *;
      try done. rewrite !lookupZ_insertZ_eq. congruence.
  - destruct pv, (vert_coords_prev b), (vert_coords_prev b'); simpl in *;
      try done. rewrite !lookupZ_insertZ_eq. congruence.
Qed.

(** A batch of tasks that each read and write their own vertex. *)
Lemma task_parallel_range_local
    (g : Z → Slot (F:=F) → option Outcome) (task : Z → Buffers → option Buffers)
    (Htask : ∀ i b, task i b = (o ← g i (buffer_slot b i); Some (apply_outcome i o b)))
    (n : nat) (start : Z) (bufs out : Buffers (F:=F)) :
  task_parallel_range task start n bufs = Some out →
  buffer_lengths out = buffer_lengths bufs ∧
  (∀ i, (start <= i < start + Z.of_nat n)%Z →
        ∃ o, g i (buffer_slot bufs i) = Some o ∧
             buffer_slot out i = buffer_slot (apply_outcome i o bufs) i) ∧
  (∀ i, ¬ (start <= i < start + Z.of_nat n)%Z →
        buffer_slot out i = buffer_slot bufs i).
Proof.
  revert start bufs. induction n as [|n IH]; intros start bufs; simpl.
  - intros [= <-]. split; [done|]. split; [intros; lia | done].
  - rewrite Htask. destruct (g start (buffer_slot bufs start)) as [o|] eqn:Hg;
      [simpl|discriminate].
    intros Hrest. destruct (IH _ _ Hrest) as (Hlen & Hin & Hout).
    split; [|split].
    + rewrite Hlen. apply buffer_lengths_apply_outcome.
    + intros i Hi. destruct (decide (i = start)) as [->|Hne].
      * exists o. split; [done|]. apply Hout. lia.
      * destruct (Hin i) as (o' & Ho' & Hs); [lia|].
        rewrite buffer_slot_apply_outcome_ne in Ho' by done.
        exists o'. split; [done|]. rewrite Hs.
        apply buffer_slot_apply_outcome_eq, buffer_slot_apply_outcome_ne. done.
    + intros i Hi. rewrite Hout by lia.
      apply buffer_slot_apply_outcome_ne. lia.
Qed.

Lemma task_parallel_mempool_local
    (g : Z → BMVert → Slot (F:=F) → option Outcome)
    (task : Z → BMVert → Buffers → option Buffers)
    (Htask : ∀ i v b,
       task i v b = (o ← g i v (buffer_slot b i); Some (apply_outcome i o b)))
    (vs : list BMVert) (start : Z) (bufs out : Buffers (F:=F)) :
  task_parallel_mempool task start vs bufs = Some out →
  buffer_lengths out = buffer_lengths bufs ∧
  (∀ (k : nat) v, vs !! k = Some v →
        ∃ o, g (start + Z.of_nat k)%Z v (buffer_slot bufs (start + Z.of_nat k)) = Some o ∧
             buffer_slot out (start + Z.of_nat k) =
             buffer_slot (apply_outcome (start + Z.of_nat k) o bufs) (start + Z.of_nat k)) ∧
  (∀ i, ¬ (start <= i < start + Z.of_nat (length vs))%Z →
        buffer_slot out i = buffer_slot bufs i).
Proof.
  revert start bufs. induction vs as [|v vs IH]; intros start bufs; simpl.
  - intros [= <-]. split; [done|]. split; [intros k v' Hk; done | done].
  - rewrite Htask. destruct (g start v (buffer_slot bufs start)) as [o|] eqn:Hg;
      [simpl|discriminate].
    intros Hrest. destruct (IH _ _ Hrest) as (Hlen & Hin & Hout).
    split; [|split].
    + rewrite Hlen. apply buffer_lengths_apply_outcome.
    + intros [|k] v' Hk; simpl in Hk.
      * injection Hk as <-. replace (start + Z.of_nat 0)%Z with start by lia.
        exists o. split; [done|]. apply Hout. lia.
      * replace (start + Z.of_nat (S k))%Z with (start + 1 + Z.of_nat k)%Z by lia.
        destruct (Hin k v' Hk) as (o' & Ho' & Hs).
        rewrite buffer_slot_apply_outcome_ne in Ho' by lia.
        exists o'. split; [done|]. rewrite Hs.
        apply buffer_slot_apply_outcome_eq, buffer_slot_apply_outcome_ne. lia.
    + intros i Hi. rewrite Hout by lia.
      apply buffer_slot_apply_outcome_ne. lia.
Qed.

Lemma armature_vert_task_slot (data : ArmatureUserdata) (i : Z) (b : Buffers (F:=F)) :
  armature_vert_task data i b =
  (o ← (dv ← task_dvert data i; slot_task data dv (buffer_slot b i));
   Some (apply_outcome i o b)).
Proof.
  unfold armature_vert_task. fold (task_dvert data i).
  destruct (task_dvert data i) as [dv|]; [simpl|reflexivity].
  apply armature_vert_task_with_dvert_slot.
Qed.

Lemma armature_vert_task_editmesh_slot
    (data : ArmatureUserdata) (i : Z) (v : BMVert) (b : Buffers (F:=F)) :
  armature_vert_task_editmesh data i v b =
  (o ← (dv ← bv_dvert v; slot_task data (Some dv) (buffer_slot b i));
   Some (apply_outcome i o b)).
Proof.
  unfold armature_vert_task_editmesh.
  destruct (bv_dvert v) as [dv|]; [simpl|reflexivity].
  apply armature_vert_task_with_dvert_slot.
Qed.

(** The tasks of a batch leave the lengths of the buffers and every vertex
    outside the batch as they were. *)
Lemma run_tasks_frame
    (data : ArmatureUserdata) (em_target : option BMEditMesh) (vert_coords_len : Z)
    (bufs out : Buffers (F:=F)) :
  run_tasks data em_target vert_coords_len bufs = Some out →
  buffer_lengths out = buffer_lengths bufs ∧
  ∀ i, ¬ (0 <= i < batch_count em_target vert_coords_len)%Z →
       buffer_slot out i = buffer_slot bufs i.
Proof.
  unfold run_tasks, batch_count. destruct em_target as [em|].
  - destruct (use_dverts data); intros Hrun.
    + destruct (task_parallel_mempool_local
                  (λ i v s, dv ← bv_dvert v; slot_task data (Some dv) s) _
                  (armature_vert_task_editmesh_slot data) _ _ _ _ Hrun)
        as (Hlen & _ & Hout).
      split; [done|]. intros i Hi. apply Hout. lia.
    + destruct (task_parallel_mempool_local
                  (λ i _ s, slot_task data None s) _
                  (λ i v b, armature_vert_task_with_dvert_slot data i None b)
                  _ _ _ _ Hrun)
        as (Hlen & _ & Hout).
      split; [done|]. intros i Hi. apply Hout. lia.
  - intros Hrun.
    destruct (task_parallel_range_local
              (λ i s, dv ← task_dvert data i; slot_task data dv s) _
              (armature_vert_task_slot data) _ _ _ _ Hrun)
      as (Hlen & _ & Hout).
    split; [done|]. intros i Hi. apply Hout. lia.
Qed.

(** X4.  In a batch over an index range, every vertex ends as if its task
    had run alone on the buffers the batch started from: what the batch
    leaves at index [i] is what [armature_vert_task] for [i] leaves there
    when applied to the initial buffers.  No vertex sees the result of
    another one. *)
Theorem run_tasks_range_vertexwise
    (data : ArmatureUserdata) (vert_coords_len : Z) (bufs out : Buffers (F:=F)) (i : Z) :
  run_tasks data None vert_coords_len bufs = Some out →
  (0 <= i < vert_coords_len)%Z →
  ∃ alone, armature_vert_task data i bufs = Some alone ∧
           buffer_slot out i = buffer_slot alone i.
Proof.
  unfold run_tasks. intros Hrun Hi.
  destruct (task_parallel_range_local
              (λ i s, dv ← task_dvert data i; slot_task data dv s) _
              (armature_vert_task_slot data) _ _ _ _ Hrun)
    as (_ & Hin & _).
  destruct (Hin i) as (o & Ho & Hs); [lia|].
  exists (apply_outcome i o bufs). split; [|done].
  rewrite armature_vert_task_slot, Ho. reflexivity.
Qed.

(** X5.  The same for a batch over the vertex pool of an edit mesh: the
    vertex at position [k] of the pool ends as if its task (with vertex
    groups or without, as [use_dverts] says) had run alone on the initial
    buffers.  The pool decides which vertices are visited;
    [vert_coords_len] plays no part. *)
Theorem run_tasks_editmesh_vertexwise
    (data : ArmatureUserdata) (em : BMEditMesh) (vert_coords_len : Z)
    (bufs out : Buffers (F:=F)) (k : nat) (v : BMVert) :
  run_tasks data (Some em) vert_coords_len bufs = Some out →
  vpool em !! k = Some v →
  ∃ alone,
    (if use_dverts data
     then armature_vert_task_editmesh data (Z.of_nat k) v bufs
     else armature_vert_task_editmesh_no_dvert data (Z.of_nat k) v bufs) = Some alone ∧
    buffer_slot out (Z.of_nat k) = buffer_slot alone (Z.of_nat k).
Proof.
  unfold run_tasks. intros Hrun Hk. destruct (use_dverts data).
  - destruct (task_parallel_mempool_local
                (λ i v s, dv ← bv_dvert v; slot_task data (Some dv) s) _
                (armature_vert_task_editmesh_slot data) _ _ _ _ Hrun)
      as (_ & Hin & _).
    destruct (Hin k v Hk) as (o & Ho & Hs).
    change (0 + Z.of_nat k)%Z with (Z.of_nat k) in Ho, Hs. cbv beta in Ho.
    exists (apply_outcome (Z.of_nat k) o bufs). split; [|done].
    rewrite armature_vert_task_editmesh_slot, Ho. reflexivity.
  - destruct (task_parallel_mempool_local
                (λ i _ s, slot_task data None s) _
                (λ i v b, armature_vert_task_with_dvert_slot data i None b)
                _ _ _ _ Hrun)
      as (_ & Hin & _).
    destruct (Hin k v Hk) as (o & Ho & Hs).
    change (0 + Z.of_nat k)%Z with (Z.of_nat k) in Ho, Hs. cbv beta in Ho.
    exists (apply_outcome (Z.of_nat k) o bufs). split; [|done].
    unfold armature_vert_task_editmesh_no_dvert.
    rewrite armature_vert_task_with_dvert_slot, Ho. reflexivity.
Qed.

End Independence.

(** ** The accumulators keep their shape *)

Section Accumulators.
Context {F : Type} {A : FloatArith F} {C : DNAConst} {E : BlenlibExtern F}
        {K : BKEExtern (F:=F)}.
Local Open Scope float_scope.
Import BLI.

Lemma pchan_deform_accumulate_shape
    (dq : option DualQuat) (m : option (mat4 F)) (co : float3 F) (w : F)
    (acc acc' : Accum) (fd : bool) :
  pchan_deform_accumulate dq m co w acc fd = Some acc' →
  accum_shape acc' = accum_shape acc.
Proof.
  unfold pchan_deform_accumulate, accum_shape.
  destruct (w =? f_zero); [intros [= <-]; reflexivity|].
  destruct (dq_accum acc) as [dqs|] eqn:Hdq.
  - destruct dq; [simpl|discriminate]. intros [= <-]; simpl. reflexivity.
  - destruct m; [simpl|discriminate].
    destruct (co_accum acc); [simpl|discriminate].
    destruct fd.
    + destruct (mat_accum acc); [simpl|discriminate]. intros [= <-]; reflexivity.
    + intros [= <-]; reflexivity.
Qed.

Lemma b_bone_deform_shape
    (pchan : bPoseChannel) (co : float3 F) (w : F) (acc acc' : Accum) (fd : bool) :
  b_bone_deform pchan co w acc fd = Some acc' →
  accum_shape acc' = accum_shape acc.
Proof.
  unfold b_bone_deform.
  destruct (BKE_pchan_bbone_deform_segment_index pchan co) as [index blend].
  destruct (pchan_deform_accumulate _ _ co (w * (f_one - blend)) acc fd) as [acc1|] eqn:H1;
    [simpl|discriminate].
  intros H2. rewrite (pchan_deform_accumulate_shape _ _ _ _ _ _ _ H2).
  exact (pchan_deform_accumulate_shape _ _ _ _ _ _ _ H1).
Qed.

Lemma bone_accumulate_shape
    (pchan : bPoseChannel) (b : Bone) (co : float3 F) (w : F) (acc acc' : Accum)
    (fd : bool) :
  (if is_bbone pchan b
   then b_bone_deform pchan co w acc fd
   else pchan_deform_accumulate (Some (deform_dual_quat pchan)) (Some (chan_mat pchan))
          co w acc fd) = Some acc' →
  accum_shape acc' = accum_shape acc.
Proof.
  destruct (is_bbone pchan b).
  - apply b_bone_deform_shape.
  - apply pchan_deform_accumulate_shape.
Qed.

Lemma pchan_bone_deform_shape
    (pchan : bPoseChannel) (w : F) (acc acc' : Accum) (co : float3 F) (fd : bool)
    (contrib contrib' : F) :
  pchan_bone_deform pchan w acc co fd contrib = Some (acc', contrib') →
  accum_shape acc' = accum_shape acc.
Proof.
  unfold pchan_bone_deform.
  destruct (w =? f_zero); [intros [= <- _]; reflexivity|].
  destruct (bone pchan) as [b|]; [simpl|discriminate].
  destruct (if is_bbone pchan b then _ else _) as [acc1|] eqn:H1; [simpl|discriminate].
  intros [= <- _]. exact (bone_accumulate_shape _ _ _ _ _ _ _ H1).
Qed.

Lemma dist_bone_deform_shape
    (pchan : bPoseChannel) (acc acc' : Accum) (co : float3 F) (fd : bool) (c : F) :
  dist_bone_deform pchan acc co fd = Some (acc', c) →
  accum_shape acc' = accum_shape acc.
Proof.
  unfold dist_bone_deform.
  destruct (bone pchan) as [b|]; [|intros [= <- _]; reflexivity].
  destruct (_ >? f_zero); [|intros [= <- _]; reflexivity].
  destruct (_ >? f_zero); [|intros [= <- _]; reflexivity].
  destruct (if is_bbone pchan b then _ else _) as [acc1|] eqn:H1; [simpl|discriminate].
  intros [= <- _]. exact (bone_accumulate_shape _ _ _ _ _ _ _ H1).
Qed.

Lemma dvert_loop_shape
    (data : ArmatureUserdata) (co : float3 F) (fd : bool) (ws : list MDeformWeight)
    (acc acc' : Accum) (c c' : F) (d d' : bool) :
  dvert_loop data co fd ws (acc, c, d) = Some (acc', c', d') →
  accum_shape acc' = accum_shape acc.
Proof.
  revert acc c d. induction ws as [|w ws IH]; intros acc c d.
  - intros [= <- _ _]. reflexivity.
  - cbn [dvert_loop].
    destruct (dvert_step data co fd w (acc, c, d)) as [[[acc1 c1] d1]|] eqn:Hstep;
      [simpl|discriminate].
    intros Hrest. rewrite (IH _ _ _ Hrest). clear Hrest IH.
    unfold dvert_step in Hstep.
    destruct (_ >=? _)%Z; [injection Hstep as <- _ _; reflexivity|].
    destruct (pchan_from_defbase data) as [table|]; [simpl in Hstep|discriminate].
    destruct (lookupZ table (def_nr w)) as [[pchan|]|]; simpl in Hstep;
      [|injection Hstep as <- _ _; reflexivity|discriminate].
    destruct (pchan_bone_deform _ _ _ _ _ _) as [[acc2 c2]|] eqn:Hp;
      [simpl in Hstep|discriminate].
    injection Hstep as <- _ _. exact (pchan_bone_deform_shape _ _ _ _ _ _ _ _ Hp).
Qed.

Lemma envelope_loop_shape
    (chans : list bPoseChannel) (co : float3 F) (fd : bool)
    (acc acc' : Accum) (c c' : F) :
  envelope_loop chans co fd (acc, c) = Some (acc', c') →
  accum_shape acc' = accum_shape acc.
Proof.
  revert acc c. induction chans as [|pchan chans IH]; intros acc c.
  - intros [= <- _]. reflexivity.
  - cbn [envelope_loop].
    destruct (bone pchan) as [b|]; [simpl|discriminate].
    destruct (negb _).
    + destruct (dist_bone_deform pchan acc co fd) as [[acc1 c1]|] eqn:Hd;
        [simpl|discriminate].
      intros Hrest. rewrite (IH _ _ Hrest).
      exact (dist_bone_deform_shape _ _ _ _ _ _ Hd).
    + simpl. apply IH.
Qed.

(** The accumulation ends with the accumulator pointers that it was given
    at the start. *)
Lemma vert_accumulate_accum_shape
    (data : ArmatureUserdata) (dvert : option MDeformVert) (co : float3 F)
    (full_deform : bool) (acc : Accum) (contrib : F) (path : AccumPath) :
  vert_accumulate data dvert co full_deform = Some (acc, contrib, path) →
  accum_shape acc = accum_shape (initial_accum data full_deform).
Proof.
  intros Hacc. unfold vert_accumulate in Hacc.
  assert (Henv : ∀ acc0 c0 (p : AccumPath),
    (chans ← pose_channels data;
     '(acc, contrib) ← envelope_loop chans co full_deform (acc0, c0);
     Some (acc, contrib, p)) = Some (acc, contrib, path) →
    accum_shape acc = accum_shape acc0).
  { intros acc0 c0 p. destruct (pose_channels data) as [chans|]; [simpl|discriminate].
    destruct (envelope_loop chans co full_deform (acc0, c0)) as [[acc1 c1]|] eqn:He;
      [simpl|discriminate].
    intros [= <- _ _]. exact (envelope_loop_shape _ _ _ _ _ _ _ He). }
  destruct dvert as [dv|].
  - destruct (use_dverts data && negb (totweight dv =? 0)%Z).
    + destruct (dvert_entries dv) as [ws|]; [simpl in Hacc|discriminate].
      destruct (dvert_loop _ _ _ _ _) as [[[acc1 c1] d1]|] eqn:Hl;
        [simpl in Hacc|discriminate].
      apply dvert_loop_shape in Hl. rewrite <- Hl.
      destruct (negb d1 && use_envelope data).
      * exact (Henv _ _ _ Hacc).
      * injection Hacc as <- _ _. reflexivity.
    + destruct (use_envelope data).
      * exact (Henv _ _ _ Hacc).
      * injection Hacc as <- _ _. reflexivity.
  - destruct (use_envelope data).
    + exact (Henv _ _ _ Hacc).
    + injection Hacc as <- _ _. reflexivity.
Qed.

(** The accumulator pointers of a blending mode, read off the shape. *)
Lemma accum_shape_initial
    (data : ArmatureUserdata) (full_deform : bool) (acc : Accum) :
  accum_shape acc = accum_shape (initial_accum data full_deform) →
  if use_quaternion data
  then co_accum acc = None ∧ is_Some (dq_accum acc) ∧ mat_accum acc = None
  else is_Some (co_accum acc) ∧ dq_accum acc = None ∧
       (is_Some (mat_accum acc) ↔ full_deform = true).
Proof.
  intros Hshape. unfold accum_shape, initial_accum in Hshape.
  destruct (use_quaternion data); simpl in Hshape.
  - destruct (co_accum acc), (dq_accum acc), (mat_accum acc); try discriminate.
    split; [done|]. split; [eauto|done].
  - destruct (co_accum acc), (dq_accum acc), (mat_accum acc), full_deform;
      try discriminate; (split; [eauto|]; split; [done|]);
      split; intros Hx; try done; try (destruct Hx; discriminate); eauto.
Qed.

(** X6.  The accumulation keeps the accumulators in the blending mode of
    the batch.  With quaternion blending the result holds a dual quaternion
    and neither a vector nor a matrix; with linear blending it holds a
    vector, no dual quaternion, and a matrix exactly when the full
    deformation is asked for. *)
Theorem vert_accumulate_shape
    (data : ArmatureUserdata) (dvert : option MDeformVert) (co : float3 F)
    (full_deform : bool) (acc : Accum) (contrib : F) (path : AccumPath) :
  vert_accumulate data dvert co full_deform = Some (acc, contrib, path) →
  if use_quaternion data
  then co_accum acc = None ∧ is_Some (dq_accum acc) ∧ mat_accum acc = None
  else is_Some (co_accum acc) ∧ dq_accum acc = None ∧
       (is_Some (mat_accum acc) ↔ full_deform = true).
Proof.
  intros Hacc. apply accum_shape_initial.
  exact (vert_accumulate_accum_shape _ _ _ _ _ _ _ Hacc).
Qed.

End Accumulators.

(** ** No read outside well-formed inputs *)

Section Safety.
Context {F : Type} {A : FloatArith F} {C : DNAConst} {E : BlenlibExtern F}
        {K : BKEExtern (F:=F)}.
Local Open Scope float_scope.
Import BLI.

Lemma accum_ready_shape (fd : bool) (acc acc' : Accum (F:=F)) :
  accum_shape acc' = accum_shape acc → accum_ready fd acc → accum_ready fd acc'.
Proof.
  unfold accum_shape, accum_ready.
  destruct (co_accum acc), (dq_accum acc), (mat_accum acc),
    (co_accum acc'), (dq_accum acc'), (mat_accum acc'); try discriminate;
    intros _ Hr; try (left; eauto; fail); right;
    (destruct Hr as [[? Hx]|[? Hm]]; [discriminate Hx|]);
    (split; [eauto|]); intros Hfd; destruct (Hm Hfd) as [? Hy];
    try discriminate Hy; eauto.
Qed.

Lemma initial_accum_ready (data : ArmatureUserdata) (fd : bool) :
  accum_ready fd (initial_accum data fd).
Proof.
  unfold accum_ready, initial_accum. destruct (use_quaternion data); simpl.
  - left. eauto.
  - right. split; [eauto|]. intros ->. eauto.
Qed.

Lemma pchan_deform_accumulate_safe
    (dq : option DualQuat) (m : option (mat4 F)) (co : float3 F) (w : F)
    (acc : Accum) (fd : bool) :
  accum_ready fd acc → is_Some dq → is_Some m →
  is_Some (pchan_deform_accumulate dq m co w acc fd).
Proof.
  intros Hr [dq' ->] [m' ->]. unfold pchan_deform_accumulate.
  destruct (w =? f_zero); [eauto|].
  destruct (dq_accum acc) as [dqs|] eqn:Hdq; [simpl; eauto|].
  destruct Hr as [[? Hx]|[[cs Hc] Hm]]; [congruence|].
  rewrite Hc. simpl. destruct fd; [|eauto].
  destruct (Hm eq_refl) as [ms ->]. simpl. eauto.
Qed.

Lemma lookupZ_is_Some {T : Type} (l : list T) (i : Z) :
  (0 <= i < Z.of_nat (length l))%Z → is_Some (lookupZ l i).
Proof.
  intros Hi. unfold lookupZ. destruct (i <? 0)%Z eqn:Hneg; [lia|].
  apply lookup_lt_is_Some. lia.
Qed.

Lemma bone_accumulate_safe
    (pchan : bPoseChannel) (b : Bone) (co : float3 F) (w : F) (acc : Accum)
    (fd : bool) :
  pchan_ready pchan → bone pchan = Some b → accum_ready fd acc →
  is_Some (if is_bbone pchan b
           then b_bone_deform pchan co w acc fd
           else pchan_deform_accumulate
                  (Some (deform_dual_quat pchan)) (Some (chan_mat pchan))
                  co w acc fd).
Proof.
  intros (b' & Hb' & Hseg) Hb Hr. rewrite Hb in Hb'. injection Hb' as <-.
  destruct (is_bbone pchan b) eqn:Hbb.
  - specialize (Hseg eq_refl co). unfold b_bone_deform.
    destruct (BKE_pchan_bbone_deform_segment_index pchan co) as [index blend].
    simpl in Hseg. destruct Hseg as (H0 & H1 & H2).
    destruct (pchan_deform_accumulate_safe
                (lookupZ (bbone_dual_quats pchan) index)
                (lookupZ (bbone_deform_mats pchan) (index + 1))
                co (w * (f_one - blend)) acc fd Hr) as [acc1 Hacc1];
      [apply lookupZ_is_Some; lia | apply lookupZ_is_Some; lia |].
    rewrite Hacc1. simpl.
    apply pchan_deform_accumulate_safe;
      [| apply lookupZ_is_Some; lia | apply lookupZ_is_Some; lia].
    eapply accum_ready_shape; [|exact Hr].
    exact (pchan_deform_accumulate_shape _ _ _ _ _ _ _ Hacc1).
  - apply pchan_deform_accumulate_safe; eauto.
Qed.

Lemma pchan_bone_deform_safe
    (pchan : bPoseChannel) (w : F) (acc : Accum) (co : float3 F) (fd : bool)
    (contrib : F) :
  pchan_ready pchan → accum_ready fd acc →
  is_Some (pchan_bone_deform pchan w acc co fd contrib).
Proof.
  intros Hp Hr. unfold pchan_bone_deform.
  destruct (w =? f_zero); [eauto|].
  destruct Hp as (b & Hb & Hseg). rewrite Hb. simpl.
  destruct (bone_accumulate_safe pchan b co w acc fd) as [acc1 ->]; eauto.
  exists b; eauto.
Qed.

Lemma dist_bone_deform_safe
    (pchan : bPoseChannel) (acc : Accum) (co : float3 F) (fd : bool) :
  pchan_ready pchan → accum_ready fd acc →
  is_Some (dist_bone_deform pchan acc co fd).
Proof.
  intros Hp Hr. unfold dist_bone_deform.
  destruct Hp as (b & Hb & Hseg). rewrite Hb.
  destruct (_ >? f_zero); [|eauto].
  destruct (_ >? f_zero); [|eauto].
  destruct (bone_accumulate_safe pchan b co
              (distfactor_to_bone co (arm_head b) (arm_tail b) (rad_head b)
                 (rad_tail b) (dist b) * weight b) acc fd) as [acc1 ->]; eauto.
  exists b; eauto.
Qed.

Lemma dvert_loop_safe
    (data : ArmatureUserdata) (co : float3 F) (fd : bool) (ws : list MDeformWeight)
    (acc : Accum) (c : F) (d : bool) :
  data_ready data → use_dverts data = true →
  Forall (λ w, 0 <= def_nr w)%Z ws → accum_ready fd acc →
  is_Some (dvert_loop data co fd ws (acc, c, d)).
Proof.
  intros [Hd _] Hud. destruct (Hd Hud) as (table & Ht & Hlen & Hready).
  intros Hws. revert acc c d. induction Hws as [|w ws Hw Hws IH]; intros acc c d Hr.
  - simpl. eauto.
  - cbn [dvert_loop].
    assert (Hstep : ∃ acc1 c1 d1,
              dvert_step data co fd w (acc, c, d) = Some (acc1, c1, d1) ∧
              accum_ready fd acc1).
    { unfold dvert_step.
      destruct (_ >=? _)%Z eqn:Hge; [eauto 6|].
      rewrite Ht. simpl.
      destruct (lookupZ_is_Some table (def_nr w)) as [entry Hentry]; [lia|].
      rewrite Hentry. simpl. destruct entry as [pchan|]; [|eauto 6].
      assert (Hp : pchan_ready pchan).
      { apply Hready. unfold lookupZ in Hentry.
        destruct (def_nr w <? 0)%Z; [discriminate|].
        eapply list_elem_of_lookup_2; eauto. }
      destruct (pchan_bone_deform_safe pchan
                  match bone pchan with
                  | Some b =>
                      if flag_test (flag b) BONE_MULT_VG_ENV
                      then dw_weight w *
                           distfactor_to_bone co (arm_head b) (arm_tail b)
                             (rad_head b) (rad_tail b) (dist b)
                      else dw_weight w
                  | None => dw_weight w
                  end acc co fd c Hp Hr) as [[acc1 c1] Hpb].
      rewrite Hpb. simpl. exists acc1, c1, true. split; [done|].
      eapply accum_ready_shape; [|exact Hr].
      exact (pchan_bone_deform_shape _ _ _ _ _ _ _ _ Hpb). }
    destruct Hstep as (acc1 & c1 & d1 & -> & Hr1). simpl. apply IH, Hr1.
Qed.

Lemma envelope_loop_safe
    (chans : list bPoseChannel) (co : float3 F) (fd : bool) (acc : Accum) (c : F) :
  Forall pchan_ready chans → accum_ready fd acc →
  is_Some (envelope_loop chans co fd (acc, c)).
Proof.
  intros Hall. revert acc c. induction Hall as [|pchan chans Hp Hall IH]; intros acc c Hr.
  - simpl. eauto.
  - cbn [envelope_loop]. destruct (Hp) as (b & Hb & _). rewrite Hb. simpl.
    destruct (negb _); simpl; [|apply IH, Hr].
    destruct (dist_bone_deform_safe pchan acc co fd Hp Hr) as [[acc1 c1] Hd].
    rewrite Hd. simpl. apply IH.
    eapply accum_ready_shape; [|exact Hr].
    exact (dist_bone_deform_shape _ _ _ _ _ _ Hd).
Qed.

Lemma vert_accumulate_safe
    (data : ArmatureUserdata) (dvert : option MDeformVert) (co : float3 F) (fd : bool) :
  data_ready data → (∀ dv, dvert = Some dv → dvert_ready dv) →
  is_Some (vert_accumulate data dvert co fd).
Proof.
  intros Hd Hdv. unfold vert_accumulate.
  assert (Henv : ∀ acc0 c0 (p : AccumPath),
    use_envelope data = true → accum_ready fd acc0 →
    is_Some (chans ← pose_channels data;
             '(acc, contrib) ← envelope_loop chans co fd (acc0, c0);
             Some (acc, contrib, p))).
  { intros acc0 c0 p Hue Hr. destruct Hd as [_ Hd].
    destruct (Hd Hue) as (chans & -> & Hall). simpl.
    destruct (envelope_loop_safe chans co fd acc0 c0 Hall Hr) as [[acc1 c1] ->].
    simpl. eauto. }
  pose proof (initial_accum_ready data fd) as Hr0.
  destruct dvert as [dv|].
  - destruct (use_dverts data) eqn:Hud; simpl.
    + destruct (negb (totweight dv =? 0)%Z).
      * destruct (Hdv dv eq_refl) as [Hcount Hnr].
        unfold dvert_entries.
        destruct ((0 <=? totweight dv) && (totweight dv <=? Z.of_nat (length (dw dv))))%Z
          eqn:Hc; [simpl|lia].
        destruct (dvert_loop_safe data co fd (take (Z.to_nat (totweight dv)) (dw dv))
                    (initial_accum data fd) f_zero false Hd Hud)
          as [[[acc1 c1] d1] Hl]; [apply Forall_take, Hnr | exact Hr0 |].
        rewrite Hl. simpl.
        destruct (negb d1 && use_envelope data) eqn:Hfb; [|eauto].
        apply Henv; [apply andb_true_iff in Hfb; tauto|].
        eapply accum_ready_shape; [|exact Hr0].
        exact (dvert_loop_shape _ _ _ _ _ _ _ _ _ _ Hl).
      * destruct (use_envelope data) eqn:Hue; [apply Henv; done | eauto].
    + destruct (use_envelope data) eqn:Hue; [apply Henv; done | eauto].
  - destruct (use_envelope data) eqn:Hue; [apply Henv; done | eauto].
Qed.

(** The per-vertex task returns on well-formed inputs. *)
Lemma with_dvert_safe
    (data : ArmatureUserdata) (i : Z) (dvert : option MDeformVert)
    (bufs : Buffers (F:=F)) :
  data_ready data →
  (∀ dv, dvert = Some dv → dvert_ready dv) →
  slot_in_range bufs i →
  is_Some (armature_vert_task_with_dvert data i dvert bufs).
Proof.
  intros Hd Hdv (Hco & Hmat & Hprev).
  unfold buffer_slot in Hco, Hmat, Hprev; simpl in Hco, Hmat, Hprev.
  unfold armature_vert_task_with_dvert.
  destruct (resolve_weights data dvert _) as [aw pw].
  assert (Hproc : ∀ co,
    is_Some (vert_process data i dvert bufs
               (bool_decide (is_Some (vert_deform_mats bufs))) aw pw co)).
  { intros co. unfold vert_process.
    destruct (vert_accumulate_safe data dvert (mul_m4_v3 (premat data) co)
                (bool_decide (is_Some (vert_deform_mats bufs))) Hd Hdv)
      as [[[acc contrib] path] Hacc].
    rewrite Hacc. simpl.
    pose proof (accum_shape_initial _ _ _ (vert_accumulate_accum_shape _ _ _ _ _ _ _ Hacc))
      as Hshape.
    assert (Hdef : is_Some (vert_deform data i bufs
                     (bool_decide (is_Some (vert_deform_mats bufs))) aw acc contrib
                     (mul_m4_v3 (premat data) co))).
    { unfold vert_deform. destruct (_ >? f_eps); [|eauto].
      destruct (use_quaternion data).
      - destruct Hshape as (_ & [dq ->] & _). simpl.
        destruct (vert_deform_mats bufs) as [mats|] eqn:Hm.
        + destruct (Hmat _ eq_refl) as [tmpmat Htmp].
          destruct (negb (aw =? f_one));
            destruct (mul_v3m3_dq _ _ _) as [dco summat]; simpl;
            rewrite Htmp; simpl; eauto.
        + destruct (negb (aw =? f_one));
            destruct (mul_v3m3_dq _ _ _) as [dco summat]; simpl; eauto.
      - destruct Hshape as ([vec ->] & _ & Hms). simpl.
        destruct (vert_deform_mats bufs) as [mats|] eqn:Hm; simpl; [|eauto].
        destruct (Hmat _ eq_refl) as [tmpmat Htmp]. rewrite Htmp. simpl.
        destruct (proj2 Hms eq_refl) as [sm ->]. simpl. eauto. }
    destruct Hdef as [[co' nm] ->]. simpl.
    unfold vert_write_back. destruct (vert_coords_prev bufs); [|eauto].
    destruct Hco as [old ->]. simpl. eauto. }
  destruct (vert_coords_prev bufs) as [prev|] eqn:Hp.
  - destruct (pw =? f_one); [eauto|].
    destruct (Hprev _ eq_refl) as [co ->]. simpl. apply Hproc.
  - destruct (aw =? f_zero); [eauto|].
    destruct Hco as [co ->]. simpl. apply Hproc.
Qed.

(** X7.  The per-vertex task reads nothing outside its inputs when they
    are well formed: with task data whose bone table covers [defbase_len]
    and whose pose channels have bones and B-Bone arrays that hold the
    segments picked, vertex group data whose count fits its array, and the
    vertex inside every buffer given, the task returns buffers (in any
    arithmetic, in both blending modes, with or without envelopes). *)
Theorem armature_vert_task_with_dvert_safe
    (data : ArmatureUserdata) (i : Z) (dvert : option MDeformVert)
    (bufs : Buffers (F:=F)) :
  data_ready data →
  (∀ dv, dvert = Some dv → dvert_ready dv) →
  slot_in_range bufs i →
  is_Some (armature_vert_task_with_dvert data i dvert bufs).
Proof. apply with_dvert_safe. Qed.

End Safety.

Section BatchSafety.
Context {F : Type} {A : FloatArith F} {C : DNAConst} {E : BlenlibExtern F}
        {K : BKEExtern (F:=F)}.
Local Open Scope float_scope.
Import BLI.

Lemma lookupZ_is_Some_iff {T : Type} (l : list T) (i : Z) :
  is_Some (lookupZ l i) ↔ (0 <= i < Z.of_nat (length l))%Z.
Proof.
  unfold lookupZ. destruct (i <? 0)%Z eqn:Hneg.
  - split; [intros [? ?]; discriminate | lia].
  - rewrite lookup_lt_is_Some. lia.
Qed.

Lemma slot_in_range_lengths (b b' : Buffers (F:=F)) (i : Z) :
  buffer_lengths b' = buffer_lengths b → slot_in_range b i → slot_in_range b' i.
Proof.
  unfold buffer_lengths, slot_in_range, buffer_slot; simpl.
  intros [= Hc Hm Hp] (Hco & Hmat & Hprev). split; [|split].
  - apply lookupZ_is_Some_iff. apply lookupZ_is_Some_iff in Hco. lia.
  - destruct (vert_deform_mats b') as [ms'|], (vert_deform_mats b) as [ms|];
      simpl in *; try discriminate Hm; [|done].
    injection Hm as Hm. intros m [= <-].
    specialize (Hmat _ eq_refl). apply lookupZ_is_Some_iff.
    apply lookupZ_is_Some_iff in Hmat. lia.
  - destruct (vert_coords_prev b') as [ps'|], (vert_coords_prev b) as [ps|];
      simpl in *; try discriminate Hp; [|done].
    injection Hp as Hp. intros p [= <-].
    specialize (Hprev _ eq_refl). apply lookupZ_is_Some_iff.
    apply lookupZ_is_Some_iff in Hprev. lia.
Qed.

Lemma task_parallel_range_safe
    (task : Z → Buffers (F:=F) → option Buffers) (n : nat) (start : Z) (bufs : Buffers) :
  (∀ i b b', task i b = Some b' → buffer_lengths b' = buffer_lengths b) →
  (∀ i b, (start <= i < start + Z.of_nat n)%Z → slot_in_range b i → is_Some (task i b)) →
  (∀ i, (start <= i < start + Z.of_nat n)%Z → slot_in_range bufs i) →
  is_Some (task_parallel_range task start n bufs).
Proof.
  intros Hframe. revert start bufs. induction n as [|n IH]; intros start bufs Hsafe Hcover.
  - simpl. eauto.
  - simpl. destruct (Hsafe start bufs) as [b1 Hb1]; [lia | apply Hcover; lia |].
    rewrite Hb1. simpl. apply IH.
    + intros i b Hi. apply Hsafe. lia.
    + intros i Hi. eapply slot_in_range_lengths; [exact (Hframe _ _ _ Hb1)|].
      apply Hcover. lia.
Qed.

Lemma task_parallel_mempool_safe
    (task : Z → BMVert → Buffers (F:=F) → option Buffers) (P : BMVert (F:=F) → Prop)
    (vs : list BMVert) (start : Z) (bufs : Buffers) :
  (∀ i v b b', task i v b = Some b' → buffer_lengths b' = buffer_lengths b) →
  (∀ i v b, P v → slot_in_range b i → is_Some (task i v b)) →
  Forall P vs →
  (∀ i, (start <= i < start + Z.of_nat (length vs))%Z → slot_in_range bufs i) →
  is_Some (task_parallel_mempool task start vs bufs).
Proof.
  intros Hframe Hsafe Hall. revert start bufs.
  induction Hall as [|v vs Hv Hall IH]; intros start bufs Hcover.
  - simpl. eauto.
  - simpl in *. destruct (Hsafe start v bufs Hv) as [b1 Hb1]; [apply Hcover; lia |].
    rewrite Hb1. simpl. apply IH.
    intros i Hi. eapply slot_in_range_lengths; [exact (Hframe _ _ _ _ Hb1)|].
    apply Hcover. lia.
Qed.

Lemma with_dvert_lengths
    (data : ArmatureUserdata) (i : Z) (dvert : option MDeformVert)
    (b b' : Buffers (F:=F)) :
  armature_vert_task_with_dvert data i dvert b = Some b' →
  buffer_lengths b' = buffer_lengths b.
Proof.
  rewrite armature_vert_task_with_dvert_slot.
  destruct (slot_task _ _ _) as [o|]; [simpl|discriminate].
  intros [= <-]. apply buffer_lengths_apply_outcome.
Qed.

Lemma run_tasks_safe
    (data : ArmatureUserdata) (em_target : option BMEditMesh) (vert_coords_len : Z)
    (bufs : Buffers (F:=F)) :
  data_ready data →
  match em_target with
  | Some em =>
      use_dverts data = true →
      Forall (λ v, ∃ dv, bv_dvert v = Some dv ∧ dvert_ready dv) (vpool em)
  | None =>
      ∀ l, dverts data = Some l →
           Forall dvert_ready l ∧
           match me_target data with
           | Some _ => (vert_coords_len <= Z.of_nat (length l))%Z
           | None => (dverts_len data <= Z.of_nat (length l))%Z
           end
  end →
  buffers_cover bufs (batch_count em_target vert_coords_len) →
  is_Some (run_tasks data em_target vert_coords_len bufs).
Proof.
  intros Hd Hdv Hcover. unfold run_tasks, batch_count, buffers_cover in *.
  destruct em_target as [em|].
  - destruct (use_dverts data) eqn:Hud.
    + apply (task_parallel_mempool_safe _
               (λ v : BMVert (F:=F), ∃ dv, bv_dvert v = Some dv ∧ dvert_ready dv)).
      * intros i v b b'. unfold armature_vert_task_editmesh.
        destruct (bv_dvert v); [simpl|discriminate]. apply with_dvert_lengths.
      * intros i v b (dv & Hv & Hr) Hs. unfold armature_vert_task_editmesh.
        rewrite Hv. simpl. apply with_dvert_safe; [done| |done].
        intros dv' [= <-]. done.
      * auto.
      * intros i Hi. apply Hcover. lia.
    + apply (task_parallel_mempool_safe _ (λ _ : BMVert (F:=F), True)).
      * intros i v b b'. apply with_dvert_lengths.
      * intros i v b _ Hs. unfold armature_vert_task_editmesh_no_dvert.
        apply with_dvert_safe; [done| |done]. intros dv [=].
      * apply Forall_true. done.
      * intros i Hi. apply Hcover. lia.
  - apply task_parallel_range_safe.
    + intros i b b'. unfold armature_vert_task. fold (task_dvert data i).
      destruct (task_dvert data i) as [dv|]; [simpl|discriminate].
      apply with_dvert_lengths.
    + intros i b Hi Hs. unfold armature_vert_task. fold (task_dvert data i).
      assert (Hsel : ∃ dvert,
        task_dvert data i = Some dvert ∧ ∀ dv, dvert = Some dv → dvert_ready dv).
      { unfold task_dvert.
        destruct (use_dverts data || negb (armature_def_nr data =? -1)%Z);
          [|exists None; split; [done|intros dv [=]]].
        destruct (dverts data) as [l|] eqn:Hl.
        - destruct (Hdv l eq_refl) as [Hall Hlen].
          assert (Hin : (i < Z.of_nat (length l))%Z →
                        ∃ dv, lookupZ l i = Some dv ∧ dvert_ready dv).
          { intros Hlt. destruct (lookupZ_is_Some l i) as [dv Hdvi]; [lia|].
            exists dv. split; [done|]. unfold lookupZ in Hdvi.
            destruct (i <? 0)%Z; [discriminate|].
            eapply Forall_lookup_1; eauto. }
          destruct (me_target data).
          + destruct Hin as (dv & -> & Hr); [lia|]. simpl.
            exists (Some dv). split; [done|]. intros ? [= <-]. done.
          + destruct (i <? dverts_len data)%Z eqn:Hlt.
            * destruct Hin as (dv & -> & Hr); [lia|]. simpl.
              exists (Some dv). split; [done|]. intros ? [= <-]. done.
            * exists None; split; [done|intros dv [=]].
        - destruct (me_target data); exists None; (split; [done|intros dv [=]]). }
      destruct Hsel as (dvert & -> & Hr). simpl.
      apply with_dvert_safe; done.
    + intros i Hi. apply Hcover. lia.
Qed.

Lemma to_uint_le (z : Z) : (0 <= z → to_uint z <= z)%Z.
Proof. intros Hz. unfold to_uint. apply Z.mod_le; lia. Qed.

Lemma defbase_table_ready (p : bPose) (db : list bDeformGroup) :
  pose_ready p →
  ∃ table, mapM (defbase_entry p) db = Some table ∧
           length table = length db ∧
           ∀ pchan, Some pchan ∈ table → pchan_ready pchan.
Proof.
  intros [_ Hfind].
  assert (Hsome : is_Some (mapM (defbase_entry p) db)).
  { apply mapM_is_Some, Forall_forall. intros dg _. unfold defbase_entry. simpl.
    destruct (BKE_pose_channel_find_name p (dg_name dg)) as [pchan|] eqn:Hf; [|eauto].
    destruct (Hfind _ _ Hf) as (b & -> & _). simpl. destruct (flag_test _ _); eauto. }
  destruct Hsome as [table Ht]. exists table. split; [done|].
  split; [symmetry; eapply length_mapM; eauto|].
  intros pchan Hin. apply mapM_Some in Ht.
  apply list_elem_of_lookup in Hin as [k Hk].
  destruct (Forall2_lookup_r _ _ _ _ _ Ht Hk) as (dg & _ & Hentry).
  unfold defbase_entry in Hentry.
  destruct (BKE_pose_channel_find_name p (dg_name dg)) as [pchan'|] eqn:Hf;
    [|discriminate].
  destruct (bone pchan'); [simpl in Hentry|discriminate].
  destruct (flag_test _ _); [discriminate|]. injection Hentry as ->. eauto.
Qed.

(** X8.  The batch reads nothing outside its inputs when they are well
    formed.  Given an armature object, a pose whose channels can be read, a
    vertex group list whenever the target supports vertex groups, vertex
    group data that covers the batch, and buffers that hold every vertex of
    the batch, [armature_deform_coords_impl] returns buffers, whatever
    the deform flags and the group name. *)
Theorem armature_deform_coords_impl_safe
    (ob_arm ob_target : Object) (arm : bArmature)
    (defbase : option (list bDeformGroup)) (bufs : Buffers (F:=F))
    (vert_coords_len : Z) (deformflag : Z) (defgrp_name : string)
    (dverts : Span) (me_target : option Mesh) (em_target : option BMEditMesh) :
  ob_data ob_arm = DataArmature arm →
  (∀ p, pose ob_arm = Some p → pose_ready p) →
  (BKE_object_supports_vertex_groups ob_target = true → is_Some defbase) →
  match em_target with
  | Some em => pool_ready em
  | None => span_ready dverts me_target vert_coords_len
  end →
  buffers_cover bufs (batch_count em_target vert_coords_len) →
  is_Some (armature_deform_coords_impl ob_arm ob_target defbase bufs vert_coords_len
             deformflag defgrp_name dverts me_target em_target).2.
Proof.
  intros Harm Hpose Hdb Hdv Hcover. unfold armature_deform_coords_impl.
  rewrite Harm. destruct (edbo arm); [simpl; eauto|].
  destruct (pose ob_arm) as [p|] eqn:Hp; [simpl|simpl; eauto].
  specialize (Hpose p eq_refl). unfold deform_batch.
  assert (Hrun : ∀ nr len ud off table,
    (ud = true →
     ∃ t, table = Some t ∧ (to_uint len <= Z.of_nat (length t))%Z ∧
          ∀ pchan, Some pchan ∈ t → pchan_ready pchan) →
    (ud = true → ∀ em, em_target = Some em → vdata_dvert_offset em ≠ (-1)%Z) →
    is_Some (run_tasks
      {| ob_arm := ob_arm; me_target := me_target;
         use_envelope := flag_test deformflag ARM_DEF_ENVELOPE;
         use_quaternion := flag_test deformflag ARM_DEF_QUATERNION;
         invert_vgroup := flag_test deformflag ARM_DEF_INVERT_VGROUP;
         use_dverts := ud; armature_def_nr := nr;
         dverts := span_data dverts; dverts_len := span_size dverts;
         pchan_from_defbase := table; defbase_len := len;
         premat := invert_m4_m4
                     (mul_m4_m4m4 (invert_m4_m4 (object_to_world ob_target))
                        (object_to_world ob_arm));
         postmat := mul_m4_m4m4 (invert_m4_m4 (object_to_world ob_target))
                      (object_to_world ob_arm);
         cd_dvert_offset := off |} em_target vert_coords_len bufs)).
  { intros nr len ud off table Ht Hoff. apply run_tasks_safe; [| |done].
    - split; simpl; [exact Ht|]. intros _. unfold pose_channels. simpl.
      rewrite Hp. simpl. exists (chanbase p). split; [done|]. apply Hpose.
    - destruct em_target as [em|]; simpl.
      + intros Hud. apply Hdv. eapply Hoff; eauto.
      + exact Hdv. }
  destruct (BKE_object_supports_vertex_groups ob_target).
  - destruct (Hdb eq_refl) as [db ->]. cbn -[run_tasks].
    destruct (flag_test deformflag ARM_DEF_VGROUP).
    + destruct (defbase_table_ready p db Hpose) as (t & Ht & Hlen & Hready).
      assert (Htable : ∃ t0, Some t = Some t0 ∧
                (to_uint (Z.of_nat (length db)) <= Z.of_nat (length t0))%Z ∧
                ∀ pchan, Some pchan ∈ t0 → pchan_ready pchan).
      { exists t. split; [done|]. split; [|done].
        rewrite Hlen. apply to_uint_le. lia. }
      destruct em_target as [em|]; [|destruct me_target as [me|]]; cbn -[run_tasks];
        match goal with |- context [if ?c then _ else _] => destruct c eqn:Hud end;
        rewrite ?Ht; cbn -[run_tasks];
        first [apply (Hrun _ _ true _ (Some t)) | apply (Hrun _ _ false _ None)];
        try (intros [=]; fail); try (intros _; exact Htable).
      * intros _ em' [= <-] Hoff. rewrite Hoff in Hud. discriminate Hud.
      * intros _ em' [=].
      * intros _ em' [=].
    + cbn -[run_tasks]. apply (Hrun _ _ false _ None); intros [=].
  - cbn -[run_tasks]. apply (Hrun _ _ false _ None); intros [=].
Qed.

End BatchSafety.

(** ** The bone table and the two loops *)

Section Loops.
Context {F : Type} {A : FloatArith F} {C : DNAConst} {E : BlenlibExtern F}
        {K : BKEExtern (F:=F)}.
Local Open Scope float_scope.
Import BLI.

(** X9.  The bone table of lines 547-555 has one entry per vertex group,
    in the order of the groups, and the entry of a group is a pose channel
    exactly when the pose has a channel of the group's name whose bone is
    not flagged [BONE_NO_DEFORM]; it is that channel. *)
Theorem defbase_table_entries
    (p : bPose) (db : list bDeformGroup) (table : list (option bPoseChannel)) :
  mapM (defbase_entry p) db = Some table →
  length table = length db ∧
  ∀ (k : nat) dg, db !! k = Some dg →
    ∃ entry, table !! k = Some entry ∧
      ∀ pchan, entry = Some pchan ↔
        BKE_pose_channel_find_name p (dg_name dg) = Some pchan ∧
        ∃ b, bone pchan = Some b ∧ flag_test (flag b) BONE_NO_DEFORM = false.
Proof.
  intros Ht. split; [symmetry; eapply length_mapM; eauto|].
  apply mapM_Some in Ht. intros k dg Hk.
  destruct (Forall2_lookup_l _ _ _ _ _ Ht Hk) as (entry & Hentry & Hdef).
  exists entry. split; [done|]. intros pchan. unfold defbase_entry in Hdef.
  destruct (BKE_pose_channel_find_name p (dg_name dg)) as [pchan'|] eqn:Hf.
  - destruct (bone pchan') as [b|] eqn:Hb; [simpl in Hdef|discriminate].
    destruct (flag_test (flag b) BONE_NO_DEFORM) eqn:Hflag; injection Hdef as <-.
    + split; [discriminate|]. intros ([= <-] & b' & Hb' & Hf').
      rewrite Hb in Hb'. injection Hb' as <-. congruence.
    + split.
      * intros [= <-]. split; [done|]. eauto.
      * intros ([= <-] & _). done.
  - injection Hdef as <-. split; [discriminate|]. intros ([=] & _).
Qed.

Lemma envelope_loop_app
    (chans1 chans2 : list bPoseChannel) (co : float3 F) (fd : bool) (st : Accum * F) :
  envelope_loop (chans1 ++ chans2) co fd st =
  (st' ← envelope_loop chans1 co fd st; envelope_loop chans2 co fd st').
Proof.
  revert st. induction chans1 as [|pchan chans1 IH]; intros [acc c]; [reflexivity|].
  cbn [app envelope_loop]. destruct (bone pchan) as [b|]; [simpl|reflexivity].
  destruct (if negb _ then _ else _) as [st1|]; [simpl|reflexivity].
  apply IH.
Qed.

(** X10.  Envelopes of bones flagged [BONE_NO_DEFORM] deform nothing: the
    envelope loop over the pose channels gives the same accumulators and
    contribution, or fails alike, with such a channel taken out of the list,
    wherever it stands. *)
Theorem envelope_loop_skips_no_deform
    (before after : list bPoseChannel) (pchan : bPoseChannel) (b : Bone)
    (co : float3 F) (fd : bool) (st : Accum * F) :
  bone pchan = Some b →
  flag_test (flag b) BONE_NO_DEFORM = true →
  envelope_loop (before ++ pchan :: after) co fd st =
  envelope_loop (before ++ after) co fd st.
Proof.
  intros Hb Hflag. rewrite !envelope_loop_app.
  destruct (envelope_loop before co fd st) as [[acc c]|]; [simpl|reflexivity].
  rewrite Hb. simpl. rewrite Hflag. reflexivity.
Qed.

(** X11.  A weight entry for a group whose table entry is null (a group
    that names no bone, or a no-deform bone) is skipped: the weight-group
    loop gives the same result with the entry taken out, wherever it stands;
    in particular it does not set [deformed]. *)
Theorem dvert_loop_skips_unbound_group
    (data : ArmatureUserdata) (co : float3 F) (fd : bool)
    (before after : list MDeformWeight) (w : MDeformWeight)
    (table : list (option bPoseChannel)) (st : GroupState) :
  pchan_from_defbase data = Some table →
  lookupZ table (def_nr w) = Some None →
  dvert_loop data co fd (before ++ w :: after) st =
  dvert_loop data co fd (before ++ after) st.
Proof.
  intros Ht Hw. rewrite !dvert_loop_app.
  destruct (dvert_loop data co fd before st) as [[[acc c] d]|]; [simpl|reflexivity].
  unfold dvert_step. rewrite Ht. simpl. rewrite Hw. simpl.
  destruct (_ >=? _)%Z; reflexivity.
Qed.

End Loops.

(** ** Envelopes in exact arithmetic *)


(** X13.  A bone of zero length uses its head radius everywhere.  In exact
    arithmetic, when [normalize_and_get_length] returns the null vector and
    the length 0 for [tail - head] (as it does for a null vector), the
    envelope factor of a point is the falloff of its squared distance to the
    head against [radius_head]; [radius_tail] plays no part. *)
Theorem distfactor_to_bone_zero_length
    (E : BlenlibExtern R) (position head tail : float3 R) (rh rt f : R) :
  normalize_and_get_length (BLI.sub_v3_v3 tail head) = (BLI.zero_v3, 0%R) →
  distfactor_to_bone position head tail rh rt f =
  bone_envelope_falloff (BLI.distance_squared position head) rh f.
Proof.
  intros Hn. unfold distfactor_to_bone. rewrite Hn.
  assert (Hh : BLI.dot (BLI.sub_v3_v3 position head) BLI.zero_v3 = 0%R).
  { unfold BLI.dot, BLI.zero_v3. simpl. ring. }
  rewrite Hh. simpl.
  assert (H1 : Rltb 0 0 = false) by (apply Rltb_false; lra).
  assert (H2 : Reqb 0 0 = true) by (apply Reqb_true; reflexivity).
  rewrite H1, H2. simpl. f_equal. ring.
Qed.

(** ** The rest pose *)

Section RestPose.
Context {C : DNAConst} {E : BlenlibExtern R} {K : BKEExtern (F:=R)}.
Local Open Scope float_scope.
Import BLI.

Lemma mul_v3_m4v3_unit (co : float3 R) : mul_v3_m4v3 unit_m4 co = co.
Proof.
  destruct co as [x y z]. unfold mul_v3_m4v3, unit_m4. simpl. f_equal; ring.
Qed.

Lemma pchan_deform_accumulate_rest
    (dq : option DualQuat) (m : option (mat4 R)) (co : float3 R) (w : R)
    (acc acc' : Accum) :
  (∀ m', m = Some m' → m' = unit_m4) → rest_accum acc →
  pchan_deform_accumulate dq m co w acc false = Some acc' → rest_accum acc'.
Proof.
  intros Hm [Hco Hdq]. unfold pchan_deform_accumulate.
  destruct (w =? f_zero); [intros [= <-]; done|].
  rewrite Hdq, Hco. destruct m as [m'|]; [simpl|discriminate].
  rewrite (Hm m' eq_refl). intros [= <-]. split; [|done]. simpl.
  rewrite mul_v3_m4v3_unit. destruct co as [x y z].
  unfold madd_v3_v3fl, sub_v3_v3, zero_v3. simpl. do 2 f_equal; ring.
Qed.

Lemma lookupZ_Forall {T : Type} (P : T → Prop) (l : list T) (i : Z) (x : T) :
  Forall P l → lookupZ l i = Some x → P x.
Proof.
  intros Hall. unfold lookupZ. destruct (i <? 0)%Z; [discriminate|].
  intros Hx. eapply Forall_lookup_1; eauto.
Qed.

Lemma bone_accumulate_rest
    (pchan : bPoseChannel) (b : Bone) (co : float3 R) (w : R) (acc acc' : Accum) :
  pchan_at_rest pchan → rest_accum acc →
  (if is_bbone pchan b
   then b_bone_deform pchan co w acc false
   else pchan_deform_accumulate (Some (deform_dual_quat pchan)) (Some (chan_mat pchan))
          co w acc false) = Some acc' →
  rest_accum acc'.
Proof.
  intros [Hmat Hmats] Hr. destruct (is_bbone pchan b).
  - unfold b_bone_deform.
    destruct (BKE_pchan_bbone_deform_segment_index pchan co) as [index blend].
    destruct (pchan_deform_accumulate _ _ co (w * (f_one - blend)) acc false)
      as [acc1|] eqn:H1; [simpl|discriminate].
    intros H2. eapply pchan_deform_accumulate_rest; [| |exact H2].
    + intros m' Hm'. exact (lookupZ_Forall _ _ _ _ Hmats Hm').
    + eapply pchan_deform_accumulate_rest; [| exact Hr | exact H1].
      intros m' Hm'. exact (lookupZ_Forall _ _ _ _ Hmats Hm').
  - apply pchan_deform_accumulate_rest; [|exact Hr]. intros m' [= <-]. exact Hmat.
Qed.

Lemma dvert_loop_rest
    (data : ArmatureUserdata) (co : float3 R) (ws : list MDeformWeight)
    (acc acc' : Accum) (c c' : R) (d d' : bool) :
  data_at_rest data → rest_accum acc →
  dvert_loop data co false ws (acc, c, d) = Some (acc', c', d') → rest_accum acc'.
Proof.
  intros [Hrest _]. revert acc c d. induction ws as [|w ws IH]; intros acc c d Hr.
  - intros [= <- _ _]. done.
  - cbn [dvert_loop].
    destruct (dvert_step data co false w (acc, c, d)) as [[[acc1 c1] d1]|] eqn:Hstep;
      [simpl|discriminate].
    apply IH. unfold dvert_step in Hstep.
    destruct (_ >=? _)%Z; [injection Hstep as <- _ _; done|].
    destruct (pchan_from_defbase data) as [table|] eqn:Ht; [simpl in Hstep|discriminate].
    destruct (lookupZ table (def_nr w)) as [[pchan|]|] eqn:Hentry; simpl in Hstep;
      [|injection Hstep as <- _ _; done|discriminate].
    assert (Hp : pchan_at_rest pchan).
    { apply (Hrest table); [done|]. unfold lookupZ in Hentry.
      destruct (def_nr w <? 0)%Z; [discriminate|].
      eapply list_elem_of_lookup_2; eauto. }
    unfold pchan_bone_deform in Hstep.
    destruct (_ =? f_zero); [injection Hstep as <- _ _; done|].
    destruct (bone pchan) as [b|]; [simpl in Hstep|discriminate].
    destruct (if is_bbone pchan b then _ else _) as [acc2|] eqn:Hacc2;
      [simpl in Hstep|discriminate].
    injection Hstep as <- _ _. eapply bone_accumulate_rest; eauto.
Qed.

Lemma envelope_loop_rest
    (chans : list bPoseChannel) (co : float3 R) (acc acc' : Accum) (c c' : R) :
  Forall pchan_at_rest chans → rest_accum acc →
  envelope_loop chans co false (acc, c) = Some (acc', c') → rest_accum acc'.
Proof.
  intros Hall. revert acc c. induction Hall as [|pchan chans Hp Hall IH]; intros acc c Hr.
  - intros [= <- _]. done.
  - cbn [envelope_loop]. destruct (bone pchan) as [b|] eqn:Hb; [simpl|discriminate].
    destruct (negb _); [|simpl; apply IH, Hr].
    unfold dist_bone_deform. rewrite Hb.
    destruct (_ >? f_zero); [|simpl; apply IH, Hr].
    destruct (_ >? f_zero); [|simpl; apply IH, Hr].
    destruct (if is_bbone pchan b then _ else _) as [acc2|] eqn:Hacc2;
      [simpl|discriminate].
    apply IH. eapply bone_accumulate_rest; eauto.
Qed.

Lemma vert_accumulate_rest
    (data : ArmatureUserdata) (dvert : option MDeformVert) (co : float3 R)
    (acc : Accum) (contrib : R) (path : AccumPath) :
  use_quaternion data = false → data_at_rest data →
  vert_accumulate data dvert co false = Some (acc, contrib, path) →
  rest_accum acc.
Proof.
  intros Hq Hrest Hacc. unfold vert_accumulate in Hacc.
  assert (Hr0 : rest_accum (initial_accum data false)).
  { unfold initial_accum. rewrite Hq. done. }
  assert (Henv : ∀ acc0 c0 (p : AccumPath), rest_accum acc0 →
    (chans ← pose_channels data;
     '(acc, contrib) ← envelope_loop chans co false (acc0, c0);
     Some (acc, contrib, p)) = Some (acc, contrib, path) →
    rest_accum acc).
  { intros acc0 c0 p Hr. destruct (pose_channels data) as [chans|] eqn:Hc;
      [simpl|discriminate].
    destruct (envelope_loop chans co false (acc0, c0)) as [[acc1 c1]|] eqn:He;
      [simpl|discriminate].
    intros [= <- _ _]. eapply envelope_loop_rest; [|exact Hr|exact He].
    apply Hrest. done. }
  destruct dvert as [dv|].
  - destruct (use_dverts data && negb (totweight dv =? 0)%Z).
    + destruct (dvert_entries dv) as [ws|]; [simpl in Hacc|discriminate].
      destruct (dvert_loop _ _ _ _ _) as [[[acc1 c1] d1]|] eqn:Hl;
        [simpl in Hacc|discriminate].
      apply dvert_loop_rest in Hl; [|done|done].
      destruct (negb d1 && use_envelope data).
      * exact (Henv _ _ _ Hl Hacc).
      * injection Hacc as <- _ _. done.
    + destruct (use_envelope data).
      * exact (Henv _ _ _ Hr0 Hacc).
      * injection Hacc as <- _ _. done.
  - destruct (use_envelope data).
    + exact (Henv _ _ _ Hr0 Hacc).
    + injection Hacc as <- _ _. done.
Qed.

(** X14.  In the rest pose linear blending moves nothing.  In exact
    arithmetic, with linear blending and no deformation-matrix buffer, when
    the deform matrix of every reachable pose channel and B-Bone segment is
    the identity, a vertex that is processed ends as [passthrough_buffers]
    says: its working coordinate goes through [premat] and [postmat] and
    nothing else, whatever its weights, its envelopes and the overall
    armature weight. *)
Theorem rest_pose_passthrough
    (data : ArmatureUserdata) (i : Z) (dvert : option MDeformVert) (bufs : Buffers (F:=R))
    (armature_weight prevco_weight : R) (co : float3 R)
    (acc : Accum) (contrib : R) (path : AccumPath) :
  use_quaternion data = false →
  vert_deform_mats bufs = None →
  data_at_rest data →
  resolve_weights data dvert (bool_decide (is_Some (vert_coords_prev bufs)))
    = (armature_weight, prevco_weight) →
  match vert_coords_prev bufs with
  | Some prev => prevco_weight ≠ 1%R ∧ lookupZ prev i = Some co
  | None => armature_weight ≠ 0%R ∧ lookupZ (vert_coords bufs) i = Some co
  end →
  vert_accumulate data dvert (mul_m4_v3 (premat data) co) false
    = Some (acc, contrib, path) →
  armature_vert_task_with_dvert data i dvert bufs =
    passthrough_buffers data i bufs prevco_weight co.
Proof.
  intros Hq Hm Hrest Hw Hco Hacc.
  unfold armature_vert_task_with_dvert, passthrough_buffers.
  rewrite Hw, Hm. simpl bool_decide.
  assert (Hproc :
    vert_process data i dvert bufs false armature_weight prevco_weight co =
    vert_write_back i bufs prevco_weight
      (mul_m4_v3 (postmat data) (mul_m4_v3 (premat data) co)) None).
  { unfold vert_process. rewrite Hacc. simpl.
    destruct (vert_accumulate_rest _ _ _ _ _ _ Hq Hrest Hacc) as [Hv _].
    unfold vert_deform. rewrite Hq, Hv. simpl.
    destruct (Rltb _ _); [|reflexivity]. simpl. do 2 f_equal.
    destruct (mul_m4_v3 (premat data) co) as [x y z].
    unfold add_v3_v3v3, mul_v3_fl, zero_v3. simpl. f_equal; ring. }
  destruct (vert_coords_prev bufs) as [prev|] eqn:Hprev; destruct Hco as [Htest Hlook].
  - apply Reqb_false in Htest. simpl. rewrite Htest, Hlook. simpl.
    rewrite Hproc. unfold vert_write_back. rewrite Hprev, Hm. reflexivity.
  - apply Reqb_false in Htest. simpl. rewrite Htest, Hlook. simpl.
    rewrite Hproc. unfold vert_write_back. rewrite Hprev, Hm. reflexivity.
Qed.

Lemma envelope_loop_outside
    (chans : list bPoseChannel) (co : float3 R) (fd : bool) (acc : Accum) (c : R) :
  Forall (λ pchan, outside_envelope pchan co) chans →
  envelope_loop chans co fd (acc, c) = Some (acc, c).
Proof.
  intros Hall. revert c. induction Hall as [|pchan chans Hp Hall IH]; intros c;
    [reflexivity|].
  cbn [envelope_loop]. destruct Hp as (b & Hb & Hout). rewrite Hb. simpl.
  destruct (flag_test (flag b) BONE_NO_DEFORM) eqn:Hflag; simpl; [apply IH|].
  destruct Hout as [Hx|Hfac]; [discriminate|].
  unfold dist_bone_deform. rewrite Hb. unfold f_ltb in Hfac. simpl in Hfac.
  simpl. rewrite Hfac. simpl. rewrite Rplus_0_r. apply IH.
Qed.

(** X15.  In exact arithmetic, in envelope mode and without vertex group
    data, a vertex that is outside the envelope of every pose channel (or
    whose bones are flagged no-deform) is only taken through [premat] and
    [postmat]. *)
Theorem outside_every_envelope_passthrough
    (data : ArmatureUserdata) (i : Z) (bufs : Buffers (F:=R)) (co : float3 R)
    (chans : list bPoseChannel) :
  use_envelope data = true →
  pose_channels data = Some chans →
  Forall (λ pchan, outside_envelope pchan (mul_m4_v3 (premat data) co)) chans →
  vert_coords_prev bufs = None →
  lookupZ (vert_coords bufs) i = Some co →
  armature_vert_task_with_dvert data i None bufs =
    passthrough_buffers data i bufs 0%R co.
Proof.
  intros Hue Hchans Hall Hprev Hco.
  eapply (armature_vert_task_with_dvert_passthrough data i None bufs 1%R 0%R co
            (initial_accum data (bool_decide (is_Some (vert_deform_mats bufs))))
            0%R PathEnvelope).
  - reflexivity.
  - rewrite Hprev. split; [|exact Hco]. apply Reqb_false. simpl. lra.
  - unfold vert_accumulate. rewrite Hue, Hchans. simpl.
    rewrite envelope_loop_outside by exact Hall. reflexivity.
  - apply Rltb_false. simpl. lra.
Qed.

End RestPose.

(** ** Linear blend skinning *)

Section Skinning.
Context {C : DNAConst} {E : BlenlibExtern R} {K : BKEExtern (F:=R)}.
Local Open Scope float_scope.
Import BLI.

Ltac v3 :=
  repeat match goal with v : float3 R |- _ => destruct v end;
  unfold madd_v3_v3fl, add_v3_v3v3, mul_v3_fl, sub_v3_v3, zero_v3; simpl;
  f_equal; ring.

Lemma lin_eq (v v' : float3 R) : v = v' → Some (lin v) = Some (lin v').
Proof. by intros ->. Qed.

Lemma state_eq (v v' : float3 R) (c c' : R) (d : bool) :
  v = v' → c = c' → Some (lin v, c, d) = Some (lin v', c', d).
Proof. by intros -> ->. Qed.

Lemma pchan_deform_accumulate_lin
    (dq : option DualQuat) (m : mat4 R) (co : float3 R) (w : R) (v : float3 R) :
  pchan_deform_accumulate dq (Some m) co w (lin v) false =
  Some (lin (madd_v3_v3fl v (sub_v3_v3 (mul_v3_m4v3 m co) co) w)).
Proof.
  unfold pchan_deform_accumulate. simpl.
  destruct (Reqb w 0) eqn:Hw; [|reflexivity].
  apply Reqb_true in Hw. subst w. apply lin_eq.
  generalize (sub_v3_v3 (mul_v3_m4v3 m co) co). intros d. v3.
Qed.

Lemma bone_accumulate_lin
    (pchan : bPoseChannel) (b : Bone) (co : float3 R) (w : R) (v : float3 R) :
  pchan_ready pchan → bone pchan = Some b →
  ∃ d, pchan_displacement pchan co = Some d ∧
       (if is_bbone pchan b
        then b_bone_deform pchan co w (lin v) false
        else pchan_deform_accumulate
               (Some (deform_dual_quat pchan)) (Some (chan_mat pchan))
               co w (lin v) false) = Some (lin (madd_v3_v3fl v d w)).
Proof.
  intros (b' & Hb' & Hseg) Hb. rewrite Hb in Hb'. injection Hb' as <-.
  unfold pchan_displacement. rewrite Hb. simpl.
  destruct (is_bbone pchan b) eqn:Hbb.
  - specialize (Hseg eq_refl co). unfold b_bone_deform.
    destruct (BKE_pchan_bbone_deform_segment_index pchan co) as [index blend].
    simpl in Hseg. destruct Hseg as (H0 & H1 & H2).
    destruct (lookupZ_is_Some (bbone_deform_mats pchan) (index + 1)) as [m1 Hm1]; [lia|].
    destruct (lookupZ_is_Some (bbone_deform_mats pchan) (index + 2)) as [m2 Hm2]; [lia|].
    rewrite Hm1, Hm2. simpl. eexists. split; [reflexivity|].
    rewrite pchan_deform_accumulate_lin. simpl.
    rewrite pchan_deform_accumulate_lin. apply lin_eq.
    generalize (sub_v3_v3 (mul_v3_m4v3 m1 co) co).
    generalize (sub_v3_v3 (mul_v3_m4v3 m2 co) co). intros d2 d1. v3.
  - eexists. split; [reflexivity|]. apply pchan_deform_accumulate_lin.
Qed.

Lemma skin_terms_unbound (data : ArmatureUserdata) (co : float3 R) (w : MDeformWeight) :
  entry_pchan data w = None → skin_terms data co [w] = [].
Proof. intros Hw. unfold skin_terms. simpl. rewrite Hw. reflexivity. Qed.

Lemma skin_terms_bound (data : ArmatureUserdata) (co : float3 R) (w : MDeformWeight)
    (pchan : bPoseChannel) (d : float3 R) :
  entry_pchan data w = Some pchan → pchan_displacement pchan co = Some d →
  skin_terms data co [w] = [(entry_weight co w pchan, d)].
Proof. intros Hw Hd. unfold skin_terms. simpl. rewrite Hw. simpl. rewrite Hd. reflexivity. Qed.

Lemma dvert_step_bound
    (data : ArmatureUserdata) (co : float3 R) (fd : bool) (w : MDeformWeight)
    (table : list (option bPoseChannel)) (pchan : bPoseChannel)
    (acc : Accum) (c : R) (d : bool) :
  (def_nr w >=? to_uint (defbase_len data))%Z = false →
  pchan_from_defbase data = Some table →
  lookupZ table (def_nr w) = Some (Some pchan) →
  dvert_step data co fd w (acc, c, d) =
  ('(acc, contrib) ← pchan_bone_deform pchan (entry_weight co w pchan) acc co fd c;
   Some (acc, contrib, true)).
Proof.
  intros Hge Ht Hentry. unfold dvert_step. rewrite Hge, Ht. simpl.
  rewrite Hentry. reflexivity.
Qed.

Lemma dvert_step_lin
    (data : ArmatureUserdata) (co : float3 R) (w : MDeformWeight)
    (v : float3 R) (c : R) (d : bool) :
  data_ready data → use_dverts data = true → (0 <= def_nr w)%Z →
  ∃ d', dvert_step data co false w (lin v, c, d) =
        Some (lin (add_v3_v3v3 v (total_displacement (skin_terms data co [w]))),
              c + total_weight (skin_terms data co [w]), d').
Proof.
  intros [Hd _] Hud Hnr. destruct (Hd Hud) as (table & Ht & Hlen & Hready).
  destruct (def_nr w >=? to_uint (defbase_len data))%Z eqn:Hge.
  { exists d. rewrite skin_terms_unbound by (unfold entry_pchan; by rewrite Hge).
    unfold dvert_step. rewrite Hge. apply state_eq; [v3 | simpl; ring]. }
  destruct (lookupZ_is_Some table (def_nr w)) as [entry Hentry]; [lia|].
  destruct entry as [pchan|].
  2:{ exists d. rewrite skin_terms_unbound
        by (unfold entry_pchan; rewrite Hge, Ht; simpl; by rewrite Hentry).
      unfold dvert_step. rewrite Hge, Ht. simpl. rewrite Hentry. simpl.
      apply state_eq; [v3 | simpl; ring]. }
  assert (Hp : pchan_ready pchan).
  { apply Hready. unfold lookupZ in Hentry.
    destruct (def_nr w <? 0)%Z; [discriminate|].
    eapply list_elem_of_lookup_2; eauto. }
  destruct (Hp) as (b & Hb & _).
  destruct (bone_accumulate_lin pchan b co (entry_weight co w pchan) v Hp Hb)
    as (disp & Hdisp & Hacc).
  rewrite (skin_terms_bound data co w pchan disp)
    by (try done; unfold entry_pchan; rewrite Hge, Ht; simpl; by rewrite Hentry).
  rewrite (dvert_step_bound data co false w table pchan) by done.
  exists true. revert Hacc. generalize (entry_weight co w pchan). intros wt Hacc.
  unfold pchan_bone_deform. rewrite Hb.
  destruct (wt =? f_zero) eqn:Hw.
  - apply Reqb_true in Hw. simpl in Hw. subst wt. simpl.
    apply state_eq; [unfold total_displacement; simpl; v3
                    | unfold total_weight; simpl; ring].
  - simpl. rewrite Hacc. simpl.
    apply state_eq; [unfold total_displacement; simpl; v3
                    | unfold total_weight; simpl; ring].
Qed.

Lemma skin_terms_cons (data : ArmatureUserdata) (co : float3 R)
    (w : MDeformWeight) (ws : list MDeformWeight) :
  skin_terms data co (w :: ws) = skin_terms data co [w] ++ skin_terms data co ws.
Proof.
  unfold skin_terms. simpl. destruct (_ ≫= _); reflexivity.
Qed.

Lemma total_weight_app (t1 t2 : list (R * float3 R)) :
  total_weight (t1 ++ t2) = (total_weight t1 + total_weight t2)%R.
Proof.
  unfold total_weight. induction t1 as [|t t1 IH]; simpl in *; [ring|].
  rewrite IH. ring.
Qed.

Lemma add_v3_zero_l (s : float3 R) : add_v3_v3v3 zero_v3 s = s.
Proof. v3. Qed.

Lemma add_v3_assoc (a b c : float3 R) :
  add_v3_v3v3 (add_v3_v3v3 a b) c = add_v3_v3v3 a (add_v3_v3v3 b c).
Proof. v3. Qed.

Lemma total_displacement_app (t1 t2 : list (R * float3 R)) :
  total_displacement (t1 ++ t2) =
  add_v3_v3v3 (total_displacement t1) (total_displacement t2).
Proof.
  unfold total_displacement. induction t1 as [|t t1 IH].
  - simpl foldr. symmetry. apply add_v3_zero_l.
  - cbn [app foldr]. rewrite IH. symmetry. apply add_v3_assoc.
Qed.

Lemma dvert_loop_lin
    (data : ArmatureUserdata) (co : float3 R) (ws : list MDeformWeight)
    (v : float3 R) (c : R) (d : bool) :
  data_ready data → use_dverts data = true →
  Forall (λ w, 0 <= def_nr w)%Z ws →
  ∃ d', dvert_loop data co false ws (lin v, c, d) =
        Some (lin (add_v3_v3v3 v (total_displacement (skin_terms data co ws))),
              c + total_weight (skin_terms data co ws), d').
Proof.
  intros Hd Hud Hws. revert v c d. induction Hws as [|w ws Hw Hws IH]; intros v c d.
  - exists d. simpl. apply state_eq; [v3 | unfold total_weight; simpl; ring].
  - cbn [dvert_loop].
    destruct (dvert_step_lin data co w v c d Hd Hud Hw) as (d1 & Hs).
    destruct (IH (add_v3_v3v3 v (total_displacement (skin_terms data co [w])))
                 (c + total_weight (skin_terms data co [w])) d1) as (d2 & Hl2).
    exists d2. rewrite Hs. etrans; [exact Hl2|].
    rewrite (skin_terms_cons data co w ws).
    rewrite total_weight_app, total_displacement_app.
    apply state_eq; [|simpl; ring].
    generalize (total_displacement (skin_terms data co [w])).
    generalize (total_displacement (skin_terms data co ws)). intros s2 s1. v3.
Qed.


End Skinning.

(** ** The buffers after a run *)

Section More.
Context {F : Type} {A : FloatArith F} {C : DNAConst} {E : BlenlibExtern F}
        {K : BKEExtern (F:=F)}.
Local Open Scope float_scope.
Import BLI.


(** X3.  Whatever the inputs, a run of [armature_deform_coords_impl] that
    returns leaves the length of every buffer as it was, and every vertex
    whose index is outside the batch (below 0, or not below the batch count:
    the size of the vertex pool for an edit mesh, [vert_coords_len]
    otherwise) keeps its coordinate, its deformation matrix and its previous
    coordinate. *)
Theorem armature_deform_coords_impl_frame
    (ob_arm ob_target : Object) (defbase : option (list bDeformGroup))
    (bufs out : Buffers (F:=F)) (vert_coords_len : Z) (deformflag : Z)
    (defgrp_name : string) (dverts : Span) (me_target : option Mesh)
    (em_target : option BMEditMesh) (log : list Event) :
  armature_deform_coords_impl ob_arm ob_target defbase bufs vert_coords_len
    deformflag defgrp_name dverts me_target em_target = (log, Some out) →
  buffer_lengths out = buffer_lengths bufs ∧
  ∀ i, ¬ (0 <= i < batch_count em_target vert_coords_len)%Z →
       buffer_slot out i = buffer_slot bufs i.
Proof.
  unfold armature_deform_coords_impl.
  destruct (ob_data ob_arm) as [arm| | |]; try discriminate.
  destruct (edbo arm); [intros [= _ <-]; done|].
  destruct (pose ob_arm) as [p|]; [|intros [= _ <-]; done].
  intros [= _ Hbatch]. unfold deform_batch in Hbatch.
  destruct (if BKE_object_supports_vertex_groups ob_target then _ else _)
    as [[[[[nr len] ud] off] table]|]; [|discriminate].
  cbn -[run_tasks] in Hbatch. exact (run_tasks_frame _ _ _ _ _ Hbatch).
Qed.

End More.

(** ** The deformation matrix of linear blending *)

Section SkinningMatrix.
Context {C : DNAConst} {E : BlenlibExtern R} {K : BKEExtern (F:=R)}.
Local Open Scope float_scope.
Import BLI.

Ltac m3 :=
  repeat match goal with
         | m : mat3 R |- _ => destruct m
         | v : float3 R |- _ => destruct v
         end;
  unfold madd_m3_m3m3fl, mul_m3_fl, zero_m3, madd_v3_v3fl, add_v3_v3v3, mul_v3_fl,
    sub_v3_v3, zero_v3; simpl;
  repeat (f_equal; try ring).

Lemma lin_mat_eq (v v' : float3 R) (m m' : mat3 R) :
  v = v' → m = m' → Some (lin_mat v m) = Some (lin_mat v' m').
Proof. by intros -> ->. Qed.

Lemma state_mat_eq (v v' : float3 R) (m m' : mat3 R) (c c' : R) (d : bool) :
  v = v' → m = m' → c = c' → Some (lin_mat v m, c, d) = Some (lin_mat v' m', c', d).
Proof. by intros -> -> ->. Qed.

Lemma pchan_deform_accumulate_lin_mat
    (dq : option DualQuat) (m : mat4 R) (co : float3 R) (w : R)
    (v : float3 R) (ms : mat3 R) :
  pchan_deform_accumulate dq (Some m) co w (lin_mat v ms) true =
  Some (lin_mat (madd_v3_v3fl v (sub_v3_v3 (mul_v3_m4v3 m co) co) w)
                (madd_m3_m3m3fl ms (copy_m3_m4 m) w)).
Proof.
  unfold pchan_deform_accumulate. simpl.
  destruct (Reqb w 0) eqn:Hw; [|reflexivity].
  apply Reqb_true in Hw. subst w. apply lin_mat_eq.
  - generalize (sub_v3_v3 (mul_v3_m4v3 m co) co). intros d. m3.
  - generalize (copy_m3_m4 m). intros n. m3.
Qed.

Lemma bone_accumulate_lin_mat
    (pchan : bPoseChannel) (b : Bone) (co : float3 R) (w : R)
    (v : float3 R) (ms : mat3 R) :
  pchan_ready pchan → bone pchan = Some b →
  ∃ d n, pchan_displacement pchan co = Some d ∧ pchan_matrix pchan co = Some n ∧
       (if is_bbone pchan b
        then b_bone_deform pchan co w (lin_mat v ms) true
        else pchan_deform_accumulate
               (Some (deform_dual_quat pchan)) (Some (chan_mat pchan))
               co w (lin_mat v ms) true)
       = Some (lin_mat (madd_v3_v3fl v d w) (madd_m3_m3m3fl ms n w)).
Proof.
  intros (b' & Hb' & Hseg) Hb. rewrite Hb in Hb'. injection Hb' as <-.
  unfold pchan_displacement, pchan_matrix. rewrite Hb. simpl.
  destruct (is_bbone pchan b) eqn:Hbb.
  - specialize (Hseg eq_refl co). unfold b_bone_deform.
    destruct (BKE_pchan_bbone_deform_segment_index pchan co) as [index blend].
    simpl in Hseg. destruct Hseg as (H0 & H1 & H2).
    destruct (lookupZ_is_Some (bbone_deform_mats pchan) (index + 1)) as [m1 Hm1]; [lia|].
    destruct (lookupZ_is_Some (bbone_deform_mats pchan) (index + 2)) as [m2 Hm2]; [lia|].
    rewrite Hm1, Hm2. simpl. do 2 eexists. split; [reflexivity|]. split; [reflexivity|].
    rewrite pchan_deform_accumulate_lin_mat. simpl.
    rewrite pchan_deform_accumulate_lin_mat. apply lin_mat_eq.
    + generalize (sub_v3_v3 (mul_v3_m4v3 m1 co) co).
      generalize (sub_v3_v3 (mul_v3_m4v3 m2 co) co). intros d2 d1. m3.
    + generalize (copy_m3_m4 m1). generalize (copy_m3_m4 m2). intros n2 n1. m3.
  - do 2 eexists. split; [reflexivity|]. split; [reflexivity|].
    apply pchan_deform_accumulate_lin_mat.
Qed.

Lemma skin_matrix_terms_unbound
    (data : ArmatureUserdata) (co : float3 R) (w : MDeformWeight) :
  entry_pchan data w = None → skin_matrix_terms data co [w] = [].
Proof. intros Hw. unfold skin_matrix_terms. simpl. rewrite Hw. reflexivity. Qed.

Lemma skin_matrix_terms_bound
    (data : ArmatureUserdata) (co : float3 R) (w : MDeformWeight)
    (pchan : bPoseChannel) (n : mat3 R) :
  entry_pchan data w = Some pchan → pchan_matrix pchan co = Some n →
  skin_matrix_terms data co [w] = [(entry_weight co w pchan, n)].
Proof.
  intros Hw Hn. unfold skin_matrix_terms. simpl. rewrite Hw. simpl. rewrite Hn.
  reflexivity.
Qed.

Lemma skin_matrix_terms_cons (data : ArmatureUserdata) (co : float3 R)
    (w : MDeformWeight) (ws : list MDeformWeight) :
  skin_matrix_terms data co (w :: ws) =
  skin_matrix_terms data co [w] ++ skin_matrix_terms data co ws.
Proof.
  unfold skin_matrix_terms. simpl. destruct (_ ≫= _); reflexivity.
Qed.

Lemma total_matrix_app (t1 t2 : list (R * mat3 R)) :
  total_matrix (t1 ++ t2) = add_m3 (total_matrix t1) (total_matrix t2).
Proof.
  unfold total_matrix, add_m3. induction t1 as [|t t1 IH].
  - simpl foldr.
    generalize (foldr (λ (t : R * mat3 R) s, madd_m3_m3m3fl s t.2 t.1) zero_m3 t2).
    intros s. m3.
  - cbn [app foldr]. rewrite IH.
    generalize (foldr (λ (t : R * mat3 R) s, madd_m3_m3m3fl s t.2 t.1) zero_m3 t1).
    generalize (foldr (λ (t : R * mat3 R) s, madd_m3_m3m3fl s t.2 t.1) zero_m3 t2).
    destruct t as [wt n]. simpl. intros s2 s1. m3.
Qed.

Lemma dvert_step_lin_mat
    (data : ArmatureUserdata) (co : float3 R) (w : MDeformWeight)
    (v : float3 R) (ms : mat3 R) (c : R) (d : bool) :
  data_ready data → use_dverts data = true → (0 <= def_nr w)%Z →
  ∃ d', dvert_step data co true w (lin_mat v ms, c, d) =
        Some (lin_mat (add_v3_v3v3 v (total_displacement (skin_terms data co [w])))
                      (add_m3 ms (total_matrix (skin_matrix_terms data co [w]))),
              c + total_weight (skin_terms data co [w]), d').
Proof.
  intros [Hd _] Hud Hnr. destruct (Hd Hud) as (table & Ht & Hlen & Hready).
  destruct (def_nr w >=? to_uint (defbase_len data))%Z eqn:Hge.
  { exists d.
    rewrite skin_terms_unbound by (unfold entry_pchan; by rewrite Hge).
    rewrite skin_matrix_terms_unbound by (unfold entry_pchan; by rewrite Hge).
    unfold dvert_step. rewrite Hge.
    apply state_mat_eq; [m3 | unfold add_m3, total_matrix; simpl; m3 | simpl; ring]. }
  destruct (lookupZ_is_Some table (def_nr w)) as [entry Hentry]; [lia|].
  destruct entry as [pchan|].
  2:{ exists d.
      rewrite skin_terms_unbound
        by (unfold entry_pchan; rewrite Hge, Ht; simpl; by rewrite Hentry).
      rewrite skin_matrix_terms_unbound
        by (unfold entry_pchan; rewrite Hge, Ht; simpl; by rewrite Hentry).
      unfold dvert_step. rewrite Hge, Ht. simpl. rewrite Hentry. simpl.
      apply state_mat_eq; [m3 | unfold add_m3, total_matrix; simpl; m3 | simpl; ring]. }
  assert (Hp : pchan_ready pchan).
  { apply Hready. unfold lookupZ in Hentry.
    destruct (def_nr w <? 0)%Z; [discriminate|].
    eapply list_elem_of_lookup_2; eauto. }
  destruct (Hp) as (b & Hb & _).
  destruct (bone_accumulate_lin_mat pchan b co (entry_weight co w pchan) v ms Hp Hb)
    as (disp & n & Hdisp & Hn & Hacc).
  assert (He : entry_pchan data w = Some pchan)
    by (unfold entry_pchan; rewrite Hge, Ht; simpl; by rewrite Hentry).
  rewrite (skin_terms_bound data co w pchan disp) by done.
  rewrite (skin_matrix_terms_bound data co w pchan n) by done.
  rewrite (dvert_step_bound data co true w table pchan) by done.
  exists true. revert Hacc. generalize (entry_weight co w pchan). intros wt Hacc.
  unfold pchan_bone_deform. rewrite Hb.
  destruct (wt =? f_zero) eqn:Hw.
  - apply Reqb_true in Hw. simpl in Hw. subst wt. simpl.
    apply state_mat_eq; [unfold total_displacement; simpl; m3
                        | unfold add_m3, total_matrix; simpl; m3
                        | unfold total_weight; simpl; ring].
  - simpl. rewrite Hacc. simpl.
    apply state_mat_eq; [unfold total_displacement; simpl; m3
                        | unfold add_m3, total_matrix; simpl; m3
                        | unfold total_weight; simpl; ring].
Qed.

Lemma dvert_loop_lin_mat
    (data : ArmatureUserdata) (co : float3 R) (ws : list MDeformWeight)
    (v : float3 R) (ms : mat3 R) (c : R) (d : bool) :
  data_ready data → use_dverts data = true →
  Forall (λ w, 0 <= def_nr w)%Z ws →
  ∃ d', dvert_loop data co true ws (lin_mat v ms, c, d) =
        Some (lin_mat (add_v3_v3v3 v (total_displacement (skin_terms data co ws)))
                      (add_m3 ms (total_matrix (skin_matrix_terms data co ws))),
              c + total_weight (skin_terms data co ws), d').
Proof.
  intros Hd Hud Hws. revert v ms c d.
  induction Hws as [|w ws Hw Hws IH]; intros v ms c d.
  - exists d. simpl.
    apply state_mat_eq; [m3 | unfold add_m3, total_matrix; simpl; m3
                        | unfold total_weight; simpl; ring].
  - cbn [dvert_loop].
    destruct (dvert_step_lin_mat data co w v ms c d Hd Hud Hw) as (d1 & Hs).
    destruct (IH (add_v3_v3v3 v (total_displacement (skin_terms data co [w])))
                 (add_m3 ms (total_matrix (skin_matrix_terms data co [w])))
                 (c + total_weight (skin_terms data co [w])) d1) as (d2 & Hl2).
    exists d2. rewrite Hs. etrans; [exact Hl2|].
    rewrite (skin_terms_cons data co w ws), (skin_matrix_terms_cons data co w ws).
    rewrite total_weight_app, total_displacement_app, total_matrix_app.
    apply state_mat_eq; [| |simpl; ring].
    + generalize (total_displacement (skin_terms data co [w])).
      generalize (total_displacement (skin_terms data co ws)). intros s2 s1. m3.
    + generalize (total_matrix (skin_matrix_terms data co [w])).
      generalize (total_matrix (skin_matrix_terms data co ws)).
      unfold add_m3. intros s2 s1. m3.
Qed.


End SkinningMatrix.

(** ** Deform flags that change nothing *)

Section Flags.
Context {F : Type} {A : FloatArith F} {C : DNAConst} {E : BlenlibExtern F}
        {K : BKEExtern (F:=F)}.
Local Open Scope float_scope.
Import BLI.

(** X19.  Without usable vertex group data the flag [ARM_DEF_VGROUP]
    changes nothing: for an edit mesh without a vertex group layer, a mesh
    without deform vertices, or otherwise an array of vertex group data
    whose size is not the vertex count, two runs whose deform flags differ
    in that bit only print the same and return the same buffers (or fail
    alike).  The bone weights are dropped without a message. *)
Theorem vgroup_flag_needs_dverts
    (ob_arm ob_target : Object) (defbase : option (list bDeformGroup))
    (bufs : Buffers (F:=F)) (vert_coords_len : Z) (flags1 flags2 : Z)
    (defgrp_name : string) (dverts : Span) (me_target : option Mesh)
    (em_target : option BMEditMesh) :
  no_usable_dverts dverts vert_coords_len me_target em_target →
  same_but_vgroup flags1 flags2 →
  armature_deform_coords_impl ob_arm ob_target defbase bufs vert_coords_len
    flags1 defgrp_name dverts me_target em_target =
  armature_deform_coords_impl ob_arm ob_target defbase bufs vert_coords_len
    flags2 defgrp_name dverts me_target em_target.
Proof.
  intros Hno (He & Hq & Hi). unfold armature_deform_coords_impl.
  destruct (ob_data ob_arm) as [arm| | |]; try reflexivity.
  destruct (edbo arm); [reflexivity|].
  destruct (pose ob_arm) as [p|]; [|reflexivity].
  f_equal. unfold deform_batch. rewrite He, Hq, Hi.
  destruct (BKE_object_supports_vertex_groups ob_target); [|reflexivity].
  destruct defbase as [db|]; [|reflexivity]. cbn -[run_tasks].
  unfold no_usable_dverts in Hno.
  assert (Hud :
    match em_target with
    | Some em => negb (vdata_dvert_offset em =? -1)%Z
    | None =>
        match me_target with
        | Some me => negb (span_size (deform_verts me) =? 0)%Z
        | None => (span_size dverts =? vert_coords_len)%Z
        end
    end = false).
  { destruct em_target as [em|]; [|destruct me_target as [me|]].
    - rewrite Hno. reflexivity.
    - rewrite Hno. reflexivity.
    - lia. }
  destruct em_target as [em|]; [|destruct me_target as [me|]];
    cbn -[run_tasks] in *; rewrite ?Hud;
    destruct (flag_test flags1 ARM_DEF_VGROUP), (flag_test flags2 ARM_DEF_VGROUP);
    cbn -[run_tasks]; rewrite ?Hud, ?Hno; reflexivity.
Qed.

End Flags.

Section Disabled.
Context {C : DNAConst} {E : BlenlibExtern R} {K : BKEExtern (F:=R)}.
Local Open Scope float_scope.
Import BLI.

Lemma insertZ_id {T : Type} (l : list T) (i : Z) (x : T) :
  lookupZ l i = Some x → insertZ i x l = l.
Proof.
  unfold lookupZ, insertZ. destruct (i <? 0)%Z; [done|].
  intros Hx. apply list_insert_id. exact Hx.
Qed.

Lemma task_parallel_range_fixed
    (task : Z → Buffers (F:=R) → option Buffers) (bufs : Buffers) (n : nat) (start : Z) :
  (∀ i, (start <= i < start + Z.of_nat n)%Z → task i bufs = Some bufs) →
  task_parallel_range task start n bufs = Some bufs.
Proof.
  revert start. induction n as [|n IH]; intros start Hfix; [reflexivity|].
  simpl. rewrite Hfix by lia. simpl. apply IH. intros i Hi. apply Hfix. lia.
Qed.


End Disabled.

(** ** The distance to the bone axis *)



(** ** The further properties on example data *)

(** X1 on two vertices: the task of vertex 0, bound to the bone with weight
    1, moves it and leaves vertex 1 alone. *)
Lemma armature_vert_task_with_dvert_frame_witness :
  buffer_lengths ExMore.two_vertices_moved = buffer_lengths ExMore.two_vertices ∧
  buffer_slot ExMore.two_vertices_moved 1 = buffer_slot ExMore.two_vertices 1.
Proof.
  destruct (armature_vert_task_with_dvert_frame
              (ExDriver.userdata false true (-1)) 0
              (Some (ExDriver.dvert_of [ExDriver.entry 0 B32.one]))
              ExMore.two_vertices ExMore.two_vertices_moved) as [Hlen Hslot];
    [reflexivity |].
  split; [exact Hlen | apply Hslot; discriminate].
Defined.

(** X2 on the same two vertices, the second one bound with weight 1/2. *)
Lemma armature_vert_task_with_dvert_commute_witness :
  (b ← armature_vert_task_with_dvert (ExDriver.userdata false true (-1)) 0
         (Some (ExDriver.dvert_of [ExDriver.entry 0 B32.one])) ExMore.two_vertices;
   armature_vert_task_with_dvert (ExDriver.userdata false true (-1)) 1
     (Some (ExDriver.dvert_of [ExDriver.entry 0 ExDriver.half])) b) =
  (b ← armature_vert_task_with_dvert (ExDriver.userdata false true (-1)) 1
         (Some (ExDriver.dvert_of [ExDriver.entry 0 ExDriver.half])) ExMore.two_vertices;
   armature_vert_task_with_dvert (ExDriver.userdata false true (-1)) 0
     (Some (ExDriver.dvert_of [ExDriver.entry 0 B32.one])) b).
Proof. apply armature_vert_task_with_dvert_commute. discriminate. Defined.

(** X3 on a batch of length 1 over the two-vertex buffers: vertex 1 is
    outside the batch. *)
Lemma armature_deform_coords_impl_frame_witness :
  buffer_lengths ExMore.two_vertices_moved = buffer_lengths ExMore.two_vertices ∧
  buffer_slot ExMore.two_vertices_moved 1 = buffer_slot ExMore.two_vertices 1.
Proof.
  destruct (armature_deform_coords_impl_frame
              (ExDriver.armature 0) ExBatch.target
              (Some (me_vertex_group_names ExBatch.mesh))
              ExMore.two_vertices ExMore.two_vertices_moved 1 ARM_DEF_VGROUP ""
              (deform_verts ExBatch.mesh) (Some ExBatch.mesh) None [])
    as [Hlen Hslot]; [reflexivity |].
  split; [exact Hlen | apply Hslot; simpl; lia].
Defined.

(** X4 on a batch of two vertices in envelope mode. *)
Lemma run_tasks_range_vertexwise_witness :
  ∃ alone,
    armature_vert_task (ExDriver.userdata true false (-1)) 0 ExMore.two_vertices
    = Some alone ∧
    buffer_slot ExMore.two_vertices_moved 0 = buffer_slot alone 0.
Proof.
  apply (run_tasks_range_vertexwise (ExDriver.userdata true false (-1)) 2
           ExMore.two_vertices ExMore.two_vertices_moved 0);
    [reflexivity | lia].
Defined.

(** X5 on the edit mesh of two vertices, for the second one. *)
Lemma run_tasks_editmesh_vertexwise_witness :
  ∃ alone,
    armature_vert_task_editmesh (ExDriver.userdata false true (-1)) 1
      {| bv_dvert := Some (ExDriver.dvert_of []) |} ExMore.two_vertices
    = Some alone ∧
    buffer_slot ExMore.two_vertices_moved 1 = buffer_slot alone 1.
Proof.
  apply (run_tasks_editmesh_vertexwise (ExDriver.userdata false true (-1))
           ExMore.edit_mesh 0 ExMore.two_vertices ExMore.two_vertices_moved 1%nat
           {| bv_dvert := Some (ExDriver.dvert_of []) |});
    reflexivity.
Defined.

(** X6 on the vertex (1/2, 0, 1) bound to the bone with weight 1, in linear
    mode without deformation matrices. *)
Lemma vert_accumulate_shape_witness :
  is_Some (co_accum {| co_accum := Some ExDriver.unit_x; dq_accum := None;
                       mat_accum := None (A:=mat3 spec_float) |}) ∧
  dq_accum {| co_accum := Some ExDriver.unit_x; dq_accum := None;
              mat_accum := None (A:=mat3 spec_float) |} = None ∧
  (is_Some (mat_accum {| co_accum := Some ExDriver.unit_x; dq_accum := None;
                         mat_accum := None (A:=mat3 spec_float) |}) ↔ false = true).
Proof.
  apply (vert_accumulate_shape (ExDriver.userdata false true (-1))
           (Some (ExDriver.dvert_of [ExDriver.entry 0 B32.one]))
           Ex.vertex_inside false _ B32.one PathGroups).
  reflexivity.
Defined.

(** The example pose channels can be read. *)
Lemma pchan_shift_ready : pchan_ready Ex.pchan_shift.
Proof. eexists. split; [reflexivity | discriminate]. Qed.

Lemma pchan_bbone_ready : pchan_ready Ex.pchan_bbone.
Proof. eexists. split; [reflexivity |]. intros _ co. simpl. lia. Qed.

Lemma userdata_table_ready : data_ready ExMore.userdata_table.
Proof.
  split; intros _.
  - eexists. split; [reflexivity |]. split; [vm_compute; discriminate |].
    intros pchan Hin. simpl in Hin.
    apply elem_of_cons in Hin as [[= ->] | Hin]; [exact pchan_shift_ready |].
    apply elem_of_cons in Hin as [[=] | Hin].
    apply list_elem_of_singleton in Hin as [= ->]. exact pchan_bbone_ready.
  - eexists. split; [reflexivity |]. repeat constructor. exact pchan_shift_ready.
Qed.

(** X7 on the vertex (1/2, 0, 1) with one weight for the plain bone and one
    for the B-Bone of a three-entry table, envelopes enabled. *)
Lemma armature_vert_task_with_dvert_safe_witness :
  is_Some (armature_vert_task_with_dvert ExMore.userdata_table 0
             (Some (ExDriver.dvert_of
                      [ExDriver.entry 0 B32.one; ExDriver.entry 2 ExDriver.half]))
             ExMore.two_vertices).
Proof.
  apply armature_vert_task_with_dvert_safe.
  - exact userdata_table_ready.
  - intros dv [= <-]. split; [simpl; lia |]. repeat constructor; simpl; lia.
  - split; [by eexists |]. split; intros ? [=].
Defined.

(** X8 on the mesh of the first scenario, with vertex groups and envelopes
    both enabled. *)
Lemma armature_deform_coords_impl_safe_witness :
  is_Some (armature_deform_coords_impl (ExDriver.armature 0) ExBatch.target
             (Some (me_vertex_group_names ExBatch.mesh))
             (ExDriver.one_vertex Ex.vertex_inside None) 1 3 ""
             (deform_verts ExBatch.mesh) (Some ExBatch.mesh) None).2.
Proof.
  apply (armature_deform_coords_impl_safe _ _ {| edbo := false |}).
  - reflexivity.
  - intros p [= <-]. split.
    + repeat constructor. exact pchan_shift_ready.
    + intros n pchan Hfind.
      cbn [BKE_pose_channel_find_name Env.bke Env.bke_with_segment chanbase] in Hfind.
      apply List.find_some in Hfind as [Hin _].
      destruct Hin as [<- | []]. exact pchan_shift_ready.
  - intros _. by eexists.
  - intros l [= <-]. split; [| simpl; lia].
    repeat constructor; simpl; lia.
  - intros i Hi. assert (i = 0) as -> by (simpl in Hi; lia).
    split; [by eexists |]. split; intros ? [=].
Defined.

(** X9 on a pose of a deforming and a no-deform bone and three groups: the
    entry of the group named after the no-deform bone is null. *)
Lemma defbase_table_entries_witness :
  length [Some Ex.pchan_shift; None; None] = 3%nat ∧
  ∃ entry, [Some Ex.pchan_shift; None; None] !! 1%nat = Some entry ∧
    ∀ pchan, entry = Some pchan ↔
      BKE_pose_channel_find_name
        {| pose_flag := 0; chanbase := [Ex.pchan_shift; ExMore.pchan_no_deform] |}
        "Helper" = Some pchan ∧
      ∃ b, bone pchan = Some b ∧ flag_test (flag b) BONE_NO_DEFORM = false.
Proof.
  destruct (defbase_table_entries
              {| pose_flag := 0; chanbase := [Ex.pchan_shift; ExMore.pchan_no_deform] |}
              [{| dg_name := "Bone" |}; {| dg_name := "Helper" |}; {| dg_name := "Other" |}]
              [Some Ex.pchan_shift; None; None]) as [Hlen Hentry]; [reflexivity |].
  split; [exact Hlen |].
  exact (Hentry 1%nat {| dg_name := "Helper" |} eq_refl).
Defined.

(** X10 on the pose of a deforming bone followed by a no-deform one. *)
Lemma envelope_loop_skips_no_deform_witness :
  envelope_loop ([Ex.pchan_shift] ++ ExMore.pchan_no_deform :: []) Ex.vertex_inside
    false (Ex.linear_accum, B32.zero) =
  envelope_loop ([Ex.pchan_shift] ++ []) Ex.vertex_inside
    false (Ex.linear_accum, B32.zero).
Proof.
  apply (envelope_loop_skips_no_deform _ _ _ (Ex.bone_z B32.zero 1 (2 ^ 12)));
    reflexivity.
Defined.

(** X11 on the three-entry table, whose entry 1 is null. *)
Lemma dvert_loop_skips_unbound_group_witness :
  dvert_loop ExMore.userdata_table Ex.vertex_inside false
    ([ExDriver.entry 0 ExDriver.half] ++
       ExDriver.entry 1 B32.one :: [ExDriver.entry 0 ExDriver.half])
    (Ex.linear_accum, B32.zero, false) =
  dvert_loop ExMore.userdata_table Ex.vertex_inside false
    ([ExDriver.entry 0 ExDriver.half] ++ [ExDriver.entry 0 ExDriver.half])
    (Ex.linear_accum, B32.zero, false).
Proof.
  apply (dvert_loop_skips_unbound_group _ _ _ _ _ _
           [Some Ex.pchan_shift; None; Some Ex.pchan_bbone]);
    reflexivity.
Defined.


(** X13 for a bone whose head and tail are both the origin. *)
Lemma distfactor_to_bone_zero_length_witness :
  distfactor_to_bone (Float3 1 0 0)%R (Float3 0 0 0)%R (Float3 0 0 0)%R 1%R 5%R 1%R =
  bone_envelope_falloff
    (BLI.distance_squared (Float3 1 0 0)%R (Float3 0 0 0)%R) 1%R 1%R.
Proof.
  apply (distfactor_to_bone_zero_length Env.blenlib).
  simpl. unfold Env.normalize. simpl.
  assert (Hz : Rltb 0 ((0 - 0) * (0 - 0) + (0 - 0) * (0 - 0) + (0 - 0) * (0 - 0)) = false)
    by (apply Rltb_false; lra).
  rewrite Hz. reflexivity.
Defined.

(** The exact example data can be read, whatever the deform matrix. *)
Lemma pchan_exact_ready (flags : Z) (m : mat4 R) : pchan_ready (ExMore.pchan_exact flags m).
Proof. eexists. split; [reflexivity | discriminate]. Qed.

Lemma userdata_exact_ready (envelope groups : bool) (flags : Z) (m : mat4 R) :
  data_ready (ExMore.userdata_exact envelope groups (ExMore.pchan_exact flags m)).
Proof.
  split; intros _.
  - eexists. split; [reflexivity |]. split; [vm_compute; discriminate |].
    intros pchan Hin. apply list_elem_of_singleton in Hin as [= ->].
    apply pchan_exact_ready.
  - eexists. split; [reflexivity |]. repeat constructor. apply pchan_exact_ready.
Qed.

Lemma dvert_exact_ready : dvert_ready ExMore.dvert_exact.
Proof. split; [simpl; lia |]. repeat constructor; simpl; lia. Qed.

(** X14 on the vertex (1/2, 0, 1) bound with weight 1/2 to a bone in its
    rest pose, envelopes enabled as well. *)
Lemma rest_pose_passthrough_witness :
  armature_vert_task_with_dvert
    (ExMore.userdata_exact true true (ExMore.pchan_exact 0 BLI.unit_m4)) 0
    (Some ExMore.dvert_exact) ExMore.one_vertex_exact =
  passthrough_buffers
    (ExMore.userdata_exact true true (ExMore.pchan_exact 0 BLI.unit_m4)) 0
    ExMore.one_vertex_exact 0%R ExMore.vertex_exact.
Proof.
  destruct (vert_accumulate_safe
              (ExMore.userdata_exact true true (ExMore.pchan_exact 0 BLI.unit_m4))
              (Some ExMore.dvert_exact)
              (BLI.mul_m4_v3 BLI.unit_m4 ExMore.vertex_exact) false)
    as [[[acc contrib] path] Hacc].
  { apply userdata_exact_ready. }
  { intros dv [= <-]. exact dvert_exact_ready. }
  apply (rest_pose_passthrough _ _ _ _ 1%R 0%R _ acc contrib path).
  - reflexivity.
  - reflexivity.
  - split.
    + intros table pchan [= <-] Hin. apply list_elem_of_singleton in Hin as [= ->].
      split; [reflexivity | constructor].
    + intros chans [= <-]. repeat constructor.
  - reflexivity.
  - split; [simpl; lra | reflexivity].
  - exact Hacc.
Defined.

(** The example [normalize_and_get_length] on the axis of the example bone. *)
Lemma normalize_bone_exact :
  Env.normalize (BLI.sub_v3_v3 (Float3 0 0 2) (Float3 0 0 0))%R = (Float3 0 0 1, 2)%R.
Proof.
  unfold Env.normalize, BLI.dot, BLI.sub_v3_v3. simpl.
  assert (Hpos : Rltb 0 ((0 - 0) * (0 - 0) + (0 - 0) * (0 - 0) + (2 - 0) * (2 - 0)) = true)
    by (apply Rltb_true; lra).
  rewrite Hpos.
  assert (Hs : sqrt ((0 - 0) * (0 - 0) + (0 - 0) * (0 - 0) + (2 - 0) * (2 - 0)) = 2%R).
  { replace ((0 - 0) * (0 - 0) + (0 - 0) * (0 - 0) + (2 - 0) * (2 - 0))%R
      with (2 * 2)%R by ring.
    apply sqrt_square. lra. }
  rewrite Hs. f_equal. f_equal; field.
Qed.

(** The point (3, 0, 1) is outside the envelope of the example bone, whose
    radii are 1 and whose falloff distance is 0. *)
Lemma far_vertex_outside (m : mat4 R) :
  outside_envelope (ExMore.pchan_exact 0 m) (Float3 3 0 1)%R.
Proof.
  eexists. split; [reflexivity |]. right. simpl.
  unfold distfactor_to_bone. simpl normalize_and_get_length.
  rewrite normalize_bone_exact. unfold BLI.dot, BLI.sub_v3_v3. simpl.
  assert (H1 : Rltb ((3 - 0) * 0 + (0 - 0) * 0 + (1 - 0) * 1) 0 = false)
    by (apply Rltb_false; lra).
  assert (H2 : Rltb 2 ((3 - 0) * 0 + (0 - 0) * 0 + (1 - 0) * 1) = false)
    by (apply Rltb_false; lra).
  assert (H3 : Reqb 2 0 = false) by (apply Reqb_false; lra).
  rewrite H1, H2, H3. simpl.
  rewrite bone_envelope_falloff_exact.
  unfold BLI.distance_squared, BLI.dot, BLI.sub_v3_v3, BLI.interpolate. simpl.
  destruct (Rlt_dec _ _) as [Hlt | _]; [exfalso; lra |].
  destruct (Req_dec_T 0 0) as [_ | Hne]; [| exfalso; lra].
  apply Rltb_false. lra.
Qed.

(** X15 on the vertex (3, 0, 1), outside the envelope of the only bone. *)
Lemma outside_every_envelope_passthrough_witness :
  armature_vert_task_with_dvert
    (ExMore.userdata_exact true false (ExMore.pchan_exact 0 ExMore.shift_x)) 0
    None ExMore.one_vertex_far =
  passthrough_buffers
    (ExMore.userdata_exact true false (ExMore.pchan_exact 0 ExMore.shift_x)) 0
    ExMore.one_vertex_far 0%R (Float3 3 0 1)%R.
Proof.
  apply (outside_every_envelope_passthrough _ _ _ _
           [ExMore.pchan_exact 0 ExMore.shift_x]);
    try reflexivity.
  constructor; [| constructor].
  change (outside_envelope (ExMore.pchan_exact 0 ExMore.shift_x)
            (BLI.mul_v3_m4v3 BLI.unit_m4 (Float3 3 0 1)%R)).
  rewrite mul_v3_m4v3_unit. apply far_vertex_outside.
Defined.




(** X19 on a batch of two vertices with vertex group data for one: the
    same result with and without [ARM_DEF_VGROUP]. *)
Lemma vgroup_flag_needs_dverts_witness :
  armature_deform_coords_impl (ExDriver.armature 0) ExBatch.target
    (Some (me_vertex_group_names ExBatch.mesh)) ExMore.two_vertices 2
    ARM_DEF_VGROUP "" (deform_verts ExBatch.mesh) None None =
  armature_deform_coords_impl (ExDriver.armature 0) ExBatch.target
    (Some (me_vertex_group_names ExBatch.mesh)) ExMore.two_vertices 2
    0 "" (deform_verts ExBatch.mesh) None None.
Proof.
  apply vgroup_flag_needs_dverts.
  - simpl. discriminate.
  - repeat split.
Defined.

Lemma invert_affine_unit : Env.invert_affine (F:=R) BLI.unit_m4 = BLI.unit_m4.
Proof.
  unfold Env.invert_affine, BLI.unit_m4. simpl. f_equal; f_equal; field.
Qed.

Lemma mul_m4_m4m4_unit : BLI.mul_m4_m4m4 (F:=R) BLI.unit_m4 BLI.unit_m4 = BLI.unit_m4.
Proof. unfold BLI.mul_m4_m4m4, BLI.unit_m4. simpl. f_equal; f_equal; ring. Qed.


